(** * textacy.texts: [TextDoc] and [TextCorpus]

    A shallow embedding of [src/textacy/texts.py] and the properties of its
    bookkeeping: memoized term counting, term listing, bag-of-terms
    weighting, constructor checks, and corpus membership management.

    Layout: the Python runtime pieces the module relies on (exceptions,
    [collections.Counter], [str.count], [re.finditer] on an escaped
    pattern, slices), the spaCy data the module reads, the textacy helper
    modules as an interface, then the two classes, then the theorems. *)

From Stdlib Require Import ZArith Lia Ascii String.
From Stdlib Require Import Floats.SpecFloat.
From stdpp Require Import base numbers strings pretty list gmap fin_maps.

Open Scope Z_scope.

(** ** Python runtime *)

(** The exception classes raised in, or propagating through, the module.
    Message texts are not modelled. *)
Inductive exn : Type :=
  | ValueError
  | TypeError
  | AttributeError
  | KeyError
  | IndexError
  | ZeroDivisionError
  | OverflowError
  | UnboundLocalError.

Global Instance exn_eq_dec : EqDecision exn.
Proof. solve_decision. Defined.

(** How a call ends: with a value, or with an exception. *)
Inductive outcome (A : Type) : Type :=
  | Return (a : A)
  | Raise (e : exn).
Arguments Return {A} a.
Arguments Raise {A} e.

Global Instance outcome_ret : MRet outcome := λ A a, Return a.
Global Instance outcome_bind : MBind outcome := λ A B k o,
  match o with
  | Return a => k a
  | Raise e => Raise e
  end.

(** Methods mutate the objects they can reach. [M S A] is a computation over
    a store [S]: it ends with an outcome and the store as it is at that
    moment, so that mutations done before an exception stay visible. *)
Definition M (S A : Type) : Type := S → outcome A * S.

Global Instance M_ret {S} : MRet (M S) := λ A a s, (Return a, s).
Global Instance M_bind {S} : MBind (M S) := λ A B k m s,
  match m s with
  | (Return a, s') => k a s'
  | (Raise e, s') => (Raise e, s')
  end.

Definition raise {S A} (e : exn) : M S A := λ s, (Raise e, s).
Definition get {S} : M S S := λ s, (Return s, s).
Definition modify {S} (f : S → S) : M S unit := λ s, (Return tt, f s).
Definition lift {S A} (o : outcome A) : M S A := λ s, (o, s).

(** [for x in l: body(x)] *)
Fixpoint for_each {S A} (l : list A) (body : A → M S unit) : M S unit :=
  match l with
  | [] => mret tt
  | x :: l' => body x;; for_each l' body
  end.

(** [range(a, b)] *)
Definition range (a b : Z) : list Z := seqZ a (b - a).

(** [l[start:]] for a list [l]: a negative [start] counts from the end, and
    both ends are clipped to the list. *)
Definition slice_from {A} (l : list A) (start : Z) : list A :=
  let n := Z.of_nat (length l) in
  let s := if decide (start < 0) then Z.max 0 (n + start) else Z.min start n in
  drop (Z.to_nat s) l.

(** An int that fits the index-sized integer ([Py_ssize_t]) of a 64-bit
    CPython. *)
Definition index_sized (i : Z) : Prop := - 2 ^ 63 ≤ i < 2 ^ 63.

Global Instance index_sized_dec i : Decision (index_sized i).
Proof. unfold index_sized. apply _. Defined.

(** Python [float]: an IEEE 754 binary64 number, with the operations of the
    Standard Library's [SpecFloat] at [prec = 53] and [emax = 1024]. They
    round to the nearest float, ties to even. *)
Definition float : Type := spec_float.

(** Python numbers as the module produces them: [int] and [float]. *)
Inductive number : Type :=
  | Int (z : Z)
  | Float (f : float).

(** An int as the exact operand of a division, before any rounding. *)
Definition int_operand (z : Z) : float :=
  match z with
  | Z0 => S754_zero false
  | Zpos m => S754_finite false m 0
  | Zneg m => S754_finite true m 0
  end.

(** Where an operation on ints has no float to give, Python raises
    [OverflowError] instead of giving an infinity. *)
Definition or_overflow (f : float) : outcome float :=
  match f with
  | S754_infinity _ => Raise OverflowError
  | _ => Return f
  end.

(** [float(z)], as an arithmetic operation converts its int operand: the
    float nearest to [z]. *)
Definition float_of_int (z : Z) : outcome float :=
  or_overflow (binary_normalize 53 1024 z 0 false).

(** [x * y]: an [int] when both are; otherwise an int operand is converted
    and the product is the IEEE product, which overflows to an infinity
    without an exception. *)
Definition number_mul (x y : number) : outcome number :=
  match x, y with
  | Int a, Int b => Return (Int (a * b))
  | Int a, Float g => f ← float_of_int a; Return (Float (SFmul 53 1024 f g))
  | Float f, Int b => g ← float_of_int b; Return (Float (SFmul 53 1024 f g))
  | Float f, Float g => Return (Float (SFmul 53 1024 f g))
  end.

(** [a / b] on two ints under [from __future__ import division]: the float
    nearest to the quotient of the two ints. *)
Definition true_div (a b : Z) : outcome number :=
  if decide (b = 0) then Raise ZeroDivisionError
  else
    q ← or_overflow (SFdiv 53 1024 (int_operand a) (int_operand b));
    Return (Float q).

(** *** [str] *)

(** [s.count(' ')] *)
Fixpoint count_spaces (s : string) : Z :=
  match s with
  | EmptyString => 0
  | String c s' => (if decide (c = " "%char) then 1 else 0) + count_spaces s'
  end.

(** [sum(1 for _ in re.finditer(re.escape(pat), text))]: the matches of the
    literal [pat], scanned left to right without overlap. [skip] is the
    number of characters still covered by the last match. An empty [pat]
    matches once at every position, the end of [text] included. *)
Fixpoint finditer_count_from (skip : nat) (pat text : string) : Z :=
  match skip with
  | S k =>
      match text with
      | EmptyString => 0
      | String _ text' => finditer_count_from k pat text'
      end
  | O =>
      match text with
      | EmptyString => if String.prefix pat EmptyString then 1 else 0
      | String _ text' =>
          if String.prefix pat text
          then 1 + finditer_count_from (Nat.pred (String.length pat)) pat text'
          else finditer_count_from O pat text'
      end
  end.

Definition finditer_count (pat text : string) : Z :=
  finditer_count_from O pat text.

(** [s[:n]]. The characters of a [str] are the [ascii] characters of the
    string: a text is taken to hold one-byte characters only. *)
Fixpoint str_take (n : nat) (s : string) : string :=
  match n, s with
  | S n', String c s' => String c (str_take n' s')
  | _, _ => EmptyString
  end.

(** [s.replace('\n', ' ')] *)
Fixpoint replace_newlines (s : string) : string :=
  match s with
  | EmptyString => EmptyString
  | String c s' =>
      String (if decide (c = "010"%char) then " "%char else c)
        (replace_newlines s')
  end.

(** [sum(1 for _ in re.finditer(r'\n\n+', text))]: the maximal runs of two
    or more newlines, each counted at its second newline. [run] is the
    number of newlines that end at the current position. *)
Fixpoint newline_runs_from (run : nat) (text : string) : Z :=
  match text with
  | EmptyString => 0
  | String c text' =>
      if decide (c = "010"%char) then
        (if decide (run = 1%nat) then 1 else 0)
        + newline_runs_from (S run) text'
      else newline_runs_from 0 text'
  end.

Definition newline_runs (text : string) : Z := newline_runs_from 0 text.

(** *** [list] *)

(** [l[index]]: a negative [index] counts from the end; an index outside the
    list raises [IndexError]. *)
Definition list_getitem {A} (l : list A) (index : Z) : outcome A :=
  let n := Z.of_nat (length l) in
  let i := if decide (index < 0) then index + n else index in
  if decide (0 ≤ i < n) then
    match l !! Z.to_nat i with
    | Some x => Return x
    | None => Raise IndexError
    end
  else Raise IndexError.

(** *** [collections.Counter] *)

(** A [Counter] keyed by term ids. *)
Abbreviation Counter := (gmap Z Z).

(** [c[k]]: a missing key counts as zero. *)
Definition counter_get (c : Counter) (k : Z) : Z := default 0 (c !! k).

(** [Counter(iterable)] *)
Definition counter_incr (c : Counter) (k : Z) : Counter :=
  <[k := counter_get c k + 1]> c.
Definition counter_of_list (l : list Z) : Counter := foldl counter_incr ∅ l.

(** One key of [a | b]. [Counter.__or__] goes through the items of [a],
    taking the larger of the two counts, then through the items of [b] that
    are not in [a]; it keeps positive counts only. *)
Definition or_entry (x y : option Z) : option Z :=
  match x with
  | Some cx =>
      let cy := default 0 y in
      let newcount := if decide (cx < cy) then cy else cx in
      if decide (0 < newcount) then Some newcount else None
  | None =>
      match y with
      | Some cy => if decide (0 < cy) then Some cy else None
      | None => None
      end
  end.
Definition counter_or (a b : Counter) : Counter := merge or_entry a b.

(** [absorbs c a]: merging [a] into [c] changes nothing. *)
Definition absorbs (c a : Counter) : Prop := counter_or c a = c.

(** One key of [a + b] (also what [a += b] leaves in [a]): the sum of the two
    counts, kept when positive. *)
Definition add_entry (x y : option Z) : option Z :=
  match x with
  | Some cx =>
      let newcount := cx + default 0 y in
      if decide (0 < newcount) then Some newcount else None
  | None =>
      match y with
      | Some cy => if decide (0 < cy) then Some cy else None
      | None => None
      end
  end.
Definition counter_add (a b : Counter) : Counter := merge add_entry a b.

(** A dict comprehension [{k: f(k, v) for k, v in m.items()}]: the first
    item on which [f] raises ends it. *)
Definition dict_comp {V W} (f : Z → V → outcome W) (m : gmap Z V)
    : outcome (gmap Z W) :=
  kvs ← mapM (λ kv : Z * V, w ← f kv.1 kv.2; mret (kv.1, w))
          (map_to_list m);
  mret (list_to_map kvs).

(** [any(f(t) for t in l)]: stops at the first true element, and at the
    first element on which [f] raises. *)
Fixpoint any_of {A} (f : A → outcome bool) (l : list A) : outcome bool :=
  match l with
  | [] => Return false
  | x :: l' => b ← f x; if b : bool then Return true else any_of f l'
  end.

(** ** spaCy

    The NLP engine is a collaborator: the module reads the attributes below
    from its objects and calls a loaded pipeline on a text. *)
Module spacy.

(** [StringStore]: [store[s]] gives the id of the string [s]; [store[i]]
    gives back the string of id [i] and raises [IndexError] ([None] here)
    for an id it does not hold. *)
Record StringStore : Type := {
  str_to_id : string → Z;
  id_to_str : Z → option string
}.

Record Vocab : Type := { strings : StringStore }.

(** [Token]: [i] is the index of the token within its document, [idx] the
    character offset of the token within the document's text. *)
Module Token.
Record t : Type := {
  i : Z;
  idx : Z;
  text : string;
  lemma_ : string
}.
End Token.

(** [Span]: the tokens [start], ..., [end - 1] of a document. *)
Module Span.
Record t : Type := {
  start : Z;
  end_ : Z;
  text : string;
  lemma_ : string
}.
(** [len(span)] *)
Definition len (sp : t) : Z := end_ sp - start sp.
End Span.

(** One token as a document stores it: its text, the whitespace that follows
    it, and its lemma. *)
Record lexeme : Type := {
  orth : string;
  whitespace_ : string;
  lemma : string
}.

Module Doc.
Record t : Type := {
  vocab : Vocab;
  lexemes : list lexeme;
  sent_bounds : list (Z * Z);
  ent_bounds : list (Z * Z)
}.

(** [len(doc)] *)
Definition len (d : t) : Z := Z.of_nat (length (lexemes d)).

(** [doc.text_with_ws] *)
Definition text_with_ws (d : t) : string :=
  foldr (λ w acc, orth w +:+ whitespace_ w +:+ acc) EmptyString (lexemes d).

Fixpoint tokens_from (i idx : Z) (ws : list lexeme) : list Token.t :=
  match ws with
  | [] => []
  | w :: ws' =>
      {| Token.i := i; Token.idx := idx;
         Token.text := orth w; Token.lemma_ := lemma w |}
      :: tokens_from (i + 1)
           (idx + Z.of_nat (String.length (orth w +:+ whitespace_ w))) ws'
  end.

(** [iter(doc)] *)
Definition tokens (d : t) : list Token.t := tokens_from 0 0 (lexemes d).

Fixpoint span_text (ws : list lexeme) : string :=
  match ws with
  | [] => EmptyString
  | [w] => orth w
  | w :: ws' => orth w +:+ whitespace_ w +:+ span_text ws'
  end.

Fixpoint join_space (l : list string) : string :=
  match l with
  | [] => EmptyString
  | [x] => x
  | x :: l' => x +:+ " " +:+ join_space l'
  end.

(** [doc[start:end]] *)
Definition span (d : t) (start end_ : Z) : Span.t :=
  let ws :=
    take (Z.to_nat (end_ - start)) (drop (Z.to_nat start) (lexemes d)) in
  {| Span.start := start; Span.end_ := end_;
     Span.text := span_text ws;
     Span.lemma_ := join_space (lemma <$> ws) |}.

(** [iter(doc[start:end])]: the tokens of a span. *)
Definition span_tokens (d : t) (sp : Span.t) : list Token.t :=
  take (Z.to_nat (Span.end_ sp - Span.start sp))
    (drop (Z.to_nat (Span.start sp)) (tokens d)).

(** [doc.sents] and [doc.ents] *)
Definition sents (d : t) : list Span.t :=
  (λ b : Z * Z, span d b.1 b.2) <$> sent_bounds d.
Definition ents (d : t) : list Span.t :=
  (λ b : Z * Z, span d b.1 b.2) <$> ent_bounds d.
End Doc.

(** A loaded pipeline ([spacy.<lang>.<Lang>()]): its language code, its
    vocabulary, and what calling it on a text gives. *)
Module Language.
Record t : Type := {
  lang : string;
  vocab : Vocab;
  call : string → Doc.t
}.

(** [pipeline.pipe(texts, ...)]: one parsed document per text, in order. *)
Definition pipe (p : t) (texts : list string) : list Doc.t := call p <$> texts.
End Language.

End spacy.
Import spacy.

(** What the extraction helpers give: tokens for words, spans for the rest. *)
Inductive term : Type :=
  | TTok (tok : Token.t)
  | TSpan (sp : Span.t).

Definition term_text (x : term) : string :=
  match x with TTok tok => Token.text tok | TSpan sp => Span.text sp end.
Definition term_lemma_ (x : term) : string :=
  match x with TTok tok => Token.lemma_ tok | TSpan sp => Span.lemma_ sp end.

(** ** The textacy helper modules

    [text_utils], [data], [extract], [spacy_utils], [keyterms] and
    [representations.network] are called, not defined, in [texts.py]; they
    are taken as an interface. [kwargs] stands for the keyword arguments
    passed through to [extract], [no_kwargs] for a call without any. *)
Class Helpers : Type := {
  kwargs : Type;
  no_kwargs : kwargs;
  score : Type;
  graph : Type;
  detect_language : string → string;
  load_spacy : string → outcome Language.t;
  extract_words : Doc.t → kwargs → list Token.t;
  extract_ngrams : Doc.t → Z → kwargs → list Span.t;
  extract_named_entities : Doc.t → kwargs → list Span.t;
  extract_noun_chunks : Doc.t → kwargs → list Span.t;
  normalized_str : term → string;
  sgrank : Doc.t → Z → number → list (string * score);
  textrank : Doc.t → number → list (string * score);
  singlerank : Doc.t → number → list (string * score);
  terms_to_semantic_network : list Token.t → Z → string → graph;
  sents_to_semantic_network : list Span.t → string → graph
}.

(** ** [class TextDoc] *)
Module TextDoc.

(** A document's [metadata] dict. *)
Abbreviation Metadata := (gmap string string).

(** [corpus_index] and [corpus] are attributes that a corpus sets on a doc
    when it takes it in; a doc that was never added has neither, which is
    what [hasattr(doc, 'corpus_index')] asks. [corpus] refers to the corpus
    object by its address in the store. *)
Record t : Type := {
  metadata : Metadata;
  _term_counts : Counter;
  lang : string;
  spacy_vocab : Vocab;
  spacy_stringstore : StringStore;
  spacy_doc : Doc.t;
  corpus_index : option Z;
  corpus : option nat
}.

Definition set_term_counts (c : Counter) (self : t) : t :=
  {| metadata := metadata self; _term_counts := c; lang := lang self;
     spacy_vocab := spacy_vocab self;
     spacy_stringstore := spacy_stringstore self;
     spacy_doc := spacy_doc self; corpus_index := corpus_index self;
     corpus := corpus self |}.

Definition set_corpus_index (ci : Z) (self : t) : t :=
  {| metadata := metadata self; _term_counts := _term_counts self;
     lang := lang self; spacy_vocab := spacy_vocab self;
     spacy_stringstore := spacy_stringstore self;
     spacy_doc := spacy_doc self; corpus_index := Some ci;
     corpus := corpus self |}.

Definition set_corpus (c : nat) (self : t) : t :=
  {| metadata := metadata self; _term_counts := _term_counts self;
     lang := lang self; spacy_vocab := spacy_vocab self;
     spacy_stringstore := spacy_stringstore self;
     spacy_doc := spacy_doc self; corpus_index := corpus_index self;
     corpus := Some c |}.

(** The first argument of the constructor: a [str], a [spacy.Doc], or
    something else. *)
Inductive text_or_sdoc_arg : Type :=
  | ArgStr (text : string)
  | ArgSdoc (sdoc : Doc.t)
  | ArgOther.

(** The [lemmatize] argument: ['auto'], [True], or anything else. *)
Inductive lemmatize_arg : Type :=
  | LemAuto
  | LemTrue
  | LemOther.

(** The argument of [term_count]: a [str], a [spacy.Token], a [spacy.Span],
    or something else. *)
Inductive term_arg : Type :=
  | TermStr (s : string)
  | TermToken (tok : Token.t)
  | TermSpan (sp : Span.t)
  | TermOther.

(** [not lang]: [None] and the empty string are false. *)
Definition lang_given (lang : option string) : option string :=
  match lang with
  | Some l => if decide (l = EmptyString) then None else Some l
  | None => None
  end.

Section methods.
Context `{Helpers}.

Definition __init__ (text_or_sdoc : text_or_sdoc_arg)
    (spacy_pipeline : option Language.t) (lang : option string)
    (metadata : option Metadata) : outcome t :=
  let self_metadata := default ∅ metadata in
  let self_term_counts : Counter := ∅ in
  match text_or_sdoc with
  | ArgStr text =>
      let self_lang := default (detect_language text) (lang_given lang) in
      spacy_pipeline ←
        match spacy_pipeline with
        | None => load_spacy self_lang
        | Some p =>
            if decide (Language.lang p ≠ self_lang) then Raise ValueError
            else Return p
        end;
      Return {| metadata := self_metadata; _term_counts := self_term_counts;
                lang := self_lang;
                spacy_vocab := Language.vocab spacy_pipeline;
                spacy_stringstore := strings (Language.vocab spacy_pipeline);
                spacy_doc := Language.call spacy_pipeline text;
                corpus_index := None; corpus := None |}
  | ArgSdoc sdoc =>
      let self_lang :=
        match spacy_pipeline with
        | Some p => Language.lang p
        | None => detect_language (Doc.text_with_ws sdoc)
        end in
      Return {| metadata := self_metadata; _term_counts := self_term_counts;
                lang := self_lang;
                spacy_vocab := Doc.vocab sdoc;
                spacy_stringstore := strings (Doc.vocab sdoc);
                spacy_doc := sdoc;
                corpus_index := None; corpus := None |}
  | ArgOther => Raise ValueError
  end.

(** [text], [n_tokens], [n_sents], [sents] *)
Definition text (self : t) : string := Doc.text_with_ws (spacy_doc self).
Definition n_tokens (self : t) : Z := Doc.len (spacy_doc self).
Definition sents (self : t) : list Span.t := Doc.sents (spacy_doc self).
Definition n_sents (self : t) : Z := Z.of_nat (length (sents self)).

(** Information extraction: each method hands the parsed document to
    [extract]. *)
Definition words (self : t) (kw : kwargs) : list Token.t :=
  extract_words (spacy_doc self) kw.
Definition ngrams (self : t) (n : Z) (kw : kwargs) : list Span.t :=
  extract_ngrams (spacy_doc self) n kw.
Definition named_entities (self : t) (kw : kwargs) : list Span.t :=
  extract_named_entities (spacy_doc self) kw.
Definition noun_chunks (self : t) (kw : kwargs) : list Span.t :=
  extract_noun_chunks (spacy_doc self) kw.

Definition key_terms (self : t) (algorithm : string) (n : number)
    : outcome (list (string * score)) :=
  if decide (algorithm = "sgrank") then Return (sgrank (spacy_doc self) 1500 n)
  else if decide (algorithm = "textrank") then
    Return (textrank (spacy_doc self) n)
  else if decide (algorithm = "singlerank") then
    Return (singlerank (spacy_doc self) n)
  else Raise ValueError.

Definition as_semantic_network (self : t) (nodes edge_weighting : string)
    (window_width : Z) : outcome graph :=
  if decide (nodes = "terms") then
    let edge_weighting :=
      if decide (edge_weighting = "default") then "cooc_freq"
      else edge_weighting in
    Return (terms_to_semantic_network (words self no_kwargs) window_width
              edge_weighting)
  else if decide (nodes = "sents") then
    let edge_weighting :=
      if decide (edge_weighting = "default") then "cosine"
      else edge_weighting in
    Return (sents_to_semantic_network (sents self) edge_weighting)
  else Raise ValueError.

(** The [(start, end)] pair that [as_terms_list] looks up in [ent_idxs] for
    a word, and for an n-gram. *)
Definition word_key (word : Token.t) : Z * Z :=
  (Token.idx word, Token.idx word + 1).
Definition span_key (sp : Span.t) : Z * Z := (Span.start sp, Span.end_ sp).

(** The [n] of the n-gram loop: [range(ngrams[0], ngrams[1] + 1)] without
    [n == 1] when [words] is on. *)
Definition ngram_orders (words : bool) (ngrams : Z * Z) : list Z :=
  filter (λ n, ¬ (n = 1 ∧ words = true)) (range ngrams.1 (ngrams.2 + 1)).

(** The local [all_terms] of [as_terms_list], chained. [ngrams] is [None]
    for a false value. *)
Definition all_terms (self : t) (words : bool) (ngrams : option (Z * Z))
    (named_entities dedupe : bool) (kw : kwargs) : list term :=
  if dedupe && named_entities && (words || bool_decide (is_Some ngrams)) then
    let ents := methods.named_entities self kw in
    let ent_idxs := span_key <$> ents in
    (TSpan <$> ents)
    ++ (if words
        then TTok <$> filter (λ word, word_key word ∉ ent_idxs)
                        (methods.words self kw)
        else [])
    ++ match ngrams with
       | Some ngrams =>
           n ← ngram_orders words ngrams;
           TSpan <$> filter (λ ngram, span_key ngram ∉ ent_idxs)
                       (methods.ngrams self n kw)
       | None => []
       end
  else
    (if named_entities then TSpan <$> methods.named_entities self kw else [])
    ++ (if words then TTok <$> methods.words self kw else [])
    ++ match ngrams with
       | Some ngrams =>
           n ← ngram_orders words ngrams;
           TSpan <$> methods.ngrams self n kw
       | None => []
       end.

Definition as_terms_list (self : t) (words : bool) (ngrams : option (Z * Z))
    (named_entities dedupe lemmatize : bool) (kw : kwargs) : list string :=
  if lemmatize
  then term_lemma_ <$> all_terms self words ngrams named_entities dedupe kw
  else term_text <$> all_terms self words ngrams named_entities dedupe kw.

(** *** Statistics: the methods that write [self._term_counts] *)

(** [get_id] as [term_counts] picks it from [lemmatize]. *)
Definition get_id (self : t) (lemmatize : lemmatize_arg) (x : term) : Z :=
  str_to_id (spacy_stringstore self)
    match lemmatize with
    | LemAuto => normalized_str x
    | LemTrue => term_lemma_ x
    | LemOther => term_text x
    end.

(** [self._term_counts = self._term_counts | Counter(ids)] *)
Definition or_into_term_counts (ids : t → list Z) : M t unit :=
  modify (λ self,
    set_term_counts
      (counter_or (_term_counts self) (counter_of_list (ids self))) self).

(** [self._term_counts += Counter(ids)] *)
Definition add_into_term_counts (ids : t → list Z) : M t unit :=
  modify (λ self,
    set_term_counts
      (counter_add (_term_counts self) (counter_of_list (ids self))) self).

Definition term_counts (lemmatize : lemmatize_arg) (ngram_range : Z * Z)
    (include_nes include_ncs include_kts : bool) : M t Counter :=
  for_each (range ngram_range.1 (ngram_range.2 + 1)) (λ n,
    if decide (n = 1) then
      or_into_term_counts (λ self,
        get_id self lemmatize ∘ TTok <$> words self no_kwargs)
    else
      or_into_term_counts (λ self,
        get_id self lemmatize ∘ TSpan <$> ngrams self n no_kwargs));;
  (if include_nes then
     or_into_term_counts (λ self,
       get_id self lemmatize ∘ TSpan <$> named_entities self no_kwargs)
   else mret tt);;
  (if include_ncs then
     or_into_term_counts (λ self,
       get_id self lemmatize ∘ TSpan <$> noun_chunks self no_kwargs)
   else mret tt);;
  (if include_kts then
     self ← get;
     kts ← lift (key_terms self "sgrank" (Int 10));
     or_into_term_counts (λ self,
       str_to_id (spacy_stringstore self) ∘ fst <$> kts)
   else mret tt);;
  self ← get;
  mret (_term_counts self).

(** [any(self.spacy_stringstore[t].count(' ') == term_len
         for t in self._term_counts)] *)
Definition any_with_spaces (self : t) (term_len : Z) : outcome bool :=
  any_of (λ t,
      match id_to_str (spacy_stringstore self) t with
      | Some s => Return (bool_decide (count_spaces s = term_len))
      | None => Raise IndexError
      end)
    (map_to_list (_term_counts self)).*1.

(** The last resort of [term_count]: a regular expression over the raw
    text. *)
Definition last_resort (term_text : string) : M t Z :=
  self ← get;
  mret (finditer_count term_text (text self)).

Definition term_count (term : term_arg) : M t Z :=
  self ← get;
  '(term_text, term_id, term_len) ←
    match term with
    | TermStr s =>
        mret (s, str_to_id (spacy_stringstore self) s, count_spaces s + 1)
    | TermToken tok =>
        let term_text := normalized_str (TTok tok) in
        mret (term_text, str_to_id (spacy_stringstore self) term_text, 1)
    | TermSpan sp =>
        let term_text := normalized_str (TSpan sp) in
        mret (term_text, str_to_id (spacy_stringstore self) term_text,
              Span.len sp)
    | TermOther => raise UnboundLocalError
    end;
  let term_count_ := counter_get (_term_counts self) term_id in
  if decide (term_count_ > 0) then mret term_count_
  else
    counted ← lift (any_with_spaces self term_len);
    if negb counted then
      (if decide (term_len = 1) then
         add_into_term_counts (λ self,
           get_id self LemAuto ∘ TTok <$> words self no_kwargs)
       else
         add_into_term_counts (λ self,
           get_id self LemAuto ∘ TSpan <$> ngrams self term_len no_kwargs));;
      self ← get;
      let term_count_ := counter_get (_term_counts self) term_id in
      if decide (term_count_ > 0) then mret term_count_
      else last_resort term_text
    else last_resort term_text.

(** *** Representations *)

(** [idf] is [None] or a dict from term ids to weights; an empty dict is as
    false as [None]. *)
Definition idf_given (idf : option (gmap Z number)) : option (gmap Z number) :=
  match idf with
  | Some m => if decide (m = ∅) then None else Some m
  | None => None
  end.

Definition as_bag_of_terms (weighting : string) (normalized binary : bool)
    (idf : option (gmap Z number)) (lemmatize : lemmatize_arg)
    (ngram_range : Z * Z) (include_nes include_ncs include_kts : bool)
    : M t (gmap Z number) :=
  term_weights ←
    term_counts lemmatize ngram_range include_nes include_ncs include_kts;
  term_weights ←
    (if binary then mret ((λ _, Int 1) <$> term_weights)
     else if normalized then
       self ← get;
       let n_tokens := n_tokens self in
       lift (dict_comp (λ key val, true_div val n_tokens) term_weights)
     else mret (Int <$> term_weights));
  match (if decide (weighting = "tfidf") then idf_given idf else None) with
  | Some idf =>
      lift (dict_comp (λ key val,
              match idf !! key with
              | Some w => number_mul val w
              | None => Raise KeyError
              end) term_weights)
  | None => mret term_weights
  end.

(** *** The doc as text *)

(** [__len__] *)
Definition __len__ (self : t) : Z := n_tokens self.

(** The local [snippet] of [__repr__]. *)
Definition repr_snippet (self : t) : string :=
  let snippet := replace_newlines (str_take 50 (text self)) in
  if decide (String.length snippet = 50%nat) then str_take 47 snippet +:+ "..."
  else snippet.

Definition __repr__ (self : t) : string :=
  "TextDoc(" +:+ pretty (Doc.len (spacy_doc self)) +:+ " tokens; "
  +:+ String "034" (repr_snippet self +:+ String "034" ")").

(** [tokenized_text] *)
Definition tokenized_text (self : t) : list (list string) :=
  (λ sent, Token.text <$> Doc.span_tokens (spacy_doc self) sent)
    <$> Doc.sents (spacy_doc self).

(** [n_paragraphs()], with the default [pattern=r'\n\n+']. *)
Definition n_paragraphs (self : t) : Z := newline_runs (text self) + 1.

End methods.
End TextDoc.

(** ** [class TextCorpus] *)
Module TextCorpus.

(** [docs] holds references to doc objects: the same doc object can be held
    by a caller and by a corpus. *)
Record t : Type := {
  lang : string;
  spacy_pipeline : Language.t;
  spacy_vocab : Vocab;
  spacy_stringstore : StringStore;
  docs : list nat;
  n_docs : Z;
  n_sents : Z;
  n_tokens : Z
}.

(** The object store: doc objects and corpus objects by address, and what
    was printed. An address is the position of the object in its list; a new
    object goes at the end. *)
Record store : Type := {
  doc_objs : list TextDoc.t;
  corpus_objs : list t;
  stdout : list string
}.

(** Reading the object behind a reference. A reference that the store does
    not hold does not occur in a Python run; the model ends such a read with
    [AttributeError]. *)
Definition read_doc (doc : nat) : M store TextDoc.t := λ s,
  match doc_objs s !! doc with
  | Some d => (Return d, s)
  | None => (Raise AttributeError, s)
  end.

Definition read_corpus (self : nat) : M store t := λ s,
  match corpus_objs s !! self with
  | Some c => (Return c, s)
  | None => (Raise AttributeError, s)
  end.

Definition write_doc (doc : nat) (d : TextDoc.t) : M store unit :=
  modify (λ s, {| doc_objs := <[doc := d]> (doc_objs s);
                  corpus_objs := corpus_objs s; stdout := stdout s |}).

Definition write_corpus (self : nat) (c : t) : M store unit :=
  modify (λ s, {| doc_objs := doc_objs s;
                  corpus_objs := <[self := c]> (corpus_objs s);
                  stdout := stdout s |}).

Definition new_doc (d : TextDoc.t) : M store nat := λ s,
  (Return (length (doc_objs s)),
   {| doc_objs := doc_objs s ++ [d]; corpus_objs := corpus_objs s;
      stdout := stdout s |}).

Definition new_corpus (c : t) : M store nat := λ s,
  (Return (length (corpus_objs s)),
   {| doc_objs := doc_objs s; corpus_objs := corpus_objs s ++ [c];
      stdout := stdout s |}).

Definition print (line : string) : M store unit :=
  modify (λ s, {| doc_objs := doc_objs s; corpus_objs := corpus_objs s;
                  stdout := stdout s ++ [line] |}).

(** [copy.deepcopy(doc)]: a new doc object with equal attribute values. The
    copies that [deepcopy] makes of what the doc refers to (its corpus, and
    through it the corpus's other docs) are reachable from the new doc's
    [corpus] attribute only, which [add_doc] overwrites at once; they are
    not kept in the store. *)
Definition deepcopy (doc : nat) : M store nat :=
  d ← read_doc doc;
  new_doc d.

Definition set_docs (ds : list nat) (c : t) : t :=
  {| lang := lang c; spacy_pipeline := spacy_pipeline c;
     spacy_vocab := spacy_vocab c; spacy_stringstore := spacy_stringstore c;
     docs := ds; n_docs := n_docs c; n_sents := n_sents c;
     n_tokens := n_tokens c |}.

Definition set_counters (nd ns nt : Z) (c : t) : t :=
  {| lang := lang c; spacy_pipeline := spacy_pipeline c;
     spacy_vocab := spacy_vocab c; spacy_stringstore := spacy_stringstore c;
     docs := docs c; n_docs := nd; n_sents := ns; n_tokens := nt |}.

Section methods.
Context `{Helpers}.

Definition __init__ (lang : string) : M store nat :=
  spacy_pipeline ← lift (load_spacy lang);
  new_corpus {| lang := lang; spacy_pipeline := spacy_pipeline;
                spacy_vocab := Language.vocab spacy_pipeline;
                spacy_stringstore := strings (Language.vocab spacy_pipeline);
                docs := []; n_docs := 0; n_sents := 0; n_tokens := 0 |}.

(** [self[start:]], through [__getitem__]: [self.docs[start:]] *)
Definition getitem_slice_from (self : nat) (start : Z) : M store (list nat) :=
  c ← read_corpus self;
  mret (slice_from (docs c) start).

(** The class defines [__len__], [__getitem__] and [__iter__]; it defines no
    [__delitem__]. *)
Definition __delitem__ : option (nat → Z → M store unit) := None.

(** [del self[index]] for an int [index]: Python calls the [__delitem__] of
    the class. For an object whose class has none but has [__getitem__], it
    first converts the index to an index-sized integer, which raises
    [IndexError] for an int that does not fit, and then raises [TypeError],
    since the object does not support item deletion. *)
Definition del_item (self : nat) (index : Z) : M store unit :=
  match __delitem__ with
  | Some delitem => delitem self index
  | None =>
      if decide (index_sized index) then raise TypeError
      else raise IndexError
  end.

(** The common tail of [add_text] and [add_doc]: from
    [doc.corpus_index = self.n_docs] to the end. *)
Definition append_doc (self doc : nat) : M store unit :=
  c ← read_corpus self;
  d ← read_doc doc;
  write_doc doc (TextDoc.set_corpus_index (n_docs c) d);;
  d ← read_doc doc;
  write_doc doc (TextDoc.set_corpus self d);;
  c ← read_corpus self;
  write_corpus self (set_docs (docs c ++ [doc]) c);;
  c ← read_corpus self;
  write_corpus self (set_counters (n_docs c + 1) (n_sents c) (n_tokens c) c);;
  c ← read_corpus self;
  d ← read_doc doc;
  write_corpus self
    (set_counters (n_docs c) (n_sents c + TextDoc.n_sents d) (n_tokens c) c);;
  c ← read_corpus self;
  d ← read_doc doc;
  write_corpus self
    (set_counters (n_docs c) (n_sents c) (n_tokens c + TextDoc.n_tokens d) c).

Definition add_text (self : nat) (text : string) (lang : option string)
    (metadata : option TextDoc.Metadata) : M store unit :=
  c ← read_corpus self;
  d ← lift (TextDoc.__init__ (TextDoc.ArgStr text) (Some (spacy_pipeline c))
              lang metadata);
  doc ← new_doc d;
  append_doc self doc.

Definition add_doc (self doc : nat) (print_warning : bool) : M store unit :=
  c ← read_corpus self;
  d ← read_doc doc;
  if decide (TextDoc.lang d ≠ lang c) then raise ValueError
  else
    doc ←
      match TextDoc.corpus_index d with
      | Some _ =>
          doc ← deepcopy doc;
          (if print_warning then
             print "**WARNING: TextDoc already associated with a TextCorpus; adding anyway..."
           else mret tt);;
          mret doc
      | None => mret doc
      end;
    append_doc self doc.

Definition from_texts (lang : string) (texts : list string)
    (metadata : option (list TextDoc.Metadata)) (n_threads batch_size : Z)
    : M store nat :=
  textcorpus ← __init__ lang;
  c ← read_corpus textcorpus;
  let spacy_docs := Language.pipe (spacy_pipeline c) texts in
  match metadata with
  | Some metadata =>
      for_each (zip spacy_docs metadata) (λ '(spacy_doc, md),
        c ← read_corpus textcorpus;
        d ← lift (TextDoc.__init__ (TextDoc.ArgSdoc spacy_doc)
                    (Some (spacy_pipeline c)) (Some lang) (Some md));
        doc ← new_doc d;
        add_doc textcorpus doc true)
  | None =>
      for_each spacy_docs (λ spacy_doc,
        c ← read_corpus textcorpus;
        d ← lift (TextDoc.__init__ (TextDoc.ArgSdoc spacy_doc)
                    (Some (spacy_pipeline c)) (Some lang) None);
        doc ← new_doc d;
        add_doc textcorpus doc true)
  end;;
  mret textcorpus.

(** [get_docs] is a generator. [get_docs self match_condition limit f] is
    the list comprehension [[f(doc) for doc in self.get_docs(match_condition,
    limit=limit)]]: [f] runs at each [yield], before the generator goes on.
    [match_condition doc] tells whether [match_condition(doc) is True], or
    raises. *)
Fixpoint get_docs_unlimited {B} (match_condition : TextDoc.t → outcome bool)
    (f : nat → M store B) (ds : list nat) : M store (list B) :=
  match ds with
  | [] => mret []
  | doc :: ds' =>
      d ← read_doc doc;
      matched ← lift (match_condition d);
      if matched : bool then
        y ← f doc;
        ys ← get_docs_unlimited match_condition f ds';
        mret (y :: ys)
      else get_docs_unlimited match_condition f ds'
  end.

Fixpoint get_docs_limited {B} (match_condition : TextDoc.t → outcome bool)
    (limit : Z) (f : nat → M store B) (n_matched_docs : Z) (ds : list nat)
    : M store (list B) :=
  match ds with
  | [] => mret []
  | doc :: ds' =>
      d ← read_doc doc;
      matched ← lift (match_condition d);
      if matched : bool then
        let n_matched_docs := n_matched_docs + 1 in
        if decide (n_matched_docs > limit) then mret []
        else
          y ← f doc;
          ys ← get_docs_limited match_condition limit f n_matched_docs ds';
          mret (y :: ys)
      else get_docs_limited match_condition limit f n_matched_docs ds'
  end.

Definition get_docs {B} (self : nat)
    (match_condition : TextDoc.t → outcome bool) (limit : option Z)
    (f : nat → M store B) : M store (list B) :=
  c ← read_corpus self;
  match limit with
  | None => get_docs_unlimited match_condition f (docs c)
  | Some limit => get_docs_limited match_condition limit f 0 (docs c)
  end.

(** [doc.corpus_index], which raises for a doc without the attribute. *)
Definition get_corpus_index (doc : nat) : M store Z :=
  d ← read_doc doc;
  match TextDoc.corpus_index d with
  | Some ci => mret ci
  | None => raise AttributeError
  end.

Definition remove_doc (self : nat) (index : Z) : M store unit :=
  later ← getitem_slice_from self (index + 1);
  for_each later (λ doc,
    ci ← get_corpus_index doc;
    d ← read_doc doc;
    write_doc doc (TextDoc.set_corpus_index (ci - 1) d));;
  del_item self index.

Definition remove_docs (self : nat)
    (match_condition : TextDoc.t → outcome bool) (limit : option Z)
    : M store unit :=
  remove_indexes ← get_docs self match_condition limit get_corpus_index;
  for_each remove_indexes (λ index, del_item self index);;
  c ← read_corpus self;
  for_each (imap (λ i doc, (Z.of_nat i, doc)) (docs c)) (λ '(i, doc),
    d ← read_doc doc;
    write_doc doc (TextDoc.set_corpus_index i d)).

(** [__len__], [__getitem__] on an int, [get_doc] *)
Definition __len__ (self : nat) : M store Z :=
  c ← read_corpus self;
  mret (n_docs c).

Definition __getitem__ (self : nat) (index : Z) : M store nat :=
  c ← read_corpus self;
  lift (list_getitem (docs c) index).

Definition get_doc (self : nat) (index : Z) : M store nat :=
  c ← read_corpus self;
  lift (list_getitem (docs c) index).

End methods.
End TextCorpus.

(** ** Fixtures

    A small instance of the helper interface, and documents to run the
    methods on. *)
Module Fixtures.

(** A string store that gives the empty string the id 0 and every other
    string a positive id of its own. *)
Definition string_store : StringStore :=
  {| str_to_id := λ s,
       if decide (s = EmptyString) then 0 else Z.pos (encode s);
     id_to_str := λ z,
       match z with
       | Z0 => Some EmptyString
       | Z.pos p => decode p
       | Z.neg _ => None
       end |}.

Definition the_vocab : Vocab := {| strings := string_store |}.

(** A pipeline that makes one token, and one sentence, of a whole text. *)
Definition one_token_doc (text : string) : Doc.t :=
  {| Doc.vocab := the_vocab;
     Doc.lexemes := [ {| orth := text; whitespace_ := ""; lemma := text |} ];
     Doc.sent_bounds := [(0, 1)];
     Doc.ent_bounds := [] |}.

Definition pipeline (lang : string) : Language.t :=
  {| Language.lang := lang; Language.vocab := the_vocab;
     Language.call := one_token_doc |}.

(** [doc[i:i+n]] for every [i] that leaves room for [n] tokens. *)
Definition all_ngrams (d : Doc.t) (n : Z) : list Span.t :=
  if decide (n < 1) then []
  else (λ i, Doc.span d i (i + n)) <$> range 0 (Doc.len d - n + 1).

(** Helpers that filter nothing: every token is a word, every run of [n]
    tokens an n-gram, every entity of the document a named entity; no noun
    chunks and no key terms; English is always detected. *)
Definition helpers : Helpers :=
  {| kwargs := unit;
     no_kwargs := tt;
     score := Z;
     graph := list string;
     detect_language := λ _, "en";
     load_spacy := λ lang, Return (pipeline lang);
     extract_words := λ d _, Doc.tokens d;
     extract_ngrams := λ d n _, all_ngrams d n;
     extract_named_entities := λ d _, Doc.ents d;
     extract_noun_chunks := λ _ _, [];
     normalized_str := term_text;
     sgrank := λ _ _ _, [];
     textrank := λ _ _, [];
     singlerank := λ _ _, [];
     terms_to_semantic_network := λ ws _ _, Token.text <$> ws;
     sents_to_semantic_network := λ ss _, Span.text <$> ss |}.

(** "Hello Obama": two tokens, the second one an entity. *)
Definition hello_obama : Doc.t :=
  {| Doc.vocab := the_vocab;
     Doc.lexemes :=
       [ {| orth := "Hello"; whitespace_ := " "; lemma := "hello" |};
         {| orth := "Obama"; whitespace_ := ""; lemma := "obama" |} ];
     Doc.sent_bounds := [(0, 2)];
     Doc.ent_bounds := [(1, 2)] |}.

(** [TextDoc(sdoc, spacy_pipeline=pipeline('en'))] *)
Definition doc_of (sdoc : Doc.t) : TextDoc.t :=
  {| TextDoc.metadata := ∅; TextDoc._term_counts := ∅;
     TextDoc.lang := "en"; TextDoc.spacy_vocab := Doc.vocab sdoc;
     TextDoc.spacy_stringstore := strings (Doc.vocab sdoc);
     TextDoc.spacy_doc := sdoc;
     TextDoc.corpus_index := None; TextDoc.corpus := None |}.

Definition empty_store : TextCorpus.store :=
  {| TextCorpus.doc_objs := []; TextCorpus.corpus_objs := [];
     TextCorpus.stdout := [] |}.

(** The store after [TextCorpus.from_texts('en', ['a', 'b'])] on an empty
    store: the corpus at address 0 holds the docs at addresses 0 and 1. *)
Definition two_doc_store : TextCorpus.store :=
  (@TextCorpus.from_texts helpers "en" ["a"; "b"] None 2 1000 empty_store).2.

(** [lambda doc: doc.corpus_index == 0] *)
Definition is_first (d : TextDoc.t) : outcome bool :=
  Return (bool_decide (TextDoc.corpus_index d = Some 0)).

(** "Hello Obama" after [term_counts(ngram_range=(2, 2))]: the memo holds the
    one bigram. *)
Definition bigram_doc : TextDoc.t :=
  (@TextDoc.term_counts helpers TextDoc.LemAuto (2, 2) false false false
     (doc_of hello_obama)).2.

(** "a ab": two tokens, one sentence, no entity. *)
Definition a_ab : Doc.t :=
  {| Doc.vocab := the_vocab;
     Doc.lexemes :=
       [ {| orth := "a"; whitespace_ := " "; lemma := "a" |};
         {| orth := "ab"; whitespace_ := ""; lemma := "ab" |} ];
     Doc.sent_bounds := [(0, 2)];
     Doc.ent_bounds := [] |}.

(** "a b a": three tokens, one sentence, no entity. *)
Definition a_b_a : Doc.t :=
  {| Doc.vocab := the_vocab;
     Doc.lexemes :=
       [ {| orth := "a"; whitespace_ := " "; lemma := "a" |};
         {| orth := "b"; whitespace_ := " "; lemma := "b" |};
         {| orth := "a"; whitespace_ := ""; lemma := "a" |} ];
     Doc.sent_bounds := [(0, 3)];
     Doc.ent_bounds := [] |}.

(** "a a a": three tokens, one sentence, no entity. *)
Definition a_a_a : Doc.t :=
  {| Doc.vocab := the_vocab;
     Doc.lexemes :=
       [ {| orth := "a"; whitespace_ := " "; lemma := "a" |};
         {| orth := "a"; whitespace_ := " "; lemma := "a" |};
         {| orth := "a"; whitespace_ := ""; lemma := "a" |} ];
     Doc.sent_bounds := [(0, 3)];
     Doc.ent_bounds := [] |}.

(** The floats 2/3 (0.6666666666666666), 1/3 (0.3333333333333333), 0.1 and
    0.30000000000000004. *)
Definition two_thirds : float := S754_finite false 6004799503160661 (-53).
Definition one_third : float := S754_finite false 6004799503160661 (-54).
Definition one_tenth : float := S754_finite false 7205759403792794 (-56).
Definition three_tenths_up : float :=
  S754_finite false 5404319552844596 (-54).

(** "a ab" after [term_counts(ngram_range=(2, 2))]: the memo holds the one
    bigram. *)
Definition a_ab_bigrams : TextDoc.t :=
  (@TextDoc.term_counts helpers TextDoc.LemAuto (2, 2) false false false
     (doc_of a_ab)).2.

(** "a b a" after [term_counts()]: the memo holds the counts of the words. *)
Definition a_b_a_words : TextDoc.t :=
  (@TextDoc.term_counts helpers TextDoc.LemAuto (1, 1) false false false
     (doc_of a_b_a)).2.

(** The store of two docs with one more doc object, "Hello Obama", that no
    corpus holds: it is at address 2. *)
Definition loose_doc_store : TextCorpus.store :=
  (TextCorpus.new_doc (doc_of hello_obama) two_doc_store).2.

(** An English corpus at address 0 with the doc at address 0, and a German
    corpus at address 1 with the doc at address 1. *)
Definition two_corpus_store : TextCorpus.store :=
  (@TextCorpus.from_texts helpers "de" ["b"] None 2 1000
     (@TextCorpus.from_texts helpers "en" ["a"] None 2 1000 empty_store).2).2.

(** [lambda doc: False] *)
Definition never (d : TextDoc.t) : bool := false.

(** [lambda doc: doc.corpus_index == 0], for a condition that does not
    raise. *)
Definition first_one (d : TextDoc.t) : bool :=
  bool_decide (TextDoc.corpus_index d = Some 0).

End Fixtures.

(** ** Notions used in the statements *)
Section notions.
Context `{Helpers}.

(** The Counters that one call of [term_counts] merges into
    [self._term_counts], in the order of the merges. *)
Definition term_counts_batches (lemmatize : TextDoc.lemmatize_arg)
    (ngram_range : Z * Z) (include_nes include_ncs include_kts : bool)
    (self : TextDoc.t) : list Counter :=
  ((λ n,
      if decide (n = 1) then
        counter_of_list
          (TextDoc.get_id self lemmatize ∘ TTok
             <$> TextDoc.words self no_kwargs)
      else
        counter_of_list
          (TextDoc.get_id self lemmatize ∘ TSpan
             <$> TextDoc.ngrams self n no_kwargs))
     <$> range ngram_range.1 (ngram_range.2 + 1))
  ++ (if include_nes then
        [counter_of_list
           (TextDoc.get_id self lemmatize ∘ TSpan
              <$> TextDoc.named_entities self no_kwargs)]
      else [])
  ++ (if include_ncs then
        [counter_of_list
           (TextDoc.get_id self lemmatize ∘ TSpan
              <$> TextDoc.noun_chunks self no_kwargs)]
      else [])
  ++ (if include_kts then
        [counter_of_list
           (str_to_id (TextDoc.spacy_stringstore self) ∘ fst
              <$> sgrank (TextDoc.spacy_doc self) 1500 (Int 10))]
      else []).

(** The language of the document handed to the constructor, as the caller
    knows it: the [lang] argument when one is given, the detected language of
    the text otherwise. *)
Definition document_language (text_or_sdoc : TextDoc.text_or_sdoc_arg)
    (lang : option string) : option string :=
  match text_or_sdoc with
  | TextDoc.ArgStr text =>
      Some (default (detect_language text) (TextDoc.lang_given lang))
  | TextDoc.ArgSdoc sdoc =>
      Some (default (detect_language (Doc.text_with_ws sdoc))
              (TextDoc.lang_given lang))
  | TextDoc.ArgOther => None
  end.

(** The constructor raises [ValueError] for every accepted input whose
    language differs from the language of the supplied pipeline. *)
Definition init_rejects_every_mismatch : Prop :=
  ∀ text_or_sdoc spacy_pipeline lang metadata doc_lang,
    document_language text_or_sdoc lang = Some doc_lang →
    doc_lang ≠ Language.lang spacy_pipeline →
    TextDoc.__init__ text_or_sdoc (Some spacy_pipeline) lang metadata
    = Raise ValueError.

(** A computation that leaves every corpus object as it found it, however
    it ends. *)
Definition keeps_corpora {A} (m : M TextCorpus.store A) : Prop :=
  ∀ s, TextCorpus.corpus_objs (m s).2 = TextCorpus.corpus_objs s.

(** The aggregates [(n_docs, n_sents, n_tokens)] of the corpus at an address. *)
Definition aggregates (s : TextCorpus.store) (corpus : nat)
    : option (Z * Z * Z) :=
  (λ c, (TextCorpus.n_docs c, TextCorpus.n_sents c, TextCorpus.n_tokens c))
    <$> TextCorpus.corpus_objs s !! corpus.

(** A doc as a corpus holds it: [corpus_index] is the corpus's [n_docs] at
    the time, [corpus] the address of the corpus. *)
Definition taken_in (self : nat) (c : TextCorpus.t) (d : TextDoc.t)
    : TextDoc.t :=
  TextDoc.set_corpus self (TextDoc.set_corpus_index (TextCorpus.n_docs c) d).

(** A corpus after it took in the doc object at address [doc]. *)
Definition grown_by (doc : nat) (d : TextDoc.t) (c : TextCorpus.t)
    : TextCorpus.t :=
  {| TextCorpus.lang := TextCorpus.lang c;
     TextCorpus.spacy_pipeline := TextCorpus.spacy_pipeline c;
     TextCorpus.spacy_vocab := TextCorpus.spacy_vocab c;
     TextCorpus.spacy_stringstore := TextCorpus.spacy_stringstore c;
     TextCorpus.docs := TextCorpus.docs c ++ [doc];
     TextCorpus.n_docs := TextCorpus.n_docs c + 1;
     TextCorpus.n_sents := TextCorpus.n_sents c + TextDoc.n_sents d;
     TextCorpus.n_tokens := TextCorpus.n_tokens c + TextDoc.n_tokens d |}.

(** Every doc of the corpus at [self] has its position in [docs] as its
    [corpus_index]. *)
Definition positional (s : TextCorpus.store) (self : nat) : Prop :=
  ∃ c, TextCorpus.corpus_objs s !! self = Some c
       ∧ ∀ i doc, TextCorpus.docs c !! i = Some doc →
           ∃ d, TextCorpus.doc_objs s !! doc = Some d
                ∧ TextDoc.corpus_index d = Some (Z.of_nat i).

(** The [corpus_index] of each doc of a list, [None] where there is none. *)
Definition indexes_of (s : TextCorpus.store) (ds : list nat)
    : list (option Z) :=
  (λ doc, TextCorpus.doc_objs s !! doc ≫= TextDoc.corpus_index) <$> ds.

(** The doc that the constructor makes of a parsed document, a pipeline and
    a metadata dict. *)
Definition made_of (p : Language.t) (md : TextDoc.Metadata) (sdoc : Doc.t)
    : TextDoc.t :=
  {| TextDoc.metadata := md; TextDoc._term_counts := ∅;
     TextDoc.lang := Language.lang p;
     TextDoc.spacy_vocab := Doc.vocab sdoc;
     TextDoc.spacy_stringstore := strings (Doc.vocab sdoc);
     TextDoc.spacy_doc := sdoc;
     TextDoc.corpus_index := None; TextDoc.corpus := None |}.

(** The body of the loop of [from_texts] over [zip(spacy_docs, metadata)]. *)
Definition from_texts_body (textcorpus : nat) (lang : string)
    (pair : Doc.t * TextDoc.Metadata) : M TextCorpus.store unit :=
  c ← TextCorpus.read_corpus textcorpus;
  d ← lift (TextDoc.__init__ (TextDoc.ArgSdoc pair.1)
              (Some (TextCorpus.spacy_pipeline c)) (Some lang) (Some pair.2));
  doc ← TextCorpus.new_doc d;
  TextCorpus.add_doc textcorpus doc true.

(** What a doc of the corpus at [corpus] was made of: its parsed document
    and its metadata. *)
Definition content_of (s : TextCorpus.store) (doc : nat)
    : option (Doc.t * TextDoc.Metadata) :=
  (λ d, (TextDoc.spacy_doc d, TextDoc.metadata d))
    <$> TextCorpus.doc_objs s !! doc.

(** The span of a term in its document, as [(start, end)] token indexes: a
    word is the span of its one token. *)
Definition term_span (x : term) : Z * Z :=
  match x with
  | TTok tok => (Token.i tok, Token.i tok + 1)
  | TSpan sp => (Span.start sp, Span.end_ sp)
  end.

(** What [as_terms_list] with [dedupe=True] and [named_entities=True] gives
    after the entities. *)
Definition after_entities (self : TextDoc.t) (words : bool)
    (ngrams : option (Z * Z)) (kw : kwargs) : list term :=
  drop (length (TextDoc.named_entities self kw))
    (TextDoc.all_terms self words ngrams true true kw).

(** No word or n-gram that follows the entities has the span of one of
    them. *)
Definition avoids_entity_spans (self : TextDoc.t) (words : bool)
    (ngrams : option (Z * Z)) (kw : kwargs) : Prop :=
  Forall
    (λ x, term_span x
          ∉ term_span ∘ TSpan <$> TextDoc.named_entities self kw)
    (after_entities self words ngrams kw).

(** A string store gives back the string it gave an id to. *)
Definition store_ok (ss : StringStore) : Prop :=
  ∀ s, id_to_str ss (str_to_id ss s) = Some s.

(** Every term id of the memo is an id that the doc's string store holds. *)
Definition counts_resolve (self : TextDoc.t) : Prop :=
  ∀ t, is_Some (TextDoc._term_counts self !! t) →
       is_Some (id_to_str (TextDoc.spacy_stringstore self) t).

(** The counts that [term_count] adds to the memo for a term of [term_len]
    words: those of the words, or of the [term_len]-grams. *)
Definition order_counts (self : TextDoc.t) (term_len : Z) : Counter :=
  if decide (term_len = 1) then
    counter_of_list
      (TextDoc.get_id self TextDoc.LemAuto ∘ TTok
         <$> TextDoc.words self no_kwargs)
  else
    counter_of_list
      (TextDoc.get_id self TextDoc.LemAuto ∘ TSpan
         <$> TextDoc.ngrams self term_len no_kwargs).

(** The doc after [term_count] added the counts of an order to the memo. *)
Definition extended_by (term_len : Z) (self : TextDoc.t) : TextDoc.t :=
  TextDoc.set_term_counts
    (counter_add (TextDoc._term_counts self) (order_counts self term_len))
    self.

(** C6 as stated: for a string term without a positive memoized count,
    [term_count] returns, the memo is extended by the counts of the term's
    order, and a term that is still unmatched gets the count of its literal
    matches in the text. *)
Definition term_count_always_extends : Prop :=
  ∀ (self : TextDoc.t) (s : string),
    counts_resolve self →
    let term_id := str_to_id (TextDoc.spacy_stringstore self) s in
    let term_len := count_spaces s + 1 in
    counter_get (TextDoc._term_counts self) term_id ≤ 0 →
    ∃ n,
      TextDoc.term_count (TextDoc.TermStr s) self
      = (Return n, extended_by term_len self)
      ∧ (counter_get (TextDoc._term_counts (extended_by term_len self))
           term_id ≤ 0 →
         n = finditer_count s (TextDoc.text self)).

End notions.

(** ** Notions used in the further properties *)
Section more_notions.
Context `{Helpers}.

(** The doc at an address meets a condition. *)
Definition meets (p : TextDoc.t → bool) (s : TextCorpus.store) (doc : nat)
    : Prop :=
  p <$> TextCorpus.doc_objs s !! doc = Some true.

Global Instance meets_dec p s doc : Decision (meets p s doc).
Proof. unfold meets. apply _. Defined.

(** [list(self.get_docs(match_condition, limit=limit))], for a condition
    that does not raise. *)
Definition list_get_docs (self : nat) (p : TextDoc.t → bool)
    (limit : option Z) : M TextCorpus.store (list nat) :=
  TextCorpus.get_docs self (λ d, Return (p d)) limit mret.

(** Every doc of a list is an object of the store. *)
Definition all_stored (s : TextCorpus.store) (ds : list nat) : Prop :=
  Forall (λ doc, is_Some (TextCorpus.doc_objs s !! doc)) ds.

(** The sum of a measure of the docs of a list. *)
Definition sum_over (s : TextCorpus.store) (f : TextDoc.t → Z)
    (ds : list nat) : Z :=
  foldr (λ doc acc, default 0 (f <$> TextCorpus.doc_objs s !! doc) + acc) 0 ds.

(** The aggregates of the corpus at [self] are those of its docs: [n_docs]
    their number, [n_sents] and [n_tokens] the sums of theirs. *)
Definition aggregates_match (s : TextCorpus.store) (self : nat) : Prop :=
  ∃ c, TextCorpus.corpus_objs s !! self = Some c
       ∧ all_stored s (TextCorpus.docs c)
       ∧ TextCorpus.n_docs c = Z.of_nat (length (TextCorpus.docs c))
       ∧ TextCorpus.n_sents c = sum_over s TextDoc.n_sents (TextCorpus.docs c)
       ∧ TextCorpus.n_tokens c
         = sum_over s TextDoc.n_tokens (TextCorpus.docs c).

(** A corpus in order: its docs numbered by position, its aggregates those
    of its docs. *)
Definition consistent (s : TextCorpus.store) (self : nat) : Prop :=
  positional s self ∧ aggregates_match s self.

(** The docs that [get_docs] selects. *)
Definition selected (p : TextDoc.t → bool) (limit : option Z)
    (s : TextCorpus.store) (ds : list nat) : list nat :=
  match limit with
  | None => filter (meets p s) ds
  | Some limit => take (Z.to_nat limit) (filter (meets p s) ds)
  end.

(** Every doc of a list has a [corpus_index]. *)
Definition all_indexed (s : TextCorpus.store) (ds : list nat) : Prop :=
  Forall (λ doc,
    is_Some (TextCorpus.doc_objs s !! doc ≫= TextDoc.corpus_index)) ds.

(** The parsed texts with their metadata, as [from_texts] pairs them: by
    [zip] with a metadata iterable, with an empty dict each without one. *)
Definition paired (p : Language.t) (texts : list string)
    (metadata : option (list TextDoc.Metadata))
    : list (Doc.t * TextDoc.Metadata) :=
  match metadata with
  | Some metadata => zip (Language.pipe p texts) metadata
  | None => (λ sdoc, (sdoc, ∅)) <$> Language.pipe p texts
  end.

(** The store holds everything that an earlier store held, unchanged, and
    printed nothing more. *)
Definition extends (s s' : TextCorpus.store) : Prop :=
  take (length (TextCorpus.doc_objs s)) (TextCorpus.doc_objs s')
  = TextCorpus.doc_objs s
  ∧ take (length (TextCorpus.corpus_objs s)) (TextCorpus.corpus_objs s')
    = TextCorpus.corpus_objs s
  ∧ TextCorpus.stdout s' = TextCorpus.stdout s.

(** The number of times [k] occurs in a list of ids. *)
Definition occurrences (k : Z) (l : list Z) : Z :=
  Z.of_nat (length (filter (λ x, x = k) l)).

(** The largest of a list of counts, none of them negative. *)
Definition maximum (l : list Z) : Z := foldr Z.max 0 l.

(** A Counter that holds positive counts only. *)
Definition positive_counts (c : Counter) : Prop := map_Forall (λ _ v, 0 < v) c.

(** The float nearest to the quotient of two ints, an infinity when the
    quotient is too large for a float. *)
Definition quotient (a b : Z) : float :=
  SFdiv 53 1024 (int_operand a) (int_operand b).

Definition is_infinity (f : float) : bool :=
  match f with
  | S754_infinity _ => true
  | _ => false
  end.

(** A string without a newline. *)
Fixpoint newline_free (s : string) : bool :=
  match s with
  | EmptyString => true
  | String c s' => bool_decide (c ≠ "010"%char) && newline_free s'
  end.

(** [k] newlines. *)
Fixpoint newlines (k : nat) : string :=
  match k with
  | O => EmptyString
  | S k' => String "010" (newlines k')
  end.

(** A text of paragraphs: a first paragraph, and further ones, each after a
    run of [2 + k] newlines. *)
Fixpoint join_paragraphs (first : string) (rest : list (nat * string))
    : string :=
  match rest with
  | [] => first
  | (k, paragraph) :: rest' =>
      first +:+ newlines (2 + k) +:+ join_paragraphs paragraph rest'
  end.

(** Sentence bounds that tile the tokens from [start] to [stop]: each
    sentence starts where the one before it ended. *)
Fixpoint tiles (bounds : list (Z * Z)) (start stop : Z) : Prop :=
  match bounds with
  | [] => start = stop
  | (a, b) :: bounds' => a = start ∧ start ≤ b ∧ tiles bounds' b stop
  end.

End more_notions.

(** * Properties *)

(** ** Running computations *)

Lemma run_bind {S A B} (m : M S A) (k : A → M S B) (s : S) :
  (m ≫= k) s =
  match m s with
  | (Return a, s') => k a s'
  | (Raise e, s') => (Raise e, s')
  end.
Proof. reflexivity. Qed.

Lemma run_bind_return {S A B} (m : M S A) (k : A → M S B) s a s' :
  m s = (Return a, s') → (m ≫= k) s = k a s'.
Proof. intros Hm. rewrite run_bind, Hm. reflexivity. Qed.

Lemma run_bind_raise {S A B} (m : M S A) (k : A → M S B) s e s' :
  m s = (Raise e, s') → (m ≫= k) s = (Raise e, s').
Proof. intros Hm. rewrite run_bind, Hm. reflexivity. Qed.

(** A loop whose body always returns is the fold of its state change. *)
Lemma for_each_total {S A} (l : list A) (body : A → M S unit)
    (step : A → S → S) :
  (∀ x s, body x s = (Return tt, step x s)) →
  ∀ s, for_each l body s = (Return tt, foldl (λ s x, step x s) s l).
Proof.
  intros Hbody. induction l as [|x l IH]; intros s; [reflexivity|].
  cbn [for_each foldl]. erewrite run_bind_return by apply Hbody. apply IH.
Qed.

(** ** [Counter] algebra *)

Lemma counter_or_lookup (a b : Counter) k :
  counter_or a b !! k = or_entry (a !! k) (b !! k).
Proof.
  unfold counter_or. rewrite lookup_merge.
  destruct (a !! k), (b !! k); reflexivity.
Qed.

Lemma counter_add_lookup (a b : Counter) k :
  counter_add a b !! k = add_entry (a !! k) (b !! k).
Proof.
  unfold counter_add. rewrite lookup_merge.
  destruct (a !! k), (b !! k); reflexivity.
Qed.

(** The merge takes the maximum per key, and drops what is not positive. *)
Lemma or_entry_max x y :
  default 0 (or_entry x y) = Z.max 0 (Z.max (default 0 x) (default 0 y)).
Proof.
  destruct x as [cx|], y as [cy|]; cbn; repeat case_decide; cbn; lia.
Qed.

Lemma counter_or_get (a b : Counter) k :
  counter_get (counter_or a b) k
  = Z.max 0 (Z.max (counter_get a k) (counter_get b k)).
Proof. unfold counter_get. rewrite counter_or_lookup. apply or_entry_max. Qed.

Lemma absorbs_entry c a k : absorbs c a → or_entry (c !! k) (a !! k) = c !! k.
Proof. intros Hc. rewrite <- counter_or_lookup. by rewrite Hc. Qed.

Lemma absorbs_after_or c a : absorbs (counter_or c a) a.
Proof.
  apply map_eq; intros k. rewrite !counter_or_lookup.
  destruct (c !! k) as [cx|], (a !! k) as [cy|]; cbn;
    repeat (case_decide; cbn); try reflexivity; try lia.
Qed.

Lemma absorbs_or_mono c a b : absorbs c a → absorbs (counter_or c b) a.
Proof.
  intros Hc. apply map_eq; intros k. rewrite !counter_or_lookup.
  pose proof (absorbs_entry c a k Hc) as Hk. revert Hk.
  destruct (c !! k) as [cx|], (a !! k) as [cy|], (b !! k) as [cz|]; cbn;
    repeat (case_decide; cbn); intros; simplify_eq; try reflexivity; try lia.
Qed.

Lemma absorbs_foldl_mono bs c a :
  absorbs c a → absorbs (foldl counter_or c bs) a.
Proof.
  revert c. induction bs as [|b bs IH]; intros c Hc; [exact Hc|].
  cbn. apply IH. by apply absorbs_or_mono.
Qed.

Lemma absorbs_foldl_elem bs c a :
  a ∈ bs → absorbs (foldl counter_or c bs) a.
Proof.
  revert c. induction bs as [|b bs IH]; intros c Ha.
  - by apply elem_of_nil in Ha.
  - cbn. apply elem_of_cons in Ha as [->|Ha].
    + apply absorbs_foldl_mono, absorbs_after_or.
    + by apply IH.
Qed.

Lemma foldl_or_absorbed bs c :
  (∀ a, a ∈ bs → absorbs c a) → foldl counter_or c bs = c.
Proof.
  induction bs as [|b bs IH]; intros Hall; [reflexivity|].
  cbn. rewrite (Hall b) by apply list_elem_of_here.
  apply IH. intros a Ha. apply Hall. by apply list_elem_of_further.
Qed.

(** Merging the same batches a second time changes nothing. *)
Lemma foldl_or_twice bs c :
  foldl counter_or (foldl counter_or c bs) bs = foldl counter_or c bs.
Proof. apply foldl_or_absorbed. intros a Ha. by apply absorbs_foldl_elem. Qed.

(** ** [TextDoc.term_counts] *)
Section term_counts.
Context `{Helpers}.

Lemma set_term_counts_id (self : TextDoc.t) :
  TextDoc.set_term_counts (TextDoc._term_counts self) self = self.
Proof. by destruct self. Qed.

Lemma set_term_counts_twice c c' (self : TextDoc.t) :
  TextDoc.set_term_counts c' (TextDoc.set_term_counts c self)
  = TextDoc.set_term_counts c' self.
Proof. reflexivity. Qed.

(** A run of merges whose batches do not read [_term_counts] leaves the
    fold of the merges in [_term_counts] and nothing else changed. *)
Lemma foldl_or_steps {A} (batch : A → TextDoc.t → Counter) (l : list A)
    self :
  (∀ x c s, batch x (TextDoc.set_term_counts c s) = batch x s) →
  foldl (λ s x,
      TextDoc.set_term_counts
        (counter_or (TextDoc._term_counts s) (batch x s)) s) self l
  = TextDoc.set_term_counts
      (foldl counter_or (TextDoc._term_counts self)
         ((λ x, batch x self) <$> l))
      self.
Proof.
  intros Hbatch. revert self. induction l as [|x l IH]; intros self.
  - cbn. by rewrite set_term_counts_id.
  - cbn [foldl fmap list_fmap]. rewrite IH, set_term_counts_twice.
    cbn [TextDoc._term_counts TextDoc.set_term_counts].
    do 2 f_equal. apply list_fmap_ext. intros _ y _. apply Hbatch.
Qed.

Lemma key_terms_sgrank (self : TextDoc.t) n :
  TextDoc.key_terms self "sgrank" n
  = Return (sgrank (TextDoc.spacy_doc self) 1500 n).
Proof. unfold TextDoc.key_terms. by rewrite decide_True. Qed.

(** What one call does: it returns the memo, which is the old memo with the
    call's batches merged in. *)
Lemma term_counts_run lemmatize ngram_range nes ncs kts (self : TextDoc.t) :
  let merged :=
    foldl counter_or (TextDoc._term_counts self)
      (term_counts_batches lemmatize ngram_range nes ncs kts self) in
  TextDoc.term_counts lemmatize ngram_range nes ncs kts self
  = (Return merged, TextDoc.set_term_counts merged self).
Proof.
  cbn zeta. unfold TextDoc.term_counts, term_counts_batches.
  erewrite run_bind_return; last first.
  { apply (for_each_total _ _ (λ n s,
      TextDoc.set_term_counts
        (counter_or (TextDoc._term_counts s)
           (if decide (n = 1) then
              counter_of_list
                (TextDoc.get_id s lemmatize ∘ TTok
                   <$> TextDoc.words s no_kwargs)
            else
              counter_of_list
                (TextDoc.get_id s lemmatize ∘ TSpan
                   <$> TextDoc.ngrams s n no_kwargs))) s)).
    intros n s. by destruct (decide (n = 1)). }
  rewrite foldl_or_steps by (intros x c s; reflexivity).
  rewrite !foldl_app.
  set (c1 := foldl counter_or _ (_ <$> _)).
  destruct nes, ncs, kts; cbn -[counter_or counter_of_list];
    rewrite ?key_terms_sgrank; reflexivity.
Qed.

Lemma term_counts_batches_frame lemmatize ngram_range nes ncs kts c self :
  term_counts_batches lemmatize ngram_range nes ncs kts
    (TextDoc.set_term_counts c self)
  = term_counts_batches lemmatize ngram_range nes ncs kts self.
Proof. reflexivity. Qed.

(** C3. Two calls of [term_counts] in succession with the same arguments
    return the same Counter, and the second call leaves the memoized
    [_term_counts] (the whole doc, in fact) as the first call left it. The
    merge of one batch takes the maximum per key, and merging any batch of
    the call once more changes no count. *)
Theorem term_counts_idempotent lemmatize ngram_range include_nes include_ncs
    include_kts (self : TextDoc.t) :
  ∃ counts self1,
    TextDoc.term_counts lemmatize ngram_range include_nes include_ncs
      include_kts self = (Return counts, self1)
    ∧ TextDoc.term_counts lemmatize ngram_range include_nes include_ncs
        include_kts self1 = (Return counts, self1)
    ∧ TextDoc._term_counts self1 = counts
    ∧ Forall (λ batch, counter_or counts batch = counts)
        (term_counts_batches lemmatize ngram_range include_nes include_ncs
           include_kts self)
    ∧ ∀ ids k (s : TextDoc.t),
        counter_get
          (TextDoc._term_counts (TextDoc.or_into_term_counts ids s).2) k
        = Z.max 0 (Z.max (counter_get (TextDoc._term_counts s) k)
                         (counter_get (counter_of_list (ids s)) k)).
Proof.
  eexists _, _. split; [apply term_counts_run|].
  split; [|split; [reflexivity|split]].
  - rewrite term_counts_run. cbn zeta.
    rewrite term_counts_batches_frame.
    cbn [TextDoc._term_counts TextDoc.set_term_counts].
    by rewrite foldl_or_twice, set_term_counts_twice.
  - apply Forall_forall. intros batch Hin. by apply absorbs_foldl_elem.
  - intros ids k s. cbn. apply counter_or_get.
Qed.

End term_counts.

(** ** [TextDoc.as_bag_of_terms] *)
Section as_bag_of_terms.
Context `{Helpers}.

(** C10. With [binary=True] and [idf=None] every weight that
    [as_bag_of_terms] returns is the int 1, whatever [normalized] and
    [weighting] are, over the keys of the memoized counts. With any [idf],
    the scaling by [idf] comes after the binary step, on the all-ones
    weights, and only for [weighting='tfidf'] with a non-empty [idf]. *)
Theorem as_bag_of_terms_binary weighting normalized lemmatize ngram_range
    include_nes include_ncs include_kts (self : TextDoc.t) :
  ∃ weights self1,
    TextDoc.as_bag_of_terms weighting normalized true None lemmatize
      ngram_range include_nes include_ncs include_kts self
    = (Return weights, self1)
    ∧ map_Forall (λ _ w, w = Int 1) weights
    ∧ dom weights = dom (TextDoc._term_counts self1)
    ∧ TextDoc.term_counts lemmatize ngram_range include_nes include_ncs
        include_kts self = (Return (TextDoc._term_counts self1), self1)
    ∧ ∀ idf,
        TextDoc.as_bag_of_terms weighting normalized true idf lemmatize
          ngram_range include_nes include_ncs include_kts self
        = match (if decide (weighting = "tfidf")
                 then TextDoc.idf_given idf else None) with
          | Some idf =>
              (dict_comp (λ key val,
                  match idf !! key with
                  | Some w => number_mul val w
                  | None => Raise KeyError
                  end) weights, self1)
          | None => (Return weights, self1)
          end.
Proof.
  pose proof (term_counts_run lemmatize ngram_range include_nes include_ncs
                include_kts self) as Hrun. cbn zeta in Hrun.
  set (merged := foldl counter_or _ _) in Hrun.
  exists ((λ _, Int 1) <$> merged), (TextDoc.set_term_counts merged self).
  assert (∀ idf,
    TextDoc.as_bag_of_terms weighting normalized true idf lemmatize
      ngram_range include_nes include_ncs include_kts self
    = match (if decide (weighting = "tfidf")
             then TextDoc.idf_given idf else None) with
      | Some idf =>
          (dict_comp (λ key val,
              match idf !! key with
              | Some w => number_mul val w
              | None => Raise KeyError
              end) ((λ _, Int 1) <$> merged),
           TextDoc.set_term_counts merged self)
      | None =>
          (Return ((λ _, Int 1) <$> merged),
           TextDoc.set_term_counts merged self)
      end) as Hidf.
  { intros idf. unfold TextDoc.as_bag_of_terms.
    erewrite run_bind_return by exact Hrun.
    erewrite run_bind_return by reflexivity.
    by destruct (if decide (weighting = "tfidf")
                 then TextDoc.idf_given idf else None). }
  split; [|split; [|split; [|split]]].
  - rewrite Hidf. by destruct (decide (weighting = "tfidf")).
  - intros k w. rewrite lookup_fmap. by destruct (merged !! k); intros [= <-].
  - by rewrite dom_fmap_L.
  - exact Hrun.
  - exact Hidf.
Qed.

End as_bag_of_terms.

(** ** [TextDoc.key_terms] and [TextDoc.as_semantic_network] *)
Section names.
Context `{Helpers}.

(** C7. [key_terms] raises [ValueError] exactly for an [algorithm] that is
    none of 'sgrank', 'textrank', 'singlerank', and [as_semantic_network]
    exactly for [nodes] that is neither 'terms' nor 'sents'; for each valid
    name the call returns what the helper of that name gives. *)
Theorem key_terms_and_network_names (self : TextDoc.t) algorithm n nodes
    edge_weighting window_width :
  (TextDoc.key_terms self algorithm n = Raise ValueError
   ↔ algorithm ∉ ["sgrank"; "textrank"; "singlerank"])
  ∧ (TextDoc.as_semantic_network self nodes edge_weighting window_width
     = Raise ValueError
     ↔ nodes ∉ ["terms"; "sents"])
  ∧ TextDoc.key_terms self "sgrank" n
    = Return (sgrank (TextDoc.spacy_doc self) 1500 n)
  ∧ TextDoc.key_terms self "textrank" n
    = Return (textrank (TextDoc.spacy_doc self) n)
  ∧ TextDoc.key_terms self "singlerank" n
    = Return (singlerank (TextDoc.spacy_doc self) n)
  ∧ TextDoc.as_semantic_network self "terms" edge_weighting window_width
    = Return (terms_to_semantic_network (TextDoc.words self no_kwargs)
                window_width
                (if decide (edge_weighting = "default") then "cooc_freq"
                 else edge_weighting))
  ∧ TextDoc.as_semantic_network self "sents" edge_weighting window_width
    = Return (sents_to_semantic_network (TextDoc.sents self)
                (if decide (edge_weighting = "default") then "cosine"
                 else edge_weighting)).
Proof.
  split; [|split; [|by repeat split]].
  - unfold TextDoc.key_terms. rewrite !not_elem_of_cons.
    repeat destruct (decide (algorithm = _)); split; intros Hx;
      try discriminate Hx; try tauto.
    repeat split; try assumption. apply not_elem_of_nil.
  - unfold TextDoc.as_semantic_network. rewrite !not_elem_of_cons.
    repeat destruct (decide (nodes = _)); split; intros Hx;
      try discriminate Hx; try tauto.
    repeat split; try assumption. apply not_elem_of_nil.
Qed.

End names.

(** ** [TextDoc.__init__] *)
Section init.
Context `{Helpers}.

(** C4, as the code has it. From a raw string, the constructor raises
    [ValueError] exactly when the supplied pipeline's language differs from
    the document's (the [lang] argument when given, the detected language
    otherwise). From a parsed spaCy doc and a supplied pipeline it makes no
    check and never raises: the doc takes the pipeline's language, whatever
    [lang] says. *)
Theorem init_language_check text sdoc spacy_pipeline lang metadata :
  (TextDoc.__init__ (TextDoc.ArgStr text) (Some spacy_pipeline) lang metadata
   = Raise ValueError
   ↔ document_language (TextDoc.ArgStr text) lang
     ≠ Some (Language.lang spacy_pipeline))
  ∧ ∃ doc,
      TextDoc.__init__ (TextDoc.ArgSdoc sdoc) (Some spacy_pipeline) lang
        metadata = Return doc
      ∧ TextDoc.lang doc = Language.lang spacy_pipeline
      ∧ TextDoc.spacy_doc doc = sdoc.
Proof.
  split.
  - unfold TextDoc.__init__, document_language.
    destruct (decide (Language.lang spacy_pipeline
                      ≠ default (detect_language text)
                          (TextDoc.lang_given lang))) as [Hne|Heq];
      cbn; split; intros Hx; try discriminate Hx.
    + intros [= E]. by apply Hne.
    + reflexivity.
    + exfalso. apply Heq. intros E. apply Hx. by rewrite E.
  - eexists. by repeat split.
Qed.

End init.

Section init_examples.
Local Existing Instance Fixtures.helpers.

(** C4 does not hold as stated: an English document, parsed, is accepted
    with a German pipeline, and becomes a German [TextDoc]. *)
Lemma init_accepts_mismatched_sdoc :
  let sdoc := Fixtures.one_token_doc "Good morning" in
  let made :=
    TextDoc.__init__ (TextDoc.ArgSdoc sdoc) (Some (Fixtures.pipeline "de"))
      (Some "en") None in
  document_language (TextDoc.ArgSdoc sdoc) (Some "en") = Some "en"
  ∧ detect_language (Doc.text_with_ws sdoc) = "en"
  ∧ Language.lang (Fixtures.pipeline "de") = "de"
  ∧ (∃ doc, made = Return doc ∧ TextDoc.lang doc = "de")
  ∧ ¬ init_rejects_every_mismatch.
Proof.
  cbv zeta. repeat split; [by eexists|].
  intros Hclaim.
  specialize (Hclaim (TextDoc.ArgSdoc (Fixtures.one_token_doc "Good morning"))
                (Fixtures.pipeline "de") (Some "en") None "en").
  discriminate Hclaim; [reflexivity|done].
Qed.

End init_examples.

(** ** [TextCorpus]: what the removals leave alone *)
Section corpus_frame.
Context `{Helpers}.

Lemma keeps_ret {A} (a : A) : keeps_corpora (mret a).
Proof. by intros s. Qed.

Lemma keeps_raise {A} e : keeps_corpora (raise e : M _ A).
Proof. by intros s. Qed.

Lemma keeps_lift {A} (o : outcome A) : keeps_corpora (lift o).
Proof. by intros s. Qed.

Lemma keeps_bind {A B} (m : M _ A) (k : A → M _ B) :
  keeps_corpora m → (∀ a, keeps_corpora (k a)) → keeps_corpora (m ≫= k).
Proof.
  intros Hm Hk s. rewrite run_bind. specialize (Hm s).
  destruct (m s) as [[a|e] s1]; cbn in *; [|done].
  by rewrite Hk.
Qed.

Lemma keeps_read_doc doc : keeps_corpora (TextCorpus.read_doc doc).
Proof.
  intros s. unfold TextCorpus.read_doc.
  by destruct (TextCorpus.doc_objs s !! doc).
Qed.

Lemma keeps_read_corpus self : keeps_corpora (TextCorpus.read_corpus self).
Proof.
  intros s. unfold TextCorpus.read_corpus.
  by destruct (TextCorpus.corpus_objs s !! self).
Qed.

Lemma keeps_write_doc doc d : keeps_corpora (TextCorpus.write_doc doc d).
Proof. by intros s. Qed.

Lemma keeps_for_each {A} (l : list A) body :
  (∀ x, keeps_corpora (body x)) → keeps_corpora (for_each l body).
Proof.
  intros Hbody. induction l as [|x l IH]; [apply keeps_ret|].
  cbn [for_each]. by apply keeps_bind.
Qed.

Lemma keeps_get_corpus_index doc :
  keeps_corpora (TextCorpus.get_corpus_index doc).
Proof.
  apply keeps_bind; [apply keeps_read_doc|]. intros d.
  destruct (TextDoc.corpus_index d); [apply keeps_ret|apply keeps_raise].
Qed.

Lemma keeps_del_item self index :
  keeps_corpora (TextCorpus.del_item self index).
Proof.
  unfold TextCorpus.del_item. cbn.
  destruct (decide (index_sized index)); apply keeps_raise.
Qed.

Lemma keeps_get_docs_unlimited {B} match_condition (f : nat → M _ B) ds :
  (∀ doc, keeps_corpora (f doc)) →
  keeps_corpora (TextCorpus.get_docs_unlimited match_condition f ds).
Proof.
  intros Hf. induction ds as [|doc ds IH]; [apply keeps_ret|].
  cbn [TextCorpus.get_docs_unlimited].
  apply keeps_bind; [apply keeps_read_doc|]. intros d.
  apply keeps_bind; [apply keeps_lift|]. intros [|]; [|exact IH].
  apply keeps_bind; [apply Hf|]. intros y.
  apply keeps_bind; [exact IH|]. intros ys. apply keeps_ret.
Qed.

Lemma keeps_get_docs_limited {B} match_condition limit (f : nat → M _ B) ds :
  (∀ doc, keeps_corpora (f doc)) →
  ∀ n, keeps_corpora
         (TextCorpus.get_docs_limited match_condition limit f n ds).
Proof.
  intros Hf. induction ds as [|doc ds IH]; intros n; [apply keeps_ret|].
  cbn [TextCorpus.get_docs_limited].
  apply keeps_bind; [apply keeps_read_doc|]. intros d.
  apply keeps_bind; [apply keeps_lift|]. intros [|]; [|apply IH].
  cbn zeta. case_decide; [apply keeps_ret|].
  apply keeps_bind; [apply Hf|]. intros y.
  apply keeps_bind; [apply IH|]. intros ys. apply keeps_ret.
Qed.

Lemma keeps_get_docs {B} self match_condition limit (f : nat → M _ B) :
  (∀ doc, keeps_corpora (f doc)) →
  keeps_corpora (TextCorpus.get_docs self match_condition limit f).
Proof.
  intros Hf. apply keeps_bind; [apply keeps_read_corpus|]. intros c.
  destruct limit;
    [by apply keeps_get_docs_limited|by apply keeps_get_docs_unlimited].
Qed.

Lemma keeps_remove_doc self index :
  keeps_corpora (TextCorpus.remove_doc self index).
Proof.
  apply keeps_bind.
  { apply keeps_bind; [apply keeps_read_corpus|]. intros c. apply keeps_ret. }
  intros later. apply keeps_bind; [|intros _; apply keeps_del_item].
  apply keeps_for_each. intros doc.
  apply keeps_bind; [apply keeps_get_corpus_index|]. intros ci.
  apply keeps_bind; [apply keeps_read_doc|]. intros d. apply keeps_write_doc.
Qed.

Lemma keeps_remove_docs self match_condition limit :
  keeps_corpora (TextCorpus.remove_docs self match_condition limit).
Proof.
  apply keeps_bind.
  { apply keeps_get_docs. apply keeps_get_corpus_index. }
  intros remove_indexes. apply keeps_bind.
  { apply keeps_for_each. intros index. apply keeps_del_item. }
  intros _. apply keeps_bind; [apply keeps_read_corpus|]. intros c.
  apply keeps_for_each. intros [i doc].
  apply keeps_bind; [apply keeps_read_doc|]. intros d. apply keeps_write_doc.
Qed.

(** C8. [remove_doc] and [remove_docs] leave [n_docs], [n_sents] and
    [n_tokens] of every corpus, the one they are called on included, as they
    were before the call, whether the call returns or raises. *)
Theorem remove_keeps_aggregates self index match_condition limit corpus
    (s : TextCorpus.store) :
  aggregates (TextCorpus.remove_doc self index s).2 corpus
  = aggregates s corpus
  ∧ aggregates (TextCorpus.remove_docs self match_condition limit s).2 corpus
    = aggregates s corpus.
Proof.
  unfold aggregates.
  by rewrite keeps_remove_doc, keeps_remove_docs.
Qed.

End corpus_frame.

(** ** [TextCorpus]: adding docs *)
Section corpus_add.
Context `{Helpers}.

Lemma read_corpus_run self c (s : TextCorpus.store) :
  TextCorpus.corpus_objs s !! self = Some c →
  TextCorpus.read_corpus self s = (Return c, s).
Proof. intros Hc. unfold TextCorpus.read_corpus. by rewrite Hc. Qed.

Lemma read_doc_run doc d (s : TextCorpus.store) :
  TextCorpus.doc_objs s !! doc = Some d →
  TextCorpus.read_doc doc s = (Return d, s).
Proof. intros Hd. unfold TextCorpus.read_doc. by rewrite Hd. Qed.

Lemma lookup_snoc {A} (l : list A) x : (l ++ [x]) !! length l = Some x.
Proof. by apply list_lookup_middle. Qed.

Lemma insert_snoc {A} (l : list A) x y :
  <[length l := y]> (l ++ [x]) = l ++ [y].
Proof. by rewrite insert_app_r_alt, Nat.sub_diag. Qed.

(** One step of a run: a read of an object that is there, or a write. *)
Ltac run_step :=
  first
    [ erewrite (run_bind_return (TextCorpus.read_corpus _))
        by (apply read_corpus_run; cbn;
            first [eassumption
                  | apply list_lookup_insert_eq; rewrite ?length_insert; lia])
    | erewrite (run_bind_return (TextCorpus.read_doc _))
        by (apply read_doc_run; cbn;
            first [eassumption
                  | apply list_lookup_insert_eq; rewrite ?length_insert; lia
                  | apply lookup_snoc])
    | erewrite (run_bind_return (TextCorpus.write_doc _ _)) by reflexivity
    | erewrite (run_bind_return (TextCorpus.write_corpus _ _)) by reflexivity ].

Lemma append_doc_run self doc c d (s : TextCorpus.store) :
  TextCorpus.corpus_objs s !! self = Some c →
  TextCorpus.doc_objs s !! doc = Some d →
  TextCorpus.append_doc self doc s
  = (Return tt,
     {| TextCorpus.doc_objs :=
          <[doc := taken_in self c d]> (TextCorpus.doc_objs s);
        TextCorpus.corpus_objs :=
          <[self := grown_by doc d c]> (TextCorpus.corpus_objs s);
        TextCorpus.stdout := TextCorpus.stdout s |}).
Proof.
  intros Hc Hd.
  pose proof (lookup_lt_Some _ _ _ Hc) as Hlc.
  pose proof (lookup_lt_Some _ _ _ Hd) as Hld.
  unfold TextCorpus.append_doc.
  do 14 run_step.
  unfold TextCorpus.write_corpus, modify. cbn.
  by rewrite !list_insert_insert_eq.
Qed.

(** [add_doc] on a doc that no corpus has taken in: the object itself goes
    into the corpus. *)
Lemma add_doc_run_unowned self doc print_warning c d (s : TextCorpus.store) :
  TextCorpus.corpus_objs s !! self = Some c →
  TextCorpus.doc_objs s !! doc = Some d →
  TextDoc.lang d = TextCorpus.lang c →
  TextDoc.corpus_index d = None →
  TextCorpus.add_doc self doc print_warning s
  = (Return tt,
     {| TextCorpus.doc_objs :=
          <[doc := taken_in self c d]> (TextCorpus.doc_objs s);
        TextCorpus.corpus_objs :=
          <[self := grown_by doc d c]> (TextCorpus.corpus_objs s);
        TextCorpus.stdout := TextCorpus.stdout s |}).
Proof.
  intros Hc Hd Hlang Hci. unfold TextCorpus.add_doc.
  do 2 run_step. rewrite decide_False by (intros Hne; by apply Hne).
  rewrite Hci. erewrite run_bind_return by reflexivity.
  by apply append_doc_run.
Qed.

(** [add_doc] on a doc that carries a [corpus_index]: a copy goes into the
    corpus, at a new address. *)
Lemma add_doc_run_owned self doc print_warning c d ci (s : TextCorpus.store) :
  TextCorpus.corpus_objs s !! self = Some c →
  TextCorpus.doc_objs s !! doc = Some d →
  TextDoc.lang d = TextCorpus.lang c →
  TextDoc.corpus_index d = Some ci →
  TextCorpus.add_doc self doc print_warning s
  = (Return tt,
     {| TextCorpus.doc_objs := TextCorpus.doc_objs s ++ [taken_in self c d];
        TextCorpus.corpus_objs :=
          <[self := grown_by (length (TextCorpus.doc_objs s)) d c]>
            (TextCorpus.corpus_objs s);
        TextCorpus.stdout :=
          TextCorpus.stdout s
          ++ (if print_warning
              then ["**WARNING: TextDoc already associated with a TextCorpus; adding anyway..."]
              else []) |}).
Proof.
  intros Hc Hd Hlang Hci. unfold TextCorpus.add_doc.
  do 2 run_step. rewrite decide_False by (intros Hne; by apply Hne).
  rewrite Hci.
  destruct print_warning.
  - erewrite (run_bind_return (_ ≫= _)); last first.
    { unfold TextCorpus.deepcopy.
      rewrite !run_bind, (read_doc_run _ _ _ Hd). reflexivity. }
    erewrite append_doc_run; [|cbn; eassumption|apply lookup_snoc].
    cbn. by rewrite insert_snoc.
  - erewrite (run_bind_return (_ ≫= _)); last first.
    { unfold TextCorpus.deepcopy.
      rewrite !run_bind, (read_doc_run _ _ _ Hd). reflexivity. }
    erewrite append_doc_run; [|cbn; eassumption|apply lookup_snoc].
    cbn. by rewrite insert_snoc, app_nil_r.
Qed.

(** C5. [add_doc] given a doc that carries a [corpus_index], of the language
    of the corpus, returns, and the corpus ends with one more doc, held at
    an address that was not in use before the call, so it is not the
    argument; the object behind the argument is what it was ([corpus_index]
    and [corpus] included), and the new object has the argument's attribute
    values apart from [corpus_index] and [corpus], which are the corpus's. *)
Theorem add_doc_copies_owned_doc self doc print_warning c d ci
    (s : TextCorpus.store) :
  TextCorpus.corpus_objs s !! self = Some c →
  TextCorpus.doc_objs s !! doc = Some d →
  TextDoc.corpus_index d = Some ci →
  TextDoc.lang d = TextCorpus.lang c →
  ∃ s' c' stored,
    TextCorpus.add_doc self doc print_warning s = (Return tt, s')
    ∧ TextCorpus.corpus_objs s' !! self = Some c'
    ∧ TextCorpus.docs c' = TextCorpus.docs c ++ [stored]
    ∧ stored ≠ doc
    ∧ TextCorpus.doc_objs s !! stored = None
    ∧ TextCorpus.doc_objs s' !! doc = Some d
    ∧ TextCorpus.doc_objs s' !! stored = Some (taken_in self c d)
    ∧ TextDoc.corpus_index (taken_in self c d) = Some (TextCorpus.n_docs c)
    ∧ TextDoc.corpus (taken_in self c d) = Some self
    ∧ TextDoc.metadata (taken_in self c d) = TextDoc.metadata d
    ∧ TextDoc._term_counts (taken_in self c d) = TextDoc._term_counts d
    ∧ TextDoc.lang (taken_in self c d) = TextDoc.lang d
    ∧ TextDoc.spacy_doc (taken_in self c d) = TextDoc.spacy_doc d.
Proof.
  intros Hc Hd Hci Hlang.
  pose proof (lookup_lt_Some _ _ _ Hc) as Hlc.
  pose proof (lookup_lt_Some _ _ _ Hd) as Hld.
  eexists _, _, (length (TextCorpus.doc_objs s)).
  split; [by eapply add_doc_run_owned|].
  cbn. split; [by apply list_lookup_insert_eq|].
  split; [reflexivity|]. split; [lia|].
  split; [by apply lookup_ge_None_2|].
  split; [by rewrite lookup_app_l|].
  split; [apply lookup_snoc|done].
Qed.

End corpus_add.

(** ** [TextCorpus]: the adds keep [corpus_index] at the position *)
Section corpus_add_positional.
Context `{Helpers}.

(** Taking in the doc object at [doc] keeps every doc's [corpus_index] at
    its position, when [n_docs] is the length of [docs] and [doc] is not a
    doc of the corpus yet. *)
Lemma append_keeps_positional self doc c d (s : TextCorpus.store) :
  TextCorpus.corpus_objs s !! self = Some c →
  TextCorpus.doc_objs s !! doc = Some d →
  TextCorpus.n_docs c = Z.of_nat (length (TextCorpus.docs c)) →
  doc ∉ TextCorpus.docs c →
  positional s self →
  positional
    {| TextCorpus.doc_objs :=
         <[doc := taken_in self c d]> (TextCorpus.doc_objs s);
       TextCorpus.corpus_objs :=
         <[self := grown_by doc d c]> (TextCorpus.corpus_objs s);
       TextCorpus.stdout := TextCorpus.stdout s |} self.
Proof.
  intros Hc Hd Hn Hnew (c' & Hc' & Hpos).
  rewrite Hc in Hc'. injection Hc' as <-.
  pose proof (lookup_lt_Some _ _ _ Hc) as Hlc.
  pose proof (lookup_lt_Some _ _ _ Hd) as Hld.
  exists (grown_by doc d c). cbn.
  split; [by apply list_lookup_insert_eq|].
  intros i doc' Hi.
  destruct (decide (i < length (TextCorpus.docs c))%nat) as [Hlt|Hge].
  - rewrite lookup_app_l in Hi by done.
    destruct (Hpos i doc' Hi) as (d' & Hd' & Hci).
    exists d'. split; [|exact Hci].
    rewrite list_lookup_insert_ne; [exact Hd'|].
    intros ->. apply Hnew. by eapply list_elem_of_lookup_2.
  - rewrite lookup_app_r in Hi by lia.
    destruct (i - length (TextCorpus.docs c))%nat as [|j] eqn:Hj;
      [|by destruct j].
    injection Hi as <-. exists (taken_in self c d).
    split; [by apply list_lookup_insert_eq|].
    cbn. f_equal. lia.
Qed.

(** [add_doc] keeps the docs of a corpus numbered by position, and [n_docs]
    equal to their number. *)
Lemma add_doc_keeps_positional self doc print_warning c d
    (s : TextCorpus.store) :
  TextCorpus.corpus_objs s !! self = Some c →
  TextCorpus.doc_objs s !! doc = Some d →
  TextDoc.lang d = TextCorpus.lang c →
  TextCorpus.n_docs c = Z.of_nat (length (TextCorpus.docs c)) →
  positional s self →
  ∃ s' c',
    TextCorpus.add_doc self doc print_warning s = (Return tt, s')
    ∧ TextCorpus.corpus_objs s' !! self = Some c'
    ∧ TextCorpus.n_docs c' = Z.of_nat (length (TextCorpus.docs c'))
    ∧ positional s' self.
Proof.
  intros Hc Hd Hlang Hn Hpos.
  pose proof (lookup_lt_Some _ _ _ Hc) as Hlc.
  pose proof (lookup_lt_Some _ _ _ Hd) as Hld.
  destruct (TextDoc.corpus_index d) as [ci|] eqn:Hci.
  - eexists _, _. split; [by eapply add_doc_run_owned|].
    cbn. split; [by apply list_lookup_insert_eq|].
    split; [unfold grown_by; cbn; rewrite length_app; cbn; lia|].
    rewrite <- (insert_snoc (TextCorpus.doc_objs s) d (taken_in self c d)).
    apply (append_keeps_positional self _ c d
             {| TextCorpus.doc_objs := TextCorpus.doc_objs s ++ [d];
                TextCorpus.corpus_objs := TextCorpus.corpus_objs s;
                TextCorpus.stdout := _ |});
      [exact Hc|apply lookup_snoc|exact Hn| |].
    + intros Hin. apply list_elem_of_lookup in Hin as [i Hi].
      destruct Hpos as (c' & Hc' & Hpos).
      rewrite Hc in Hc'. injection Hc' as <-.
      destruct (Hpos i _ Hi) as (d' & Hd' & _).
      apply lookup_lt_Some in Hd'. lia.
    + destruct Hpos as (c' & Hc' & Hpos). exists c'.
      split; [exact Hc'|]. intros i doc' Hi.
      destruct (Hpos i doc' Hi) as (d' & Hd' & Hci').
      exists d'. split; [|exact Hci']. cbn.
      rewrite lookup_app_l; [exact Hd'|by eapply lookup_lt_Some].
  - eexists _, _. split; [by eapply add_doc_run_unowned|].
    cbn. split; [by apply list_lookup_insert_eq|].
    split; [unfold grown_by; cbn; rewrite length_app; cbn; lia|].
    apply append_keeps_positional; try done.
    intros Hin. apply list_elem_of_lookup in Hin as [i Hi].
    destruct Hpos as (c' & Hc' & Hpos).
    rewrite Hc in Hc'. injection Hc' as <-.
    destruct (Hpos i _ Hi) as (d' & Hd' & Hci').
    rewrite Hd in Hd'. injection Hd' as <-. by rewrite Hci in Hci'.
Qed.

End corpus_add_positional.

(** ** [TextCorpus]: removing docs *)
Section corpus_remove.
Context `{Helpers}.

(** [remove_doc] never returns: what does not fail before ends in the
    [del self[index]] that the class does not support. *)
Lemma remove_doc_never_returns self index (s : TextCorpus.store) :
  ∃ e, (TextCorpus.remove_doc self index s).1 = Raise e.
Proof.
  unfold TextCorpus.remove_doc. rewrite run_bind.
  destruct (TextCorpus.getitem_slice_from _ _ _) as [[later|e] s1];
    [|by eexists].
  rewrite run_bind.
  destruct (for_each _ _ _) as [[[]|e] s2]; [|by eexists].
  unfold TextCorpus.del_item. cbn.
  destruct (decide (index_sized index)); by eexists.
Qed.

(** [remove_docs] returns only when no doc was to be removed. *)
Lemma remove_docs_returns_nothing_removed self match_condition limit
    (s s' : TextCorpus.store) :
  TextCorpus.remove_docs self match_condition limit s = (Return tt, s') →
  ∃ s1, TextCorpus.get_docs self match_condition limit
          TextCorpus.get_corpus_index s = (Return [], s1).
Proof.
  unfold TextCorpus.remove_docs. rewrite run_bind.
  destruct (TextCorpus.get_docs _ _ _ _ _) as [[[|index rest]|e] s1];
    [by eexists| |done].
  intros Hrun. exfalso. revert Hrun. rewrite run_bind.
  cbn [for_each]. rewrite run_bind.
  unfold TextCorpus.del_item. cbn.
  by destruct (decide (index_sized index)).
Qed.

(** [positional], as a comparison of two lists. *)
Lemma positional_iff (s : TextCorpus.store) self ds :
  TextCorpus.docs <$> TextCorpus.corpus_objs s !! self = Some ds →
  positional s self
  ↔ indexes_of s ds = (λ i, Some (Z.of_nat i)) <$> seq 0 (length ds).
Proof.
  intros Hds. unfold positional, indexes_of.
  destruct (TextCorpus.corpus_objs s !! self) as [c|] eqn:Hc; [|done].
  injection Hds as <-. split.
  - intros (c' & [= <-] & Hpos). apply list_eq. intros i.
    rewrite !list_lookup_fmap.
    destruct (TextCorpus.docs c !! i) as [doc|] eqn:Hdoc; cbn.
    + destruct (Hpos i doc Hdoc) as (d & Hd & Hci).
      rewrite Hd. cbn. rewrite Hci.
      rewrite lookup_seq_lt by (by eapply lookup_lt_Some). done.
    + rewrite lookup_seq_ge by (by apply lookup_ge_None). done.
  - intros Heq. exists c. split; [done|]. intros i doc Hdoc.
    apply (f_equal (λ l, l !! i)) in Heq. revert Heq.
    rewrite !list_lookup_fmap, Hdoc.
    rewrite lookup_seq_lt by (by eapply lookup_lt_Some). cbn.
    destruct (TextCorpus.doc_objs s !! doc) as [d|]; [|done].
    cbn. intros [= Heq]. by exists d.
Qed.

End corpus_remove.

Section corpus_remove_examples.
Local Existing Instance Fixtures.helpers.

(** C1 fails on the code. A corpus of two docs has each doc's
    [corpus_index] at its position. [remove_doc(0)] then raises [TypeError]
    with both docs still in [docs], and the second doc's [corpus_index]
    lowered to 0: the doc at position 1 carries index 0. An [add_text] after
    that returns, and leaves the docs at positions 0, 1, 2 with the indexes
    0, 0, 2. [remove_docs] with a condition that the first doc meets raises
    [TypeError] too and removes nothing. *)
Example remove_doc_on_two_docs :
  let s0 := Fixtures.two_doc_store in
  let after_remove_doc := TextCorpus.remove_doc 0 0 s0 in
  let after_add_text :=
    TextCorpus.add_text 0 "c" None None after_remove_doc.2 in
  let after_remove_docs :=
    TextCorpus.remove_docs 0 Fixtures.is_first None s0 in
  (TextCorpus.docs <$> TextCorpus.corpus_objs s0 !! 0%nat = Some [0; 1]%nat
   ∧ indexes_of s0 [0; 1]%nat = [Some 0; Some 1]
   ∧ positional s0 0)
  ∧ (after_remove_doc.1 = Raise TypeError
     ∧ TextCorpus.docs <$> TextCorpus.corpus_objs after_remove_doc.2 !! 0%nat
       = Some [0; 1]%nat
     ∧ indexes_of after_remove_doc.2 [0; 1]%nat = [Some 0; Some 0]
     ∧ ¬ positional after_remove_doc.2 0)
  ∧ (after_add_text.1 = Return tt
     ∧ TextCorpus.docs <$> TextCorpus.corpus_objs after_add_text.2 !! 0%nat
       = Some [0; 1; 2]%nat
     ∧ indexes_of after_add_text.2 [0; 1; 2]%nat = [Some 0; Some 0; Some 2]
     ∧ ¬ positional after_add_text.2 0)
  ∧ (after_remove_docs.1 = Raise TypeError
     ∧ TextCorpus.docs <$> TextCorpus.corpus_objs after_remove_docs.2 !! 0%nat
       = Some [0; 1]%nat).
Proof.
  cbv zeta.
  assert (TextCorpus.docs
            <$> TextCorpus.corpus_objs Fixtures.two_doc_store !! 0%nat
          = Some [0; 1]%nat) as Hdocs0 by (vm_compute; reflexivity).
  assert (TextCorpus.docs
            <$> TextCorpus.corpus_objs
                  (TextCorpus.remove_doc 0 0 Fixtures.two_doc_store).2
                !! 0%nat
          = Some [0; 1]%nat) as Hdocs1 by (vm_compute; reflexivity).
  assert (TextCorpus.docs
            <$> TextCorpus.corpus_objs
                  (TextCorpus.add_text 0 "c" None None
                     (TextCorpus.remove_doc 0 0 Fixtures.two_doc_store).2).2
                !! 0%nat
          = Some [0; 1; 2]%nat) as Hdocs2 by (vm_compute; reflexivity).
  repeat split; try (vm_compute; reflexivity).
  - apply (positional_iff _ _ _ Hdocs0). vm_compute. reflexivity.
  - intros Hpos. apply (positional_iff _ _ _ Hdocs1) in Hpos.
    vm_compute in Hpos. discriminate Hpos.
  - intros Hpos. apply (positional_iff _ _ _ Hdocs2) in Hpos.
    vm_compute in Hpos. discriminate Hpos.
Qed.

End corpus_remove_examples.
Section corpus_add_examples.
Local Existing Instance Fixtures.helpers.

(** A run of C5: the first doc of a corpus of two is given back to it. The
    copy goes to address 2, and the doc at address 0 stays as it was. *)
Lemma add_doc_copies_owned_doc_witness :
  ∃ c d s' c' stored,
    TextCorpus.corpus_objs Fixtures.two_doc_store !! 0%nat = Some c
    ∧ TextCorpus.doc_objs Fixtures.two_doc_store !! 0%nat = Some d
    ∧ TextDoc.corpus_index d = Some 0
    ∧ TextDoc.lang d = TextCorpus.lang c
    ∧ TextCorpus.add_doc 0 0 true Fixtures.two_doc_store = (Return tt, s')
    ∧ TextCorpus.corpus_objs s' !! 0%nat = Some c'
    ∧ TextCorpus.docs c' = TextCorpus.docs c ++ [stored]
    ∧ stored ≠ 0%nat
    ∧ TextCorpus.doc_objs s' !! 0%nat = Some d.
Proof.
  assert (∃ c, TextCorpus.corpus_objs Fixtures.two_doc_store !! 0%nat = Some c
               ∧ TextCorpus.lang c = "en") as (c & Hc & Hlc)
    by (eexists; split; vm_compute; reflexivity).
  assert (∃ d, TextCorpus.doc_objs Fixtures.two_doc_store !! 0%nat = Some d
               ∧ TextDoc.corpus_index d = Some 0
               ∧ TextDoc.lang d = "en") as (d & Hd & Hci & Hld)
    by (eexists; repeat split; vm_compute; reflexivity).
  assert (TextDoc.lang d = TextCorpus.lang c) as Hlang by congruence.
  destruct (add_doc_copies_owned_doc 0 0 true c d 0 Fixtures.two_doc_store
              Hc Hd Hci Hlang)
    as (s' & c' & stored & Hrun & Hc' & Hdocs & Hne & _ & Hkept & _).
  exists c, d, s', c', stored. repeat split; assumption.
Defined.

End corpus_add_examples.

(** ** [TextCorpus.from_texts] *)
Section from_texts.
Context `{Helpers}.

Lemma from_texts_body_run textcorpus lang sdoc md c (s : TextCorpus.store) :
  TextCorpus.corpus_objs s !! textcorpus = Some c →
  Language.lang (TextCorpus.spacy_pipeline c) = TextCorpus.lang c →
  from_texts_body textcorpus lang (sdoc, md) s
  = (Return tt,
     {| TextCorpus.doc_objs :=
          TextCorpus.doc_objs s
          ++ [taken_in textcorpus c
                (made_of (TextCorpus.spacy_pipeline c) md sdoc)];
        TextCorpus.corpus_objs :=
          <[textcorpus :=
              grown_by (length (TextCorpus.doc_objs s))
                (made_of (TextCorpus.spacy_pipeline c) md sdoc) c]>
            (TextCorpus.corpus_objs s);
        TextCorpus.stdout := TextCorpus.stdout s |}).
Proof.
  intros Hc Hlang. unfold from_texts_body.
  erewrite run_bind_return by (by apply read_corpus_run).
  erewrite run_bind_return by reflexivity.
  erewrite run_bind_return by reflexivity.
  erewrite add_doc_run_unowned;
    [|cbn; eassumption|apply lookup_snoc|exact Hlang|reflexivity].
  cbn. by rewrite insert_snoc.
Qed.

Lemma for_each_ext {S A} (l : list A) (body body' : A → M S unit) :
  (∀ x, body x = body' x) → for_each l body = for_each l body'.
Proof.
  intros Hext. induction l as [|x l IH]; [reflexivity|].
  cbn [for_each]. by rewrite Hext, IH.
Qed.

(** The loop of [from_texts], on a corpus whose pipeline has the language of
    the corpus: every pair becomes a doc at the end of the corpus. *)
Lemma from_texts_loop textcorpus lang l :
  ∀ (s : TextCorpus.store) c,
    TextCorpus.corpus_objs s !! textcorpus = Some c →
    Language.lang (TextCorpus.spacy_pipeline c) = TextCorpus.lang c →
    ∃ s' c',
      for_each l (from_texts_body textcorpus lang) s = (Return tt, s')
      ∧ TextCorpus.corpus_objs s' !! textcorpus = Some c'
      ∧ TextCorpus.n_docs c' = TextCorpus.n_docs c + Z.of_nat (length l)
      ∧ TextCorpus.docs c'
        = TextCorpus.docs c
          ++ seq (length (TextCorpus.doc_objs s)) (length l)
      ∧ TextCorpus.doc_objs s'
        = TextCorpus.doc_objs s
          ++ imap (λ i pair,
               TextDoc.set_corpus textcorpus
                 (TextDoc.set_corpus_index (TextCorpus.n_docs c + Z.of_nat i)
                    (made_of (TextCorpus.spacy_pipeline c) pair.2 pair.1))) l.
Proof.
  induction l as [|[sdoc md] l IH]; intros s c Hc Hlang.
  - exists s, c. cbn. rewrite Z.add_0_r, !app_nil_r. by repeat split.
  - pose proof (lookup_lt_Some _ _ _ Hc) as Hlt.
    cbn [for_each].
    pose proof (from_texts_body_run textcorpus lang sdoc md c s Hc Hlang)
      as Hbody.
    set (d := made_of (TextCorpus.spacy_pipeline c) md sdoc) in Hbody.
    set (c1 := grown_by (length (TextCorpus.doc_objs s)) d c) in Hbody.
    set (s1 := {| TextCorpus.doc_objs := _ |}) in Hbody.
    rewrite (run_bind_return _ _ _ _ _ Hbody).
    destruct (IH s1 c1) as (s' & c' & Hrun & Hc' & Hn & Hdocs & Hobjs);
      [by apply list_lookup_insert_eq|exact Hlang|].
    exists s', c'. split; [exact Hrun|]. split; [exact Hc'|].
    subst s1 c1 d.
    cbn in Hn, Hdocs, Hobjs. rewrite length_app in Hdocs. cbn in Hdocs.
    split; [cbn [length]; lia|]. split.
    + rewrite Hdocs, <- app_assoc. cbn. by rewrite Nat.add_1_r.
    + rewrite Hobjs, <- app_assoc. f_equal. cbn [app]. rewrite imap_cons.
      cbn. rewrite Z.add_0_r. f_equal. apply imap_ext. intros i x _. cbn.
      do 2 f_equal. lia.
Qed.

(** The first doc of a pipeline whose language is not the corpus's is
    refused by [add_doc]. *)
Lemma from_texts_body_mismatch textcorpus lang sdoc md c
    (s : TextCorpus.store) :
  TextCorpus.corpus_objs s !! textcorpus = Some c →
  Language.lang (TextCorpus.spacy_pipeline c) ≠ TextCorpus.lang c →
  (from_texts_body textcorpus lang (sdoc, md) s).1 = Raise ValueError.
Proof.
  intros Hc Hlang. unfold from_texts_body.
  erewrite run_bind_return by (by apply read_corpus_run).
  erewrite run_bind_return by reflexivity.
  erewrite run_bind_return by reflexivity.
  unfold TextCorpus.add_doc.
  erewrite run_bind_return by (apply read_corpus_run; cbn; eassumption).
  erewrite run_bind_return by (apply read_doc_run; apply lookup_snoc).
  cbn [TextDoc.__init__ TextDoc.lang]. by rewrite decide_True.
Qed.

(** The corpus object that [TextCorpus(lang)] makes around a pipeline. *)
Lemma from_texts_unfold lang texts metadata n_threads batch_size p
    (s : TextCorpus.store) :
  load_spacy lang = Return p →
  let textcorpus := length (TextCorpus.corpus_objs s) in
  let c0 :=
    {| TextCorpus.lang := lang; TextCorpus.spacy_pipeline := p;
       TextCorpus.spacy_vocab := Language.vocab p;
       TextCorpus.spacy_stringstore := strings (Language.vocab p);
       TextCorpus.docs := []; TextCorpus.n_docs := 0;
       TextCorpus.n_sents := 0; TextCorpus.n_tokens := 0 |} in
  let s0 :=
    {| TextCorpus.doc_objs := TextCorpus.doc_objs s;
       TextCorpus.corpus_objs := TextCorpus.corpus_objs s ++ [c0];
       TextCorpus.stdout := TextCorpus.stdout s |} in
  TextCorpus.from_texts lang texts (Some metadata) n_threads batch_size s
  = (for_each (zip (Language.pipe p texts) metadata)
       (from_texts_body textcorpus lang);;
     mret textcorpus) s0.
Proof.
  intros Hload. cbv zeta. unfold TextCorpus.from_texts.
  erewrite run_bind_return; last first.
  { unfold TextCorpus.__init__. rewrite Hload. reflexivity. }
  erewrite run_bind_return by (apply read_corpus_run; apply lookup_snoc).
  cbn [TextCorpus.spacy_pipeline].
  erewrite for_each_ext; [reflexivity|]. by intros [sdoc md].
Qed.

Lemma content_of_loop (s s' : TextCorpus.store) l textcorpus n0 p :
  TextCorpus.doc_objs s'
  = TextCorpus.doc_objs s
    ++ imap (λ i pair,
         TextDoc.set_corpus textcorpus
           (TextDoc.set_corpus_index (n0 + Z.of_nat i)
              (made_of p pair.2 pair.1))) l →
  content_of s' <$> seq (length (TextCorpus.doc_objs s)) (length l)
  = Some <$> l.
Proof.
  intros Hobjs. apply list_eq. intros i. rewrite !list_lookup_fmap.
  destruct (decide (i < length l)%nat) as [Hi|Hi].
  - rewrite lookup_seq_lt by done. cbn. unfold content_of.
    rewrite Hobjs, lookup_app_r by lia.
    replace (length (TextCorpus.doc_objs s) + i
             - length (TextCorpus.doc_objs s))%nat with i by lia.
    rewrite list_lookup_imap.
    destruct (lookup_lt_is_Some_2 l i Hi) as [[sdoc md] ->]. reflexivity.
  - rewrite lookup_seq_ge, lookup_ge_None_2 by lia. done.
Qed.

(** C9. With a metadata iterable, [from_texts] pairs texts and metadata by
    position and stops at the shorter of the two. A call that returns gives
    a corpus of exactly [min(len(texts), len(metadata))] docs, [n_docs] the
    same number, and the docs are, in order, the parsed texts with their
    metadata, what is left of the longer iterable being dropped. The call
    returns whenever [load_spacy] gives a pipeline of the language asked
    for. *)
Theorem from_texts_pairs_by_zip lang texts metadata n_threads batch_size
    (s : TextCorpus.store) :
  (∀ textcorpus s',
     TextCorpus.from_texts lang texts (Some metadata) n_threads batch_size s
     = (Return textcorpus, s') →
     ∃ c p,
       TextCorpus.corpus_objs s' !! textcorpus = Some c
       ∧ load_spacy lang = Return p
       ∧ length (TextCorpus.docs c) = Nat.min (length texts) (length metadata)
       ∧ TextCorpus.n_docs c
         = Z.of_nat (Nat.min (length texts) (length metadata))
       ∧ content_of s' <$> TextCorpus.docs c
         = Some <$> zip (Language.pipe p texts) metadata)
  ∧ (∀ p, load_spacy lang = Return p → Language.lang p = lang →
       ∃ textcorpus s',
         TextCorpus.from_texts lang texts (Some metadata) n_threads
           batch_size s = (Return textcorpus, s')).
Proof.
  split.
  - intros textcorpus s' Hrun.
    destruct (load_spacy lang) as [p|e] eqn:Hload; last first.
    { exfalso. revert Hrun. unfold TextCorpus.from_texts, TextCorpus.__init__.
      rewrite !run_bind, Hload. by cbn. }
    rewrite (from_texts_unfold _ _ _ _ _ _ _ Hload) in Hrun.
    cbv zeta in Hrun. revert Hrun.
    set (c0 := {| TextCorpus.lang := lang |}).
    set (s0 := {| TextCorpus.doc_objs := TextCorpus.doc_objs s |}).
    set (l := zip (Language.pipe p texts) metadata).
    assert (length l = Nat.min (length texts) (length metadata)) as Hlen.
    { subst l. unfold Language.pipe. by rewrite length_zip, length_fmap. }
    assert (TextCorpus.corpus_objs s0 !! length (TextCorpus.corpus_objs s)
            = Some c0) as Hc0 by apply lookup_snoc.
    destruct (decide (Language.lang p = lang)) as [Hl|Hl].
    + destruct (from_texts_loop (length (TextCorpus.corpus_objs s)) lang l
                  s0 c0 Hc0 Hl)
        as (s1 & c1 & Hloop & Hc1 & Hn & Hdocs & Hobjs).
      rewrite (run_bind_return _ _ _ _ _ Hloop). intros [= <- <-].
      exists c1, p. split; [exact Hc1|]. split; [reflexivity|].
      cbn in Hn, Hdocs. rewrite Hdocs, length_seq, Hn, <- Hlen.
      split; [reflexivity|]. split; [lia|].
      by eapply content_of_loop.
    + destruct l as [|[sdoc md] l'] eqn:El.
      * cbn. intros [= <- <-]. exists c0, p. rewrite <- Hlen.
        split; [exact Hc0|]. do 3 (split; [reflexivity|]).
        fold l. by rewrite El.
      * cbn [for_each]. rewrite !run_bind.
        pose proof (from_texts_body_mismatch _ lang sdoc md c0 s0 Hc0 Hl)
          as Hbad.
        destruct (from_texts_body _ _ _ _) as [[[]|e] s1]; by cbn in *.
  - intros p Hload Hl.
    rewrite (from_texts_unfold _ _ _ _ _ _ _ Hload). cbv zeta.
    set (c0 := {| TextCorpus.lang := lang |}).
    set (s0 := {| TextCorpus.doc_objs := TextCorpus.doc_objs s |}).
    destruct (from_texts_loop (length (TextCorpus.corpus_objs s)) lang
                (zip (Language.pipe p texts) metadata) s0 c0)
      as (s1 & c1 & Hloop & _); [apply lookup_snoc|exact Hl|].
    rewrite (run_bind_return _ _ _ _ _ Hloop). by eexists _, _.
Qed.

End from_texts.

Section from_texts_examples.
Local Existing Instance Fixtures.helpers.

(** A run of C9: three texts and two metadata dicts make a corpus of two
    docs. *)
Lemma from_texts_pairs_by_zip_witness :
  ∃ textcorpus s' c,
    TextCorpus.from_texts "en" ["a"; "b"; "c"] (Some [∅; ∅]) 2 1000
      Fixtures.empty_store = (Return textcorpus, s')
    ∧ TextCorpus.corpus_objs s' !! textcorpus = Some c
    ∧ length (TextCorpus.docs c) = 2%nat
    ∧ TextCorpus.n_docs c = 2.
Proof.
  destruct (from_texts_pairs_by_zip "en" ["a"; "b"; "c"] [∅; ∅] 2 1000
              Fixtures.empty_store) as [Hreturned Hreturns].
  destruct (Hreturns (Fixtures.pipeline "en") eq_refl eq_refl)
    as (textcorpus & s' & Hrun).
  destruct (Hreturned textcorpus s' Hrun) as (c & p & Hc & _ & Hlen & Hn & _).
  exists textcorpus, s', c.
  split; [exact Hrun|]. split; [exact Hc|]. split; [exact Hlen|exact Hn].
Defined.

End from_texts_examples.

(** ** [TextDoc.as_terms_list] *)
Section as_terms_list.
Context `{Helpers}.

(** The n-gram path filters on the span of the n-gram: without words, no
    term after the entities has the span of an entity. *)
Lemma ngrams_avoid_entity_spans (self : TextDoc.t) ngrams kw :
  avoids_entity_spans self false (Some ngrams) kw.
Proof.
  unfold avoids_entity_spans, after_entities, TextDoc.all_terms. cbn.
  rewrite <- (length_fmap TSpan (TextDoc.named_entities self kw)).
  rewrite drop_app_length. apply Forall_forall. intros x Hx.
  apply list_elem_of_bind in Hx as (n & Hx & _).
  apply list_elem_of_fmap in Hx as (sp & -> & Hsp).
  apply list_elem_of_filter in Hsp as [Hkey _].
  exact Hkey.
Qed.

End as_terms_list.

Section as_terms_list_examples.
Local Existing Instance Fixtures.helpers.

(** C2 fails on the code. In "Hello Obama" the second token is an entity,
    of span (1, 2). With the default arguments the entity comes first, and
    the word "Obama" comes after it all the same: the word filter looks
    [(word.idx, word.idx + 1)] up among the entity spans, and [idx] is the
    character offset 6 of the token, not its index 1. *)
Example as_terms_list_repeats_entity_word :
  let doc := Fixtures.doc_of Fixtures.hello_obama in
  let obama_word :=
    {| Token.i := 1; Token.idx := 6; Token.text := "Obama";
       Token.lemma_ := "obama" |} in
  TextDoc.named_entities doc tt
  = [ {| Span.start := 1; Span.end_ := 2; Span.text := "Obama";
         Span.lemma_ := "obama" |} ]
  ∧ TextDoc.words doc tt !! 1%nat = Some obama_word
  ∧ after_entities doc true (Some (2, 3)) tt !! 1%nat = Some (TTok obama_word)
  ∧ term_span (TTok obama_word) = (1, 2)
  ∧ TextDoc.word_key obama_word = (6, 7)
  ∧ TextDoc.as_terms_list doc true (Some (2, 3)) true true true tt
    = ["obama"; "hello"; "obama"; "hello obama"]
  ∧ ¬ avoids_entity_spans doc true (Some (2, 3)) tt.
Proof.
  cbv zeta. repeat split; try (vm_compute; reflexivity).
  intros Havoids. unfold avoids_entity_spans in Havoids.
  rewrite Forall_lookup in Havoids.
  apply (Havoids 1%nat (TTok {| Token.i := 1; Token.idx := 6;
                              Token.text := "Obama";
                              Token.lemma_ := "obama" |}));
    [vm_compute; reflexivity|].
  vm_compute. apply list_elem_of_here.
Qed.

End as_terms_list_examples.

(** ** [TextDoc.term_count] *)
Section term_count.
Context `{Helpers}.

Lemma any_of_returns {A} (f : A → outcome bool) (l : list A) :
  Forall (λ x, ∃ b, f x = Return b) l → ∃ b, any_of f l = Return b.
Proof.
  induction 1 as [|x l [b Hb] _ IH]; [by eexists|].
  cbn. rewrite Hb. cbn. destruct b; [by eexists|exact IH].
Qed.

(** Under [counts_resolve] the guard of [term_count] does not raise. *)
Lemma any_with_spaces_returns (self : TextDoc.t) term_len :
  counts_resolve self →
  ∃ counted, TextDoc.any_with_spaces self term_len = Return counted.
Proof.
  intros Hres. apply any_of_returns, Forall_forall. intros t Ht.
  apply list_elem_of_fmap in Ht as ([t' n] & -> & Ht).
  apply elem_of_map_to_list in Ht. cbn.
  destruct (Hres t') as [str ->]; [by eexists|]. by eexists.
Qed.

(** What [term_count] of a string does, by the result of its guard, on a
    doc whose memoized term ids all resolve in its string store: it does not
    raise; it returns the memoized count when positive; otherwise, when the
    guard is true, the memo is left alone and the result is the number of
    literal matches in the raw text, and when it is false, the counts of
    the order (words for one word, n-grams otherwise) are added to the memo,
    and the result is the term's count there when positive, the number of
    literal matches otherwise. *)
Lemma term_count_str_cases (self : TextDoc.t) (s : string) :
  counts_resolve self →
  let term_id := str_to_id (TextDoc.spacy_stringstore self) s in
  let term_len := count_spaces s + 1 in
  let extended := extended_by term_len self in
  ∃ counted n self',
    TextDoc.any_with_spaces self term_len = Return counted
    ∧ TextDoc.term_count (TextDoc.TermStr s) self = (Return n, self')
    ∧ (n, self')
      = if decide (counter_get (TextDoc._term_counts self) term_id > 0) then
          (counter_get (TextDoc._term_counts self) term_id, self)
        else if counted then (finditer_count s (TextDoc.text self), self)
        else if decide (counter_get (TextDoc._term_counts extended) term_id
                        > 0) then
          (counter_get (TextDoc._term_counts extended) term_id, extended)
        else (finditer_count s (TextDoc.text self), extended).
Proof.
  intros Hres. cbv zeta.
  destruct (any_with_spaces_returns self (count_spaces s + 1) Hres)
    as [counted Hcounted].
  exists counted. unfold TextDoc.term_count.
  erewrite run_bind_return by reflexivity.
  erewrite run_bind_return by reflexivity.
  cbv beta iota zeta.
  destruct (decide (counter_get _ _ > 0)) as [Hpos|Hpos];
    [by eexists _, _|].
  erewrite run_bind_return by (unfold lift; by rewrite Hcounted).
  destruct counted; cbn [negb]; [by eexists _, _|].
  erewrite (run_bind_return _ _ _ tt (extended_by (count_spaces s + 1) self));
    last first.
  { unfold extended_by, order_counts.
    by destruct (decide (count_spaces s + 1 = 1)). }
  erewrite run_bind_return by reflexivity.
  destruct (decide (counter_get _ _ > 0)); by eexists _, _.
Qed.

(** *** The memo holds ids of the store only *)

Lemma foldl_counter_incr_keys (l : list Z) (c : Counter) k :
  is_Some (foldl counter_incr c l !! k) → is_Some (c !! k) ∨ k ∈ l.
Proof.
  revert c. induction l as [|x l IH]; intros c Hk; [by left|].
  cbn in Hk. destruct (IH _ Hk) as [Hc|Hl].
  - unfold counter_incr in Hc. destruct (decide (x = k)) as [->|Hne].
    + right. apply list_elem_of_here.
    + left. by rewrite lookup_insert_ne in Hc.
  - right. by apply list_elem_of_further.
Qed.

Lemma counter_of_list_keys (l : list Z) k :
  is_Some (counter_of_list l !! k) → k ∈ l.
Proof.
  intros Hk. destruct (foldl_counter_incr_keys l ∅ k Hk) as [He|Hl];
    [|exact Hl].
  rewrite lookup_empty in He. by destruct He.
Qed.

Lemma counter_or_keys (a b : Counter) k :
  is_Some (counter_or a b !! k) → is_Some (a !! k) ∨ is_Some (b !! k).
Proof.
  rewrite counter_or_lookup.
  destruct (a !! k), (b !! k); cbn; (by left) || (by right).
Qed.

Lemma counter_add_keys (a b : Counter) k :
  is_Some (counter_add a b !! k) → is_Some (a !! k) ∨ is_Some (b !! k).
Proof.
  rewrite counter_add_lookup.
  destruct (a !! k), (b !! k); cbn; (by left) || (by right).
Qed.

(** The ids of strings are ids that a store holds, given [store_ok]. *)
Lemma ids_resolve {A} ss (g : A → Z) (l : list A) k :
  store_ok ss →
  (∀ x, ∃ str, g x = str_to_id ss str) →
  is_Some (counter_of_list (g <$> l) !! k) →
  is_Some (id_to_str ss k).
Proof.
  intros Hok Hg Hk. apply counter_of_list_keys in Hk.
  apply list_elem_of_fmap in Hk as (x & -> & _).
  destruct (Hg x) as [str ->]. by rewrite Hok.
Qed.

(** Closes a goal that an id counted from strings resolves. *)
Ltac resolve_ids Hok :=
  let Hk := fresh "Hk" in
  intros Hk; eapply ids_resolve in Hk;
    [exact Hk|exact Hok|intros ?; cbn; by eexists].

Lemma order_counts_resolve (self : TextDoc.t) term_len k :
  store_ok (TextDoc.spacy_stringstore self) →
  is_Some (order_counts self term_len !! k) →
  is_Some (id_to_str (TextDoc.spacy_stringstore self) k).
Proof.
  intros Hok. unfold order_counts, TextDoc.get_id.
  destruct (decide (term_len = 1)); resolve_ids Hok.
Qed.

Lemma batches_resolve lemmatize ngram_range nes ncs kts (self : TextDoc.t) :
  store_ok (TextDoc.spacy_stringstore self) →
  Forall (λ batch : Counter, ∀ k,
      is_Some (batch !! k) →
      is_Some (id_to_str (TextDoc.spacy_stringstore self) k))
    (term_counts_batches lemmatize ngram_range nes ncs kts self).
Proof.
  intros Hok. unfold term_counts_batches, TextDoc.get_id.
  repeat apply Forall_app_2.
  - apply Forall_fmap, Forall_forall. intros n _ k. cbn.
    destruct (decide (n = 1)); resolve_ids Hok.
  - destruct nes; [|constructor]. apply Forall_singleton. intros k.
    resolve_ids Hok.
  - destruct ncs; [|constructor]. apply Forall_singleton. intros k.
    resolve_ids Hok.
  - destruct kts; [|constructor]. apply Forall_singleton. intros k.
    resolve_ids Hok.
Qed.

Lemma foldl_or_resolve ss (bs : list Counter) (c : Counter) :
  (∀ k, is_Some (c !! k) → is_Some (id_to_str ss k)) →
  Forall (λ batch : Counter, ∀ k,
      is_Some (batch !! k) → is_Some (id_to_str ss k)) bs →
  ∀ k, is_Some (foldl counter_or c bs !! k) → is_Some (id_to_str ss k).
Proof.
  intros Hc Hbs. revert c Hc.
  induction Hbs as [|b bs Hb _ IH]; intros c Hc; [exact Hc|].
  cbn. apply IH. intros k Hk.
  apply counter_or_keys in Hk as [Hk|Hk]; [by apply Hc|by apply Hb].
Qed.

(** A new doc resolves, and [term_counts] keeps it so. *)
Lemma init_counts_resolve text_or_sdoc spacy_pipeline lang metadata doc :
  TextDoc.__init__ text_or_sdoc spacy_pipeline lang metadata = Return doc →
  counts_resolve doc.
Proof.
  intros Hinit t. assert (TextDoc._term_counts doc = ∅) as ->.
  { unfold TextDoc.__init__ in Hinit.
    destruct text_or_sdoc; [|by injection Hinit as <-|done].
    destruct (match spacy_pipeline with Some _ => _ | None => _ end);
      [by injection Hinit as <-|done]. }
  rewrite lookup_empty. by intros [].
Qed.

Lemma term_counts_resolve lemmatize ngram_range nes ncs kts
    (self : TextDoc.t) :
  store_ok (TextDoc.spacy_stringstore self) →
  counts_resolve self →
  counts_resolve (TextDoc.term_counts lemmatize ngram_range nes ncs kts self).2.
Proof.
  intros Hok Hres. rewrite term_counts_run. unfold counts_resolve.
  cbn [snd TextDoc._term_counts TextDoc.spacy_stringstore
       TextDoc.set_term_counts].
  apply foldl_or_resolve; [exact Hres|by apply batches_resolve].
Qed.

Lemma extended_resolve term_len (self : TextDoc.t) :
  store_ok (TextDoc.spacy_stringstore self) →
  counts_resolve self → counts_resolve (extended_by term_len self).
Proof.
  intros Hok Hres k Hk. unfold extended_by in *.
  cbn [TextDoc._term_counts TextDoc.spacy_stringstore
       TextDoc.set_term_counts] in *.
  apply counter_add_keys in Hk as [Hk|Hk];
    [by apply Hres|by eapply order_counts_resolve].
Qed.

(** [term_count] of a string leaves the doc as it was, or with the counts of
    the term's order added to the memo. *)
Lemma term_count_str_state (self : TextDoc.t) s :
  (TextDoc.term_count (TextDoc.TermStr s) self).2 = self
  ∨ (TextDoc.term_count (TextDoc.TermStr s) self).2
    = extended_by (count_spaces s + 1) self.
Proof.
  unfold TextDoc.term_count.
  erewrite run_bind_return by reflexivity.
  erewrite run_bind_return by reflexivity.
  cbv beta iota zeta.
  destruct (decide (counter_get _ _ > 0)) as [Hpos|Hpos]; [by left|].
  destruct (TextDoc.any_with_spaces self (count_spaces s + 1))
    as [counted|e] eqn:Hcounted.
  - erewrite run_bind_return by reflexivity.
    destruct counted; cbn [negb]; [by left|]. right.
    erewrite
      (run_bind_return _ _ _ tt (extended_by (count_spaces s + 1) self));
      last first.
    { unfold extended_by, order_counts.
      by destruct (decide (count_spaces s + 1 = 1)). }
    erewrite run_bind_return by reflexivity.
    by destruct (decide (counter_get _ _ > 0)).
  - left. by erewrite run_bind_raise.
Qed.

(** [term_count] of a string keeps the memo resolving too. *)
Lemma term_count_resolve (self : TextDoc.t) s :
  store_ok (TextDoc.spacy_stringstore self) →
  counts_resolve self →
  counts_resolve (TextDoc.term_count (TextDoc.TermStr s) self).2.
Proof.
  intros Hok Hres.
  destruct (term_count_str_state self s) as [-> | ->];
    [exact Hres|by apply extended_resolve].
Qed.

End term_count.

Section term_count_examples.
Local Existing Instance Fixtures.helpers.

Lemma string_store_ok : store_ok Fixtures.string_store.
Proof.
  intros s. cbn. destruct (decide (s = EmptyString)) as [->|Hne]; [done|].
  apply decode_encode.
Qed.

Lemma bigram_doc_resolves : counts_resolve Fixtures.bigram_doc.
Proof.
  apply term_counts_resolve; [exact string_store_ok|].
  intros t [n Hn]. cbn in Hn. by rewrite lookup_empty in Hn.
Qed.

(** C6 fails on the code. The guard of [term_count] (lines 509-510) asks
    whether a memoized term has [term_len] spaces, that is [term_len + 1]
    words, where its comment (line 508) asks whether the [term_len]-grams
    were counted. On "a ab" with only the bigram counted, [term_count('a')]
    finds no count for the word, its guard is true, the memo is not extended
    and the result is 2, the matches of "a" in the text; on the new doc the
    same call counts the words and returns 1. On "a b a" with the words
    counted, [term_count('c')] finds the guard false and adds the word
    counts a second time: the memo goes from a: 2, b: 1 to a: 4, b: 2, and
    [term_count('a')] then returns 4. The claim, formalised, is false. *)
Example term_count_guard_off_by_one :
  let id := str_to_id Fixtures.string_store in
  let count term doc := TextDoc.term_count (TextDoc.TermStr term) doc in
  let memo (doc : TextDoc.t) := map_to_list (TextDoc._term_counts doc) in
  let new := Fixtures.doc_of Fixtures.a_ab in
  let bigrams := Fixtures.a_ab_bigrams in
  let words := Fixtures.a_b_a_words in
  (memo new = []
   ∧ (count "a" new).1 = Return 1
   ∧ memo (count "a" new).2 = [(id "ab", 1); (id "a", 1)])
  ∧ (memo bigrams = [(id "a ab", 1)]
     ∧ TextDoc.any_with_spaces bigrams 1 = Return true
     ∧ (count "a" bigrams).1 = Return 2
     ∧ memo (count "a" bigrams).2 = [(id "a ab", 1)])
  ∧ (memo words = [(id "a", 2); (id "b", 1)]
     ∧ TextDoc.any_with_spaces words 1 = Return false
     ∧ (count "c" words).1 = Return 0
     ∧ memo (count "c" words).2 = [(id "a", 4); (id "b", 2)]
     ∧ (count "a" (count "c" words).2).1 = Return 4)
  ∧ ¬ term_count_always_extends.
Proof.
  cbv zeta. repeat split; try (vm_compute; reflexivity).
  intros Hclaim.
  destruct (Hclaim Fixtures.bigram_doc "Hello" bigram_doc_resolves)
    as (n & Hrun & _).
  { vm_compute. discriminate. }
  apply (f_equal (λ r,
           counter_get (TextDoc._term_counts r.2)
             (str_to_id (TextDoc.spacy_stringstore Fixtures.bigram_doc)
                "Hello"))) in Hrun.
  vm_compute in Hrun. discriminate Hrun.
Qed.

End term_count_examples.

(** * Further properties *)

(** ** [TextCorpus.get_docs] *)
Section get_docs.
Context `{Helpers}.

Lemma get_docs_unlimited_run {B} p (f : nat → M TextCorpus.store B)
    (g : nat → B) (s : TextCorpus.store) ds :
  all_stored s ds →
  Forall (λ doc, f doc s = (Return (g doc), s)) (filter (meets p s) ds) →
  TextCorpus.get_docs_unlimited (λ d, Return (p d)) f ds s
  = (Return (g <$> filter (meets p s) ds), s).
Proof.
  induction 1 as [|doc ds [d Hd] _ IH]; intros Hf; [reflexivity|].
  cbn [TextCorpus.get_docs_unlimited].
  erewrite run_bind_return by (by apply read_doc_run).
  erewrite run_bind_return by reflexivity.
  destruct (p d) eqn:Hp.
  - rewrite filter_cons_True in Hf |- *
      by (unfold meets; by rewrite Hd; cbn; rewrite Hp).
    apply Forall_cons in Hf as [Hdoc Hf].
    erewrite run_bind_return by exact Hdoc.
    erewrite run_bind_return by (by apply IH).
    reflexivity.
  - rewrite filter_cons_False in Hf |- *
      by (unfold meets; by rewrite Hd; cbn; rewrite Hp).
    by apply IH.
Qed.

Lemma get_docs_limited_run {B} p limit (f : nat → M TextCorpus.store B)
    (g : nat → B) (s : TextCorpus.store) ds :
  all_stored s ds →
  ∀ n,
    Forall (λ doc, f doc s = (Return (g doc), s))
      (take (Z.to_nat (limit - n)) (filter (meets p s) ds)) →
    TextCorpus.get_docs_limited (λ d, Return (p d)) limit f n ds s
    = (Return (g <$> take (Z.to_nat (limit - n)) (filter (meets p s) ds)),
       s).
Proof.
  induction 1 as [|doc ds [d Hd] _ IH]; intros n Hf.
  { cbn. by rewrite take_nil. }
  cbn [TextCorpus.get_docs_limited].
  erewrite run_bind_return by (by apply read_doc_run).
  erewrite run_bind_return by reflexivity.
  destruct (p d) eqn:Hp.
  - rewrite filter_cons_True in Hf |- *
      by (unfold meets; by rewrite Hd; cbn; rewrite Hp).
    cbn zeta. destruct (decide (n + 1 > limit)) as [Hstop|Hgo].
    + replace (Z.to_nat (limit - n)) with 0%nat by lia. reflexivity.
    + replace (Z.to_nat (limit - n)) with (S (Z.to_nat (limit - (n + 1))))
        in Hf |- * by lia.
      cbn [take] in Hf. apply Forall_cons in Hf as [Hdoc Hf].
      erewrite run_bind_return by exact Hdoc.
      erewrite run_bind_return by (by apply IH).
      reflexivity.
  - rewrite filter_cons_False in Hf |- *
      by (unfold meets; by rewrite Hd; cbn; rewrite Hp).
    by apply IH.
Qed.

(** [get_docs] with a body that reads only: the body's results for the docs
    selected. *)
Lemma get_docs_run {B} self c p limit (f : nat → M TextCorpus.store B)
    (g : nat → B) (s : TextCorpus.store) :
  TextCorpus.corpus_objs s !! self = Some c →
  all_stored s (TextCorpus.docs c) →
  Forall (λ doc, f doc s = (Return (g doc), s))
    (selected p limit s (TextCorpus.docs c)) →
  TextCorpus.get_docs self (λ d, Return (p d)) limit f s
  = (Return (g <$> selected p limit s (TextCorpus.docs c)), s).
Proof.
  intros Hc Hdocs Hf. unfold TextCorpus.get_docs.
  erewrite run_bind_return by (by apply read_corpus_run).
  destruct limit as [limit|]; unfold selected in *.
  - pose proof (get_docs_limited_run p limit f g s (TextCorpus.docs c)
                  Hdocs 0) as Hrun.
    rewrite Z.sub_0_r in Hrun. by apply Hrun.
  - by apply get_docs_unlimited_run.
Qed.

(** X1. [get_docs] yields the docs that meet the condition, in the order of
    the corpus: all of them without a limit, the first [limit] of them with
    one, none for a limit of zero or less. It changes nothing. *)
Theorem get_docs_yields_matches self c p limit (s : TextCorpus.store) :
  TextCorpus.corpus_objs s !! self = Some c →
  all_stored s (TextCorpus.docs c) →
  list_get_docs self p limit s
  = (Return (selected p limit s (TextCorpus.docs c)), s).
Proof.
  intros Hc Hdocs. unfold list_get_docs.
  rewrite (get_docs_run self c p limit mret id);
    [by rewrite list_fmap_id|done..|].
  apply Forall_true. by intros doc.
Qed.

End get_docs.

(** ** [TextCorpus.add_doc] and [TextCorpus.add_text] *)
Section corpus_add_more.
Context `{Helpers}.

(** X2. [add_doc] given a doc that carries no [corpus_index] stores the
    object it was given, not a copy: the corpus ends with the argument's
    address, no object is created, nothing is printed, and the argument now
    has the corpus's old [n_docs] as its [corpus_index] and the corpus as
    its [corpus]. *)
Theorem add_doc_stores_unowned_doc self doc print_warning c d
    (s : TextCorpus.store) :
  TextCorpus.corpus_objs s !! self = Some c →
  TextCorpus.doc_objs s !! doc = Some d →
  TextDoc.corpus_index d = None →
  TextDoc.lang d = TextCorpus.lang c →
  ∃ s' c' d',
    TextCorpus.add_doc self doc print_warning s = (Return tt, s')
    ∧ TextCorpus.corpus_objs s' !! self = Some c'
    ∧ TextCorpus.docs c' = TextCorpus.docs c ++ [doc]
    ∧ length (TextCorpus.doc_objs s') = length (TextCorpus.doc_objs s)
    ∧ TextCorpus.stdout s' = TextCorpus.stdout s
    ∧ TextCorpus.doc_objs s' !! doc = Some d'
    ∧ TextDoc.corpus_index d' = Some (TextCorpus.n_docs c)
    ∧ TextDoc.corpus d' = Some self
    ∧ TextDoc.spacy_doc d' = TextDoc.spacy_doc d
    ∧ TextDoc._term_counts d' = TextDoc._term_counts d.
Proof.
  intros Hc Hd Hci Hlang.
  pose proof (lookup_lt_Some _ _ _ Hc) as Hlc.
  pose proof (lookup_lt_Some _ _ _ Hd) as Hld.
  eexists _, _, (taken_in self c d).
  split; [by apply add_doc_run_unowned|]. cbn.
  split; [by apply list_lookup_insert_eq|].
  split; [reflexivity|]. split; [by rewrite length_insert|].
  split; [reflexivity|]. split; [by apply list_lookup_insert_eq|done].
Qed.

(** X3. [add_doc] refuses a doc whose [lang] is not the corpus's: it raises
    [ValueError], and no object is changed, created or printed. *)
Theorem add_doc_refuses_other_language self doc print_warning c d
    (s : TextCorpus.store) :
  TextCorpus.corpus_objs s !! self = Some c →
  TextCorpus.doc_objs s !! doc = Some d →
  TextDoc.lang d ≠ TextCorpus.lang c →
  TextCorpus.add_doc self doc print_warning s = (Raise ValueError, s).
Proof.
  intros Hc Hd Hlang. unfold TextCorpus.add_doc.
  erewrite run_bind_return by (by apply read_corpus_run).
  erewrite run_bind_return by (by apply read_doc_run).
  by rewrite decide_True.
Qed.

(** What [add_text] does, by the language of the text: the [lang] argument
    when given, the detected language otherwise. *)
Lemma add_text_run self text lang metadata c (s : TextCorpus.store) :
  TextCorpus.corpus_objs s !! self = Some c →
  let p := TextCorpus.spacy_pipeline c in
  let d :=
    {| TextDoc.metadata := default ∅ metadata; TextDoc._term_counts := ∅;
       TextDoc.lang := default (detect_language text) (TextDoc.lang_given lang);
       TextDoc.spacy_vocab := Language.vocab p;
       TextDoc.spacy_stringstore := strings (Language.vocab p);
       TextDoc.spacy_doc := Language.call p text;
       TextDoc.corpus_index := None; TextDoc.corpus := None |} in
  TextCorpus.add_text self text lang metadata s
  = if decide (Language.lang p
               = default (detect_language text) (TextDoc.lang_given lang))
    then
      (Return tt,
       {| TextCorpus.doc_objs :=
            TextCorpus.doc_objs s ++ [taken_in self c d];
          TextCorpus.corpus_objs :=
            <[self := grown_by (length (TextCorpus.doc_objs s)) d c]>
              (TextCorpus.corpus_objs s);
          TextCorpus.stdout := TextCorpus.stdout s |})
    else (Raise ValueError, s).
Proof.
  intros Hc. cbv zeta. unfold TextCorpus.add_text.
  erewrite run_bind_return by (by apply read_corpus_run).
  unfold TextDoc.__init__.
  destruct (decide (Language.lang (TextCorpus.spacy_pipeline c) = _))
    as [Heq|Hne].
  - rewrite decide_False by (intros Hne; by apply Hne).
    erewrite run_bind_return by reflexivity.
    erewrite run_bind_return by reflexivity.
    erewrite append_doc_run; [|cbn; eassumption|apply lookup_snoc].
    cbn. by rewrite insert_snoc.
  - rewrite decide_True by done. reflexivity.
Qed.

End corpus_add_more.

(** ** [TextCorpus]: a corpus stays in order under the adds *)
Section corpus_consistent.
Context `{Helpers}.

Lemma sum_over_app (s : TextCorpus.store) f ds1 ds2 :
  sum_over s f (ds1 ++ ds2) = sum_over s f ds1 + sum_over s f ds2.
Proof.
  unfold sum_over. induction ds1 as [|doc ds1 IH]; cbn; [lia|].
  rewrite IH. lia.
Qed.

Lemma sum_over_ext (s s' : TextCorpus.store) f ds :
  Forall (λ doc, f <$> TextCorpus.doc_objs s' !! doc
                 = f <$> TextCorpus.doc_objs s !! doc) ds →
  sum_over s' f ds = sum_over s f ds.
Proof.
  unfold sum_over. induction 1 as [|doc ds Hdoc _ IH]; cbn; [done|].
  by rewrite Hdoc, IH.
Qed.

Lemma sum_over_singleton (s : TextCorpus.store) f doc d :
  TextCorpus.doc_objs s !! doc = Some d → sum_over s f [doc] = f d.
Proof. intros Hd. unfold sum_over. cbn. rewrite Hd. cbn. lia. Qed.

(** A new doc object taken in at the end of the corpus. *)
Lemma consistent_after_new self c d out (s : TextCorpus.store) :
  TextCorpus.corpus_objs s !! self = Some c →
  consistent s self →
  consistent
    {| TextCorpus.doc_objs := TextCorpus.doc_objs s ++ [taken_in self c d];
       TextCorpus.corpus_objs :=
         <[self := grown_by (length (TextCorpus.doc_objs s)) d c]>
           (TextCorpus.corpus_objs s);
       TextCorpus.stdout := out |} self.
Proof.
  intros Hc [(c1 & Hc1 & Hpos) (c2 & Hc2 & Hall & Hn & Hsents & Htokens)].
  rewrite Hc in Hc1, Hc2. injection Hc1 as <-. injection Hc2 as <-.
  pose proof (lookup_lt_Some _ _ _ Hc) as Hlc.
  assert (Forall (λ doc, ∀ f : TextDoc.t → Z,
            f <$> (TextCorpus.doc_objs s ++ [taken_in self c d]) !! doc
            = f <$> TextCorpus.doc_objs s !! doc) (TextCorpus.docs c))
    as Hsame.
  { eapply Forall_impl; [exact Hall|]. intros doc Hdoc f. cbn in Hdoc.
    by rewrite lookup_app_l by (by apply lookup_lt_is_Some). }
  split.
  - exists (grown_by (length (TextCorpus.doc_objs s)) d c). cbn.
    split; [by apply list_lookup_insert_eq|]. intros i doc Hi.
    destruct (decide (i < length (TextCorpus.docs c))%nat) as [Hlt|Hge].
    + rewrite lookup_app_l in Hi by done.
      destruct (Hpos i doc Hi) as (d' & Hd' & Hci).
      exists d'. split; [|exact Hci].
      rewrite lookup_app_l; [exact Hd'|by eapply lookup_lt_Some].
    + rewrite lookup_app_r in Hi by lia.
      destruct (i - length (TextCorpus.docs c))%nat as [|j] eqn:Hj;
        [|by destruct j].
      injection Hi as <-. exists (taken_in self c d).
      split; [apply lookup_snoc|]. cbn. f_equal. lia.
  - exists (grown_by (length (TextCorpus.doc_objs s)) d c).
    cbn -[sum_over].
    split; [by apply list_lookup_insert_eq|].
    split; [|split; [|split]].
    + apply Forall_app_2.
      * eapply Forall_impl; [exact Hall|]. intros doc Hdoc. cbn in *.
        by rewrite lookup_app_l by (by apply lookup_lt_is_Some).
      * apply Forall_singleton. cbn. rewrite lookup_snoc. by eexists.
    + rewrite length_app. cbn. lia.
    + rewrite sum_over_app, Hsents. f_equal.
      * symmetry. apply sum_over_ext. cbn.
        eapply Forall_impl; [exact Hsame|]. intros doc Hdoc. apply Hdoc.
      * by rewrite (sum_over_singleton _ _ _ (taken_in self c d))
          by apply lookup_snoc.
    + rewrite sum_over_app, Htokens. f_equal.
      * symmetry. apply sum_over_ext. cbn.
        eapply Forall_impl; [exact Hsame|]. intros doc Hdoc. apply Hdoc.
      * by rewrite (sum_over_singleton _ _ _ (taken_in self c d))
          by apply lookup_snoc.
Qed.

(** A doc object of the store, without a [corpus_index], taken in. *)
Lemma consistent_after_alias self doc c d out (s : TextCorpus.store) :
  TextCorpus.corpus_objs s !! self = Some c →
  TextCorpus.doc_objs s !! doc = Some d →
  TextDoc.corpus_index d = None →
  consistent s self →
  consistent
    {| TextCorpus.doc_objs :=
         <[doc := taken_in self c d]> (TextCorpus.doc_objs s);
       TextCorpus.corpus_objs :=
         <[self := grown_by doc d c]> (TextCorpus.corpus_objs s);
       TextCorpus.stdout := out |} self.
Proof.
  intros Hc Hd Hci [(c1 & Hc1 & Hpos) (c2 & Hc2 & Hall & Hn & Hsents & Htokens)].
  rewrite Hc in Hc1, Hc2. injection Hc1 as <-. injection Hc2 as <-.
  pose proof (lookup_lt_Some _ _ _ Hc) as Hlc.
  pose proof (lookup_lt_Some _ _ _ Hd) as Hld.
  assert (doc ∉ TextCorpus.docs c) as Hnew.
  { intros Hin. apply list_elem_of_lookup in Hin as [i Hi].
    destruct (Hpos i _ Hi) as (d' & Hd' & Hci').
    rewrite Hd in Hd'. injection Hd' as <-. by rewrite Hci in Hci'. }
  assert (∀ (f : TextDoc.t → Z) a,
            f (taken_in self c d) = f d →
            f <$> <[doc := taken_in self c d]> (TextCorpus.doc_objs s) !! a
            = f <$> TextCorpus.doc_objs s !! a) as Hsame.
  { intros f a Hf. destruct (decide (a = doc)) as [->|Hne].
    - rewrite list_lookup_insert_eq by done. rewrite Hd. cbn. by rewrite Hf.
    - by rewrite list_lookup_insert_ne. }
  split.
  - apply (append_keeps_positional self doc c d
             {| TextCorpus.doc_objs := TextCorpus.doc_objs s;
                TextCorpus.corpus_objs := TextCorpus.corpus_objs s;
                TextCorpus.stdout := out |}); try done.
    by exists c.
  - exists (grown_by doc d c). cbn -[sum_over].
    split; [by apply list_lookup_insert_eq|].
    split; [|split; [|split]].
    + apply Forall_app_2.
      * eapply Forall_impl; [exact Hall|]. intros a Ha. cbn in *.
        apply lookup_lt_is_Some. rewrite length_insert.
        by apply lookup_lt_is_Some.
      * apply Forall_singleton. cbn.
        rewrite list_lookup_insert_eq by done. by eexists.
    + rewrite length_app. cbn. lia.
    + rewrite sum_over_app, Hsents. f_equal.
      * symmetry. apply sum_over_ext. cbn. apply Forall_forall.
        intros a _. by apply Hsame.
      * by rewrite (sum_over_singleton _ _ _ (taken_in self c d))
          by (by apply list_lookup_insert_eq).
    + rewrite sum_over_app, Htokens. f_equal.
      * symmetry. apply sum_over_ext. cbn. apply Forall_forall.
        intros a _. by apply Hsame.
      * by rewrite (sum_over_singleton _ _ _ (taken_in self c d))
          by (by apply list_lookup_insert_eq).
Qed.

(** X4. [add_doc] keeps a corpus in order: after it has taken in a doc of
    the corpus's language, copied or not, every doc of the corpus still has
    its position as [corpus_index], [n_docs] is the number of docs, and
    [n_sents] and [n_tokens] are the sums over the docs. *)
Theorem add_doc_keeps_consistent self doc print_warning d
    (s : TextCorpus.store) :
  TextCorpus.doc_objs s !! doc = Some d →
  TextCorpus.lang <$> TextCorpus.corpus_objs s !! self
  = Some (TextDoc.lang d) →
  consistent s self →
  ∃ s',
    TextCorpus.add_doc self doc print_warning s = (Return tt, s')
    ∧ consistent s' self.
Proof.
  intros Hd Hlang Hcons.
  destruct (TextCorpus.corpus_objs s !! self) as [c|] eqn:Hc; [|done].
  injection Hlang as Hlang. symmetry in Hlang.
  destruct (TextDoc.corpus_index d) as [ci|] eqn:Hci.
  - eexists. split; [by eapply add_doc_run_owned|].
    by apply consistent_after_new.
  - eexists. split; [by eapply add_doc_run_unowned|].
    by apply consistent_after_alias.
Qed.

(** X5. [add_text] on a corpus in order: when the language of the text (the
    [lang] argument if given, the detected one otherwise) is the language of
    the corpus's pipeline, it returns and the corpus, one doc longer, is
    still in order; otherwise it raises [ValueError] and changes nothing. *)
Theorem add_text_keeps_consistent self text lang metadata c
    (s : TextCorpus.store) :
  TextCorpus.corpus_objs s !! self = Some c →
  consistent s self →
  let text_lang :=
    default (detect_language text) (TextDoc.lang_given lang) in
  (Language.lang (TextCorpus.spacy_pipeline c) = text_lang →
   ∃ s' c',
     TextCorpus.add_text self text lang metadata s = (Return tt, s')
     ∧ TextCorpus.corpus_objs s' !! self = Some c'
     ∧ length (TextCorpus.docs c') = S (length (TextCorpus.docs c))
     ∧ consistent s' self)
  ∧ (Language.lang (TextCorpus.spacy_pipeline c) ≠ text_lang →
     TextCorpus.add_text self text lang metadata s = (Raise ValueError, s)).
Proof.
  intros Hc Hcons. cbv zeta.
  pose proof (lookup_lt_Some _ _ _ Hc) as Hlc.
  rewrite (add_text_run _ _ _ _ _ _ Hc). cbv zeta.
  split; intros Hlang; [rewrite decide_True by done|by rewrite decide_False].
  eexists _, _. split; [reflexivity|]. cbn.
  split; [by apply list_lookup_insert_eq|].
  split; [cbn; rewrite length_app; cbn; lia|].
  by apply consistent_after_new.
Qed.

End corpus_consistent.

(** ** [TextCorpus.from_texts], with and without metadata *)
Section from_texts_more.
Context `{Helpers}.

Lemma for_each_fmap {S A B} (g : A → B) (l : list A) (body : B → M S unit) :
  for_each (g <$> l) body = for_each l (body ∘ g).
Proof. induction l as [|x l IH]; [reflexivity|]. cbn. by rewrite IH. Qed.

Lemma from_texts_unfold_any lang texts metadata n_threads batch_size p
    (s : TextCorpus.store) :
  load_spacy lang = Return p →
  let textcorpus := length (TextCorpus.corpus_objs s) in
  let c0 :=
    {| TextCorpus.lang := lang; TextCorpus.spacy_pipeline := p;
       TextCorpus.spacy_vocab := Language.vocab p;
       TextCorpus.spacy_stringstore := strings (Language.vocab p);
       TextCorpus.docs := []; TextCorpus.n_docs := 0;
       TextCorpus.n_sents := 0; TextCorpus.n_tokens := 0 |} in
  let s0 :=
    {| TextCorpus.doc_objs := TextCorpus.doc_objs s;
       TextCorpus.corpus_objs := TextCorpus.corpus_objs s ++ [c0];
       TextCorpus.stdout := TextCorpus.stdout s |} in
  TextCorpus.from_texts lang texts metadata n_threads batch_size s
  = (for_each (paired p texts metadata) (from_texts_body textcorpus lang);;
     mret textcorpus) s0.
Proof.
  intros Hload. destruct metadata as [metadata|].
  { by apply from_texts_unfold. }
  cbv zeta. unfold TextCorpus.from_texts.
  erewrite run_bind_return; last first.
  { unfold TextCorpus.__init__. rewrite Hload. reflexivity. }
  erewrite run_bind_return by (apply read_corpus_run; apply lookup_snoc).
  cbn [TextCorpus.spacy_pipeline]. unfold paired. rewrite for_each_fmap.
  erewrite for_each_ext; [reflexivity|]. by intros sdoc.
Qed.

(** The empty corpus that [TextCorpus(lang)] makes is in order. *)
Lemma new_corpus_consistent c (s : TextCorpus.store) out :
  TextCorpus.docs c = [] → TextCorpus.n_docs c = 0 →
  TextCorpus.n_sents c = 0 → TextCorpus.n_tokens c = 0 →
  consistent
    {| TextCorpus.doc_objs := TextCorpus.doc_objs s;
       TextCorpus.corpus_objs := TextCorpus.corpus_objs s ++ [c];
       TextCorpus.stdout := out |} (length (TextCorpus.corpus_objs s)).
Proof.
  intros Hdocs Hn Hsents Htokens. split.
  - exists c. split; [apply lookup_snoc|]. rewrite Hdocs. by intros i doc.
  - exists c. split; [apply lookup_snoc|]. rewrite Hdocs.
    split; [constructor|]. by rewrite Hn, Hsents, Htokens.
Qed.

(** The loop of [from_texts] in full: what it leaves in the store. *)
Lemma from_texts_loop_full textcorpus lang l :
  ∀ (s : TextCorpus.store) c,
    TextCorpus.corpus_objs s !! textcorpus = Some c →
    Language.lang (TextCorpus.spacy_pipeline c) = TextCorpus.lang c →
    consistent s textcorpus →
    ∃ s' c',
      for_each l (from_texts_body textcorpus lang) s = (Return tt, s')
      ∧ TextCorpus.corpus_objs s'
        = <[textcorpus := c']> (TextCorpus.corpus_objs s)
      ∧ TextCorpus.stdout s' = TextCorpus.stdout s
      ∧ TextCorpus.docs c'
        = TextCorpus.docs c
          ++ seq (length (TextCorpus.doc_objs s)) (length l)
      ∧ TextCorpus.doc_objs s'
        = TextCorpus.doc_objs s
          ++ imap (λ i pair,
               TextDoc.set_corpus textcorpus
                 (TextDoc.set_corpus_index (TextCorpus.n_docs c + Z.of_nat i)
                    (made_of (TextCorpus.spacy_pipeline c) pair.2 pair.1))) l
      ∧ consistent s' textcorpus.
Proof.
  induction l as [|[sdoc md] l IH]; intros s c Hc Hlang Hcons.
  - exists s, c. cbn. rewrite !app_nil_r.
    split; [reflexivity|]. split; [by rewrite list_insert_id|]. done.
  - pose proof (lookup_lt_Some _ _ _ Hc) as Hlt.
    cbn [for_each].
    pose proof (from_texts_body_run textcorpus lang sdoc md c s Hc Hlang)
      as Hbody.
    set (d := made_of (TextCorpus.spacy_pipeline c) md sdoc) in Hbody.
    set (c1 := grown_by (length (TextCorpus.doc_objs s)) d c) in Hbody.
    set (s1 := {| TextCorpus.doc_objs := _ |}) in Hbody.
    rewrite (run_bind_return _ _ _ _ _ Hbody).
    destruct (IH s1 c1)
      as (s' & c' & Hrun & Hcorp & Hout & Hdocs & Hobjs & Hcons');
      [by apply list_lookup_insert_eq|exact Hlang
      |by apply consistent_after_new|].
    exists s', c'. split; [exact Hrun|].
    subst s1 c1 d. cbn in Hcorp, Hout, Hdocs, Hobjs.
    rewrite length_app in Hdocs. cbn in Hdocs.
    split; [by rewrite Hcorp, list_insert_insert_eq|].
    split; [exact Hout|]. split; [|split; [|exact Hcons']].
    + rewrite Hdocs, <- app_assoc. cbn. by rewrite Nat.add_1_r.
    + rewrite Hobjs, <- app_assoc. f_equal. cbn [app]. rewrite imap_cons.
      cbn. rewrite Z.add_0_r. f_equal. apply imap_ext. intros i x _. cbn.
      do 2 f_equal. lia.
Qed.

(** A doc that [add_doc] refuses stays behind as an object of the store. *)
Lemma from_texts_body_mismatch_run textcorpus lang sdoc md c
    (s : TextCorpus.store) :
  TextCorpus.corpus_objs s !! textcorpus = Some c →
  Language.lang (TextCorpus.spacy_pipeline c) ≠ TextCorpus.lang c →
  from_texts_body textcorpus lang (sdoc, md) s
  = (Raise ValueError,
     {| TextCorpus.doc_objs :=
          TextCorpus.doc_objs s
          ++ [made_of (TextCorpus.spacy_pipeline c) md sdoc];
        TextCorpus.corpus_objs := TextCorpus.corpus_objs s;
        TextCorpus.stdout := TextCorpus.stdout s |}).
Proof.
  intros Hc Hlang. unfold from_texts_body.
  erewrite run_bind_return by (by apply read_corpus_run).
  erewrite run_bind_return by reflexivity.
  erewrite run_bind_return by reflexivity.
  unfold TextCorpus.add_doc.
  erewrite run_bind_return by (apply read_corpus_run; cbn; eassumption).
  erewrite run_bind_return by (apply read_doc_run; apply lookup_snoc).
  cbn [TextDoc.__init__ TextDoc.lang]. by rewrite decide_True.
Qed.

(** What a call of [from_texts] does, by what [load_spacy] gives. *)
Lemma from_texts_run lang texts metadata n_threads batch_size
    (s : TextCorpus.store) :
  match load_spacy lang with
  | Raise e =>
      TextCorpus.from_texts lang texts metadata n_threads batch_size s
      = (Raise e, s)
  | Return p =>
      if decide (Language.lang p = lang ∨ paired p texts metadata = []) then
        ∃ s' c,
          TextCorpus.from_texts lang texts metadata n_threads batch_size s
          = (Return (length (TextCorpus.corpus_objs s)), s')
          ∧ TextCorpus.corpus_objs s' = TextCorpus.corpus_objs s ++ [c]
          ∧ TextCorpus.stdout s' = TextCorpus.stdout s
          ∧ TextCorpus.docs c
            = seq (length (TextCorpus.doc_objs s))
                (length (paired p texts metadata))
          ∧ TextCorpus.doc_objs s'
            = TextCorpus.doc_objs s
              ++ imap (λ i pair,
                   TextDoc.set_corpus (length (TextCorpus.corpus_objs s))
                     (TextDoc.set_corpus_index (Z.of_nat i)
                        (made_of p pair.2 pair.1))) (paired p texts metadata)
          ∧ consistent s' (length (TextCorpus.corpus_objs s))
      else
        ∃ s',
          TextCorpus.from_texts lang texts metadata n_threads batch_size s
          = (Raise ValueError, s')
          ∧ extends s s'
  end.
Proof.
  destruct (load_spacy lang) as [p|e] eqn:Hload; last first.
  { unfold TextCorpus.from_texts, TextCorpus.__init__.
    rewrite !run_bind, Hload. by cbn. }
  rewrite (from_texts_unfold_any _ _ _ _ _ _ _ Hload). cbv zeta.
  set (c0 := {| TextCorpus.lang := lang |}).
  set (s0 := {| TextCorpus.doc_objs := TextCorpus.doc_objs s |}).
  set (l := paired p texts metadata).
  pose proof (lookup_snoc (TextCorpus.corpus_objs s) c0) as Hc0.
  assert (consistent s0 (length (TextCorpus.corpus_objs s))) as Hcons0
    by by apply new_corpus_consistent.
  destruct (decide (Language.lang p = lang ∨ l = [])) as [[Hl|Hl]|Hl].
  - destruct (from_texts_loop_full (length (TextCorpus.corpus_objs s)) lang l
                s0 c0 Hc0 Hl Hcons0)
      as (s1 & c1 & Hloop & Hcorp & Hout & Hdocs & Hobjs & Hcons).
    rewrite (run_bind_return _ _ _ _ _ Hloop). exists s1, c1.
    split; [reflexivity|]. cbn in Hcorp, Hout, Hdocs, Hobjs.
    split; [by rewrite Hcorp, insert_snoc|]. split; [exact Hout|].
    split; [exact Hdocs|]. split; [|exact Hcons].
    rewrite Hobjs. f_equal.
  - rewrite Hl. exists s0, c0. cbn. by rewrite app_nil_r.
  - destruct l as [|[sdoc md] l']; [by destruct Hl; right|].
    cbn [for_each].
    assert (Language.lang (TextCorpus.spacy_pipeline c0) ≠ TextCorpus.lang c0)
      as Hne by (intros Heq; apply Hl; by left).
    eexists. rewrite !run_bind.
    rewrite (from_texts_body_mismatch_run _ lang sdoc md c0 s0 Hc0 Hne).
    split; [reflexivity|]. unfold extends. cbn.
    by rewrite !take_app_length.
Qed.

(** X6. A corpus that [from_texts] returns is in order, with or without
    metadata: its docs are numbered by position, [n_docs] is their number,
    and [n_sents] and [n_tokens] are the sums over its docs. *)
Theorem from_texts_gives_consistent lang texts metadata n_threads batch_size
    (s s' : TextCorpus.store) textcorpus :
  TextCorpus.from_texts lang texts metadata n_threads batch_size s
  = (Return textcorpus, s') →
  consistent s' textcorpus.
Proof.
  intros Hrun.
  pose proof (from_texts_run lang texts metadata n_threads batch_size s)
    as Hcases.
  destruct (load_spacy lang) as [p|e]; [|congruence].
  destruct (decide _) as [_|_].
  - destruct Hcases as (s1 & c & Hrun1 & _ & _ & _ & _ & Hcons).
    rewrite Hrun in Hrun1. by injection Hrun1 as -> ->.
  - destruct Hcases as (s1 & Hrun1 & _). congruence.
Qed.

(** X7. [from_texts] touches no object that existed before the call and
    prints nothing, whether it returns or raises: the doc objects and the
    corpus objects of the store before the call are, unchanged, the first
    ones of the store after it. *)
Theorem from_texts_keeps_old_objects lang texts metadata n_threads batch_size
    (s : TextCorpus.store) :
  extends s
    (TextCorpus.from_texts lang texts metadata n_threads batch_size s).2.
Proof.
  pose proof (from_texts_run lang texts metadata n_threads batch_size s)
    as Hcases.
  destruct (load_spacy lang) as [p|e].
  - destruct (decide _) as [_|_].
    + destruct Hcases as (s1 & c & -> & Hcorp & Hout & _ & Hobjs & _).
      unfold extends. cbn. by rewrite Hcorp, Hobjs, !take_app_length.
    + by destruct Hcases as (s1 & -> & Hext).
  - rewrite Hcases. unfold extends. cbn. by rewrite !firstn_all.
Qed.

(** X8. Without metadata, [from_texts] makes one doc per text, in the order
    of the texts, each with the parsed text and an empty metadata dict;
    [n_docs] is the number of texts. The call returns whenever [load_spacy]
    gives a pipeline of the language asked for. *)
Theorem from_texts_without_metadata lang texts n_threads batch_size p
    (s : TextCorpus.store) :
  load_spacy lang = Return p →
  Language.lang p = lang →
  ∃ textcorpus s' c,
    TextCorpus.from_texts lang texts None n_threads batch_size s
    = (Return textcorpus, s')
    ∧ TextCorpus.corpus_objs s' !! textcorpus = Some c
    ∧ TextCorpus.n_docs c = Z.of_nat (length texts)
    ∧ content_of s' <$> TextCorpus.docs c
      = (λ text, Some (Language.call p text, ∅)) <$> texts.
Proof.
  intros Hload Hl.
  pose proof (from_texts_run lang texts None n_threads batch_size s)
    as Hcases.
  rewrite Hload, decide_True in Hcases by by left.
  destruct Hcases as (s' & c & Hrun & Hcorp & _ & Hdocs & Hobjs & Hcons).
  exists (length (TextCorpus.corpus_objs s)), s', c.
  split; [exact Hrun|]. split; [rewrite Hcorp; apply lookup_snoc|].
  destruct Hcons as [_ (c' & Hc' & _ & Hn & _)].
  rewrite Hcorp, lookup_snoc in Hc'. injection Hc' as <-.
  assert (length (paired p texts None) = length texts) as Hlen
    by (unfold paired, Language.pipe; by rewrite !length_fmap).
  split; [by rewrite Hn, Hdocs, length_seq, Hlen|].
  rewrite Hdocs.
  rewrite (content_of_loop s s' (paired p texts None)
             (length (TextCorpus.corpus_objs s)) 0 p); last first.
  { rewrite Hobjs. f_equal. }
  unfold paired, Language.pipe. rewrite <- !list_fmap_compose.
  by apply list_fmap_ext.
Qed.

End from_texts_more.

(** ** [TextCorpus.remove_docs] *)
Section remove_docs_more.
Context `{Helpers}.

Lemma get_corpus_index_run doc (s : TextCorpus.store) :
  is_Some (TextCorpus.doc_objs s !! doc ≫= TextDoc.corpus_index) →
  TextCorpus.get_corpus_index doc s
  = (Return (default 0 (TextCorpus.doc_objs s !! doc
                        ≫= TextDoc.corpus_index)), s).
Proof.
  intros [ci Hci]. unfold TextCorpus.get_corpus_index.
  destruct (TextCorpus.doc_objs s !! doc) as [d|] eqn:Hd; [|done].
  erewrite run_bind_return by (by apply read_doc_run).
  cbn in Hci |- *. by rewrite Hci.
Qed.

(** X9. [remove_docs] removes nothing: as soon as the condition selects a
    doc, the first [del self[index]] raises, and the corpus and every doc
    are as they were before the call. The exception is [TypeError] when the
    [corpus_index] of the first doc selected fits an index-sized integer,
    and [IndexError] when it does not. *)
Theorem remove_docs_raises_on_a_match self c p limit doc rest index
    (s : TextCorpus.store) :
  TextCorpus.corpus_objs s !! self = Some c →
  all_stored s (TextCorpus.docs c) →
  selected p limit s (TextCorpus.docs c) = doc :: rest →
  TextCorpus.doc_objs s !! doc ≫= TextDoc.corpus_index = Some index →
  all_indexed s rest →
  TextCorpus.remove_docs self (λ d, Return (p d)) limit s
  = (Raise (if decide (index_sized index) then TypeError else IndexError), s).
Proof.
  intros Hc Hall Hsel Hindex Hidx. unfold TextCorpus.remove_docs.
  erewrite run_bind_return; last first.
  { apply (get_docs_run self c p limit _
             (λ doc, default 0 (TextCorpus.doc_objs s !! doc
                                ≫= TextDoc.corpus_index))); [done..|].
    rewrite Hsel. apply Forall_cons. split.
    - apply get_corpus_index_run. by rewrite Hindex.
    - eapply Forall_impl; [exact Hidx|]. intros doc' Hdoc'.
      by apply get_corpus_index_run. }
  rewrite Hsel. cbn [fmap list_fmap for_each]. rewrite Hindex.
  cbn [default]. rewrite !run_bind.
  unfold TextCorpus.del_item. cbn.
  by destruct (decide (index_sized index)).
Qed.

(** The loop [for i, doc in enumerate(self): doc.corpus_index = i], counted
    from [k]. *)
Lemma renumber_run ds :
  ∀ (k : nat) (s : TextCorpus.store),
    all_stored s ds →
    ∃ s',
      for_each (imap (λ i doc, (Z.of_nat (k + i), doc)) ds) (λ '(i, doc),
        d ← TextCorpus.read_doc doc;
        TextCorpus.write_doc doc (TextDoc.set_corpus_index i d)) s
      = (Return tt, s')
      ∧ TextCorpus.corpus_objs s' = TextCorpus.corpus_objs s
      ∧ TextCorpus.stdout s' = TextCorpus.stdout s
      ∧ length (TextCorpus.doc_objs s') = length (TextCorpus.doc_objs s)
      ∧ (∀ a, a ∉ ds →
           TextCorpus.doc_objs s' !! a = TextCorpus.doc_objs s !! a)
      ∧ (NoDup ds → ∀ i doc d,
           ds !! i = Some doc →
           TextCorpus.doc_objs s !! doc = Some d →
           TextCorpus.doc_objs s' !! doc
           = Some (TextDoc.set_corpus_index (Z.of_nat (k + i)) d)).
Proof.
  induction ds as [|doc ds IH]; intros k s Hall.
  { exists s. cbn. by repeat split. }
  apply Forall_cons in Hall as [[d Hd] Hall].
  pose proof (lookup_lt_Some _ _ _ Hd) as Hlt.
  rewrite imap_cons. cbn [for_each].
  set (s1 :=
    {| TextCorpus.doc_objs :=
         <[doc := TextDoc.set_corpus_index (Z.of_nat (k + 0)) d]>
           (TextCorpus.doc_objs s);
       TextCorpus.corpus_objs := TextCorpus.corpus_objs s;
       TextCorpus.stdout := TextCorpus.stdout s |}).
  assert (all_stored s1 ds) as Hall1.
  { eapply Forall_impl; [exact Hall|]. intros a Ha. cbn in *.
    apply lookup_lt_is_Some. rewrite length_insert.
    by apply lookup_lt_is_Some. }
  destruct (IH (S k) s1 Hall1)
    as (s' & Hrun & Hcorp & Hout & Hlen & Hother & Hset).
  exists s'. split.
  { erewrite run_bind_return; last first.
    { erewrite run_bind_return by (by apply read_doc_run). reflexivity. }
    fold s1. rewrite <- Hrun. f_equal. apply imap_ext. intros i a _. cbn.
    do 2 f_equal. lia. }
  split; [exact Hcorp|]. split; [exact Hout|].
  split; [by rewrite Hlen; cbn; rewrite length_insert|]. split.
  - intros a Ha. apply not_elem_of_cons in Ha as [Hne Ha].
    rewrite (Hother a Ha). cbn. by rewrite list_lookup_insert_ne.
  - intros Hnodup i a da Hi Ha. apply NoDup_cons in Hnodup as [Hnew Hnodup].
    destruct i as [|i]; cbn in Hi.
    + injection Hi as <-. rewrite (Hother doc Hnew). cbn.
      rewrite list_lookup_insert_eq by done. congruence.
    + assert (a ≠ doc) as Hne.
      { intros ->. apply Hnew. by eapply list_elem_of_lookup_2. }
      rewrite (Hset Hnodup i a da Hi).
      * do 2 f_equal. lia.
      * cbn. by rewrite list_lookup_insert_ne.
Qed.

(** X10. When the condition selects no doc, [remove_docs] returns, and its
    last loop gives every doc of the corpus its position as [corpus_index],
    whatever it was before. The corpus objects and the docs outside the
    corpus are unchanged. *)
Theorem remove_docs_renumbers self c p limit (s : TextCorpus.store) :
  TextCorpus.corpus_objs s !! self = Some c →
  all_stored s (TextCorpus.docs c) →
  NoDup (TextCorpus.docs c) →
  selected p limit s (TextCorpus.docs c) = [] →
  ∃ s',
    TextCorpus.remove_docs self (λ d, Return (p d)) limit s = (Return tt, s')
    ∧ positional s' self
    ∧ TextCorpus.corpus_objs s' = TextCorpus.corpus_objs s
    ∧ (∀ i doc d,
         TextCorpus.docs c !! i = Some doc →
         TextCorpus.doc_objs s !! doc = Some d →
         TextCorpus.doc_objs s' !! doc
         = Some (TextDoc.set_corpus_index (Z.of_nat i) d))
    ∧ (∀ a, a ∉ TextCorpus.docs c →
         TextCorpus.doc_objs s' !! a = TextCorpus.doc_objs s !! a).
Proof.
  intros Hc Hall Hnodup Hnone.
  destruct (renumber_run (TextCorpus.docs c) 0 s Hall)
    as (s' & Hrun & Hcorp & _ & _ & Hother & Hset).
  exists s'. split.
  { unfold TextCorpus.remove_docs.
    erewrite run_bind_return; last first.
    { apply (get_docs_run self c p limit _ (λ _, 0)); [done..|].
      rewrite Hnone. constructor. }
    rewrite Hnone. cbn [fmap list_fmap for_each].
    erewrite run_bind_return by reflexivity.
    erewrite run_bind_return by (by apply read_corpus_run).
    exact Hrun. }
  split; [|split; [exact Hcorp|split; [|exact Hother]]].
  - exists c. split; [by rewrite Hcorp|]. intros i doc Hi.
    destruct (Forall_lookup_1 _ _ _ _ Hall Hi) as [d Hd].
    eexists. split; [by apply (Hset Hnodup i doc d)|]. reflexivity.
  - intros i doc d Hi Hd. by apply (Hset Hnodup i doc d).
Qed.

End remove_docs_more.

(** ** [TextCorpus.get_doc], [__getitem__] and [__len__] *)
Section get_doc.
Context `{Helpers}.

Lemma list_getitem_in_range {A} (l : list A) index :
  - Z.of_nat (length l) ≤ index < Z.of_nat (length l) →
  ∃ x, list_getitem l index = Return x
       ∧ l !! Z.to_nat (index `mod` Z.of_nat (length l)) = Some x.
Proof.
  intros Hrange. unfold list_getitem. cbv zeta.
  set (n := Z.of_nat (length l)) in *.
  assert (index `mod` n = if decide (index < 0) then index + n else index)
    as Hmod.
  { destruct (decide (index < 0)).
    - symmetry. apply (Z.mod_unique _ _ (-1)); lia.
    - by rewrite Z.mod_small by lia. }
  rewrite <- Hmod.
  assert (0 ≤ index `mod` n < n) as Hi by (apply Z.mod_pos_bound; lia).
  rewrite decide_True by done.
  destruct (lookup_lt_is_Some_2 l (Z.to_nat (index `mod` n))) as [x Hx];
    [lia|].
  exists x. by rewrite Hx.
Qed.

Lemma list_getitem_out_of_range {A} (l : list A) index :
  ¬ (- Z.of_nat (length l) ≤ index < Z.of_nat (length l)) →
  list_getitem l index = Raise IndexError.
Proof.
  intros Hrange. unfold list_getitem. cbv zeta.
  destruct (decide (index < 0)); by rewrite decide_False by lia.
Qed.

(** X11. On a corpus whose docs are numbered by position and whose
    [n_docs] is the number of its docs, [len(corpus)] is the number of its
    docs, and [get_doc(index)] and [corpus[index]] give, for an index from
    [-len] to [len - 1], the doc whose [corpus_index] is [index] counted
    from the start ([index + len] for a negative one); any other index
    raises [IndexError]. Nothing is changed. *)
Theorem get_doc_by_index self c index (s : TextCorpus.store) :
  TextCorpus.corpus_objs s !! self = Some c →
  positional s self →
  TextCorpus.n_docs c = Z.of_nat (length (TextCorpus.docs c)) →
  let n := Z.of_nat (length (TextCorpus.docs c)) in
  TextCorpus.__len__ self s = (Return n, s)
  ∧ TextCorpus.__getitem__ self index s = TextCorpus.get_doc self index s
  ∧ (- n ≤ index < n →
     ∃ doc d,
       TextCorpus.get_doc self index s = (Return doc, s)
       ∧ TextCorpus.doc_objs s !! doc = Some d
       ∧ TextDoc.corpus_index d = Some (index `mod` n))
  ∧ (¬ (- n ≤ index < n) →
     TextCorpus.get_doc self index s = (Raise IndexError, s)).
Proof.
  intros Hc (c1 & Hc1 & Hpos) Hn. cbv zeta.
  rewrite Hc in Hc1. injection Hc1 as <-.
  unfold TextCorpus.__len__, TextCorpus.__getitem__, TextCorpus.get_doc.
  erewrite !run_bind_return by (by apply read_corpus_run).
  split; [by rewrite <- Hn|]. split; [reflexivity|]. split.
  - intros Hrange.
    destruct (list_getitem_in_range (TextCorpus.docs c) index Hrange)
      as (doc & Hget & Hdoc).
    destruct (Hpos _ _ Hdoc) as (d & Hd & Hci).
    exists doc, d. unfold lift. rewrite Hget.
    split; [reflexivity|]. split; [exact Hd|].
    rewrite Hci. f_equal. apply Z2Nat.id. apply Z.mod_pos_bound. lia.
  - intros Hrange. unfold lift.
    by rewrite list_getitem_out_of_range.
Qed.

End get_doc.

(** ** [Counter]: counting *)

Lemma counter_incr_get (c : Counter) x k :
  counter_get (counter_incr c x) k
  = counter_get c k + (if decide (x = k) then 1 else 0).
Proof.
  unfold counter_incr, counter_get. destruct (decide (x = k)) as [->|Hne].
  - by rewrite lookup_insert_eq.
  - rewrite lookup_insert_ne by done. lia.
Qed.

Lemma occurrences_cons k x l :
  occurrences k (x :: l) = (if decide (x = k) then 1 else 0) + occurrences k l.
Proof.
  unfold occurrences. destruct (decide (x = k)) as [Heq|Hne].
  - rewrite filter_cons_True by done. cbn [length]. lia.
  - rewrite filter_cons_False by done. lia.
Qed.

Lemma occurrences_nonneg k l : 0 ≤ occurrences k l.
Proof. unfold occurrences. lia. Qed.

Lemma occurrences_elem k l : k ∈ l → 0 < occurrences k l.
Proof.
  intros Hin. unfold occurrences.
  assert (k ∈ filter (λ x, x = k) l) as Hk by (by apply list_elem_of_filter).
  destruct (filter _ l); [by apply elem_of_nil in Hk|cbn; lia].
Qed.

Lemma foldl_counter_incr_get (l : list Z) (c : Counter) k :
  counter_get (foldl counter_incr c l) k = counter_get c k + occurrences k l.
Proof.
  revert c. induction l as [|x l IH]; intros c.
  - unfold occurrences. cbn. lia.
  - cbn [foldl]. rewrite IH, counter_incr_get, occurrences_cons. lia.
Qed.

(** [Counter(ids)[k]] is the number of times [k] occurs in [ids]. *)
Lemma counter_of_list_get (l : list Z) k :
  counter_get (counter_of_list l) k = occurrences k l.
Proof.
  unfold counter_of_list. rewrite foldl_counter_incr_get.
  unfold counter_get. by rewrite lookup_empty.
Qed.

Lemma foldl_counter_incr_positive (l : list Z) (c : Counter) :
  positive_counts c → positive_counts (foldl counter_incr c l).
Proof.
  revert c. induction l as [|x l IH]; intros c Hc; [exact Hc|].
  cbn [foldl]. apply IH. unfold counter_incr.
  apply map_Forall_insert_2; [|exact Hc].
  unfold counter_get. destruct (c !! x) as [v|] eqn:Hv; cbn; [|lia].
  specialize (Hc x v Hv). cbn in Hc. lia.
Qed.

Lemma counter_of_list_positive (l : list Z) :
  positive_counts (counter_of_list l).
Proof. apply foldl_counter_incr_positive, map_Forall_empty. Qed.

Lemma positive_counts_get (c : Counter) k :
  positive_counts c → 0 ≤ counter_get c k.
Proof.
  intros Hc. unfold counter_get. destruct (c !! k) as [v|] eqn:Hv; cbn; [|lia].
  specialize (Hc k v Hv). cbn in Hc. lia.
Qed.

Lemma counter_or_empty_l (b : Counter) :
  positive_counts b → counter_or ∅ b = b.
Proof.
  intros Hb. apply map_eq. intros k.
  rewrite counter_or_lookup, lookup_empty. cbn.
  destruct (b !! k) as [v|] eqn:Hv; [|done].
  specialize (Hb k v Hv). cbn in Hb. by rewrite decide_True.
Qed.

Lemma counter_add_empty_l (b : Counter) :
  positive_counts b → counter_add ∅ b = b.
Proof.
  intros Hb. apply map_eq. intros k.
  rewrite counter_add_lookup, lookup_empty. cbn.
  destruct (b !! k) as [v|] eqn:Hv; [|done].
  specialize (Hb k v Hv). cbn in Hb. by rewrite decide_True.
Qed.

(** The fold of merges gives, per key, the largest of the counts. *)
Lemma foldl_or_get (bs : list Counter) (c : Counter) k :
  0 ≤ counter_get c k →
  Forall positive_counts bs →
  counter_get (foldl counter_or c bs) k
  = maximum (counter_get c k :: ((λ b, counter_get b k) <$> bs)).
Proof.
  intros Hc Hbs. revert c Hc.
  induction Hbs as [|b bs Hb _ IH]; intros c Hc.
  - unfold maximum. cbn. lia.
  - cbn [foldl]. rewrite IH by (rewrite counter_or_get; lia).
    rewrite counter_or_get. unfold maximum. cbn.
    pose proof (positive_counts_get b k Hb). lia.
Qed.

(** ** [TextDoc.term_counts] and [TextDoc.term_count]: what is counted *)
Section counting.
Context `{Helpers}.

Lemma batches_positive lemmatize ngram_range nes ncs kts (self : TextDoc.t) :
  Forall positive_counts
    (term_counts_batches lemmatize ngram_range nes ncs kts self).
Proof.
  unfold term_counts_batches. repeat apply Forall_app_2.
  - apply Forall_fmap, Forall_true. intros n. cbn.
    destruct (decide (n = 1)); apply counter_of_list_positive.
  - destruct nes; repeat constructor. apply counter_of_list_positive.
  - destruct ncs; repeat constructor. apply counter_of_list_positive.
  - destruct kts; repeat constructor. apply counter_of_list_positive.
Qed.

(** X12. On a doc that has counted nothing yet, [term_counts] with its
    default arguments ([ngram_range=(1, 1)], no entities, noun chunks or key
    terms) returns, and memoizes, for every id the number of words of the
    doc that have this id; the doc is otherwise unchanged. *)
Theorem term_counts_of_fresh_doc lemmatize (self : TextDoc.t) :
  TextDoc._term_counts self = ∅ →
  ∃ counts,
    TextDoc.term_counts lemmatize (1, 1) false false false self
    = (Return counts, TextDoc.set_term_counts counts self)
    ∧ ∀ k,
        counter_get counts k
        = occurrences k
            (TextDoc.get_id self lemmatize ∘ TTok
               <$> TextDoc.words self no_kwargs).
Proof.
  intros Hfresh. eexists. split; [apply term_counts_run|].
  intros k. rewrite Hfresh. unfold term_counts_batches.
  change (range (1, 1).1 ((1, 1).2 + 1)) with [1].
  cbn [fmap list_fmap app foldl]. rewrite decide_True by done.
  rewrite counter_or_empty_l by apply counter_of_list_positive.
  apply counter_of_list_get.
Qed.

(** X13. One call of [term_counts], whatever its arguments, leaves for every
    id the largest of the count memoized before and the id's counts in the
    batches of the call (words, n-grams, entities, noun chunks, key terms):
    a term found in several batches is counted once, by its largest count,
    not by the sum. Nothing but the memo changes. *)
Theorem term_counts_takes_maximum lemmatize ngram_range include_nes
    include_ncs include_kts (self : TextDoc.t) :
  positive_counts (TextDoc._term_counts self) →
  ∃ counts,
    TextDoc.term_counts lemmatize ngram_range include_nes include_ncs
      include_kts self
    = (Return counts, TextDoc.set_term_counts counts self)
    ∧ ∀ k,
        counter_get counts k
        = maximum
            (counter_get (TextDoc._term_counts self) k
             :: ((λ batch, counter_get batch k)
                   <$> term_counts_batches lemmatize ngram_range include_nes
                         include_ncs include_kts self)).
Proof.
  intros Hpos. eexists. split; [apply term_counts_run|].
  intros k. apply foldl_or_get; [by apply positive_counts_get|].
  apply batches_positive.
Qed.

Lemma finditer_count_from_nonneg pat text :
  ∀ skip, 0 ≤ finditer_count_from skip pat text.
Proof.
  induction text as [|c text IH]; intros [|k];
    cbn [finditer_count_from].
  - destruct (String.prefix pat EmptyString); lia.
  - lia.
  - destruct (String.prefix pat (String c text)).
    + specialize (IH (Nat.pred (String.length pat))). lia.
    + apply IH.
  - apply IH.
Qed.

(** X14. On a doc that has counted nothing yet, [term_count] of a token
    that is one of the doc's words counts the words: it returns the number
    of words with the token's normalized string, and leaves the counts of
    all words in the memo. *)
Theorem term_count_of_word (self : TextDoc.t) (tok : Token.t) :
  TextDoc._term_counts self = ∅ →
  tok ∈ TextDoc.words self no_kwargs →
  let ids :=
    TextDoc.get_id self TextDoc.LemAuto ∘ TTok
      <$> TextDoc.words self no_kwargs in
  TextDoc.term_count (TextDoc.TermToken tok) self
  = (Return (occurrences (TextDoc.get_id self TextDoc.LemAuto (TTok tok)) ids),
     TextDoc.set_term_counts (counter_of_list ids) self).
Proof.
  intros Hfresh Hword. cbv zeta. unfold TextDoc.term_count.
  erewrite run_bind_return by reflexivity.
  erewrite run_bind_return by reflexivity.
  cbv beta iota zeta. rewrite Hfresh.
  rewrite decide_False
    by (unfold counter_get; rewrite lookup_empty; cbn; lia).
  erewrite run_bind_return; last first.
  { unfold lift, TextDoc.any_with_spaces. rewrite Hfresh, map_to_list_empty.
    reflexivity. }
  cbn [negb]. rewrite decide_True by done.
  erewrite run_bind_return by reflexivity.
  erewrite run_bind_return by reflexivity.
  cbn [TextDoc._term_counts TextDoc.set_term_counts].
  rewrite Hfresh, counter_add_empty_l by apply counter_of_list_positive.
  rewrite counter_of_list_get.
  rewrite decide_True; [reflexivity|].
  apply Z.lt_gt, occurrences_elem.
  apply list_elem_of_fmap. by exists tok.
Qed.

(** X15. What [term_count] can end in. A term that is not a [str], a token
    or a span raises [UnboundLocalError], the doc unchanged. For any other
    term the call returns a count that is not negative, or raises the
    [IndexError] of a memoized id that the string store does not hold. *)
Theorem term_count_results (term : TextDoc.term_arg) (self : TextDoc.t) :
  (term = TextDoc.TermOther →
   TextDoc.term_count term self = (Raise UnboundLocalError, self))
  ∧ (term ≠ TextDoc.TermOther →
     match (TextDoc.term_count term self).1 with
     | Return n => 0 ≤ n
     | Raise e => e = IndexError
     end).
Proof.
  split; [by intros ->|]. intros Hterm.
  unfold TextDoc.term_count.
  erewrite run_bind_return by reflexivity.
  assert (∃ key : string * Z * Z,
    (match term with
     | TextDoc.TermStr s =>
         mret (s, str_to_id (TextDoc.spacy_stringstore self) s,
               count_spaces s + 1)
     | TextDoc.TermToken tok =>
         mret (normalized_str (TTok tok),
               str_to_id (TextDoc.spacy_stringstore self)
                 (normalized_str (TTok tok)), 1)
     | TextDoc.TermSpan sp =>
         mret (normalized_str (TSpan sp),
               str_to_id (TextDoc.spacy_stringstore self)
                 (normalized_str (TSpan sp)), Span.len sp)
     | TextDoc.TermOther => raise UnboundLocalError
     end : M TextDoc.t _) self = (Return key, self)) as [[[text id] len] Hkey].
  { destruct term; [by eexists..|done]. }
  erewrite run_bind_return by exact Hkey.
  cbv beta iota zeta.
  assert (∀ s : TextDoc.t,
            match (TextDoc.last_resort text s).1 with
            | Return n => 0 ≤ n
            | Raise e => e = IndexError
            end) as Hlast.
  { intros s. cbn. apply finditer_count_from_nonneg. }
  destruct (decide (counter_get _ id > 0)) as [Hpos|_]; [cbn; lia|].
  rewrite run_bind. unfold lift at 1.
  destruct (TextDoc.any_with_spaces self len) as [counted|e] eqn:Hany;
    last first.
  { cbn. unfold TextDoc.any_with_spaces in Hany.
    clear -Hany. induction ((map_to_list (TextDoc._term_counts self)).*1)
      as [|t l IH]; [done|].
    cbn in Hany. destruct (id_to_str _ t); cbn in Hany; [|congruence].
    destruct (bool_decide _); [done|]. by apply IH. }
  destruct counted; cbn [negb]; [apply Hlast|].
  destruct (decide (len = 1));
    (erewrite run_bind_return by reflexivity;
     erewrite run_bind_return by reflexivity;
     cbv beta zeta; case_decide;
     [unfold mret, M_ret; cbn [fst]; lia|apply Hlast]).
Qed.

End counting.

(** ** Dict comprehensions *)

Lemma mapM_return {A B} (f : A → outcome B) (g : A → B) (l : list A) :
  Forall (λ x, f x = Return (g x)) l → mapM f l = Return (g <$> l).
Proof.
  induction 1 as [|x l Hx _ IH]; [reflexivity|].
  cbn. by rewrite Hx, IH.
Qed.

Lemma mapM_raise {A B} (f : A → outcome B) (l : list A) e :
  Forall (λ x, f x = Raise e ∨ ∃ y, f x = Return y) l →
  Exists (λ x, f x = Raise e) l →
  mapM f l = Raise e.
Proof.
  induction 1 as [|x l Hx Hl IH]; intros Hex; [by apply Exists_nil in Hex|].
  cbn. destruct Hx as [Hx|[y Hx]]; rewrite Hx; [reflexivity|]. cbn.
  apply Exists_cons in Hex as [Hex|Hex]; [congruence|].
  by rewrite IH.
Qed.

(** A comprehension whose value expression does not raise: one item per
    item of the dict. *)
Lemma dict_comp_return {V W} (f : Z → V → outcome W) (g : Z → V → W)
    (m : gmap Z V) :
  (∀ k v, m !! k = Some v → f k v = Return (g k v)) →
  ∃ w, dict_comp f m = Return w ∧ ∀ k, w !! k = g k <$> m !! k.
Proof.
  intros Hf. unfold dict_comp.
  rewrite (mapM_return _ (λ kv, (kv.1, g kv.1 kv.2))); last first.
  { apply Forall_forall. intros [k v] Hkv. cbn.
    apply elem_of_map_to_list in Hkv. by rewrite (Hf k v Hkv). }
  eexists. split; [reflexivity|]. intros k.
  assert (((λ kv : Z * V, (kv.1, g kv.1 kv.2)) <$> map_to_list m).*1
          = (map_to_list m).*1) as Hkeys.
  { rewrite <- list_fmap_compose. by apply list_fmap_ext. }
  destruct (m !! k) as [v|] eqn:Hk; cbn.
  - apply elem_of_list_to_map_1.
    + rewrite Hkeys. apply NoDup_fst_map_to_list.
    + apply list_elem_of_fmap. exists (k, v).
      split; [reflexivity|]. by apply elem_of_map_to_list.
  - apply not_elem_of_list_to_map_1. rewrite Hkeys.
    intros Hin. apply list_elem_of_fmap in Hin as ([k' v] & -> & Hkv).
    apply elem_of_map_to_list in Hkv. cbn in Hk. congruence.
Qed.

(** A comprehension whose value expression raises [e] on one item at
    least, and nothing else on any: it raises [e]. *)
Lemma dict_comp_raise {V W} (f : Z → V → outcome W) (m : gmap Z V) e k v :
  (∀ k v, m !! k = Some v → f k v = Raise e ∨ ∃ w, f k v = Return w) →
  m !! k = Some v → f k v = Raise e →
  dict_comp f m = Raise e.
Proof.
  intros Hf Hk Hkv. unfold dict_comp.
  rewrite (mapM_raise _ _ e); [reflexivity| |].
  - apply Forall_forall. intros [k' v'] Hin. cbn.
    apply elem_of_map_to_list in Hin.
    destruct (Hf k' v' Hin) as [->|[w ->]]; [by left|right; by eexists].
  - apply Exists_exists. exists (k, v).
    split; [by apply elem_of_map_to_list|]. cbn. by rewrite Hkv.
Qed.

(** ** [TextDoc.as_bag_of_terms]: the weights *)

Lemma or_overflow_cases (f : float) :
  or_overflow f
  = if is_infinity f then Raise OverflowError else Return f.
Proof. by destruct f. Qed.

Lemma true_div_cases (a b : Z) :
  true_div a b
  = if decide (b = 0) then Raise ZeroDivisionError
    else if is_infinity (quotient a b) then Raise OverflowError
    else Return (Float (quotient a b)).
Proof.
  unfold true_div, quotient. destruct (decide (b = 0)); [reflexivity|].
  rewrite or_overflow_cases. by destruct (is_infinity _).
Qed.

(** A product of numbers raises nothing but [OverflowError]. *)
Lemma number_mul_raises (x y : number) e :
  number_mul x y = Raise e → e = OverflowError.
Proof.
  destruct x as [a|f], y as [b|g]; cbn; try discriminate.
  - unfold float_of_int. rewrite or_overflow_cases.
    destruct (is_infinity _); cbn; congruence.
  - unfold float_of_int. rewrite or_overflow_cases.
    destruct (is_infinity _); cbn; congruence.
Qed.

(** The arithmetic on runs of Python: [2 / 3], [(2**54 + 3) / 3],
    [10**400 / 1], [1 / 0], [3 * 0.1], [10**400 * 0.1] and [3 * 5]. *)
Example number_arithmetic_runs :
  true_div 2 3 = Return (Float Fixtures.two_thirds)
  ∧ true_div (2 ^ 54 + 3) 3
    = Return (Float (S754_finite false 6004799503160662 0))
  ∧ true_div (10 ^ 400) 1 = Raise OverflowError
  ∧ true_div 1 0 = Raise ZeroDivisionError
  ∧ number_mul (Int 3) (Float Fixtures.one_tenth)
    = Return (Float Fixtures.three_tenths_up)
  ∧ number_mul (Int (10 ^ 400)) (Float Fixtures.one_tenth)
    = Raise OverflowError
  ∧ number_mul (Int 3) (Int 5) = Return (Int 15).
Proof. repeat split; vm_compute; reflexivity. Qed.

Section weights.
Context `{Helpers}.

(** X16. Without [binary] and without an [idf], [as_bag_of_terms] gives
    the counts of [term_counts] as they are when [normalized] is off. When
    it is on, each count is divided by the doc's number of tokens: the
    weight is the float nearest to the quotient, and the call raises
    [OverflowError] when a quotient is too large for a float. On a doc of no
    tokens the normalized call raises [ZeroDivisionError] as soon as there
    is one count, and gives an empty bag when there is none. The doc is left
    as [term_counts] leaves it. *)
Theorem as_bag_of_terms_tf weighting lemmatize ngram_range include_nes
    include_ncs include_kts (self : TextDoc.t) :
  let n_tokens := TextDoc.n_tokens self in
  ∃ counts self1,
    TextDoc.term_counts lemmatize ngram_range include_nes include_ncs
      include_kts self = (Return counts, self1)
    ∧ TextDoc.as_bag_of_terms weighting false false None lemmatize
        ngram_range include_nes include_ncs include_kts self
      = (Return (Int <$> counts), self1)
    ∧ (n_tokens ≠ 0 →
       map_Forall (λ _ val, is_infinity (quotient val n_tokens) = false)
         counts →
       TextDoc.as_bag_of_terms weighting true false None lemmatize
         ngram_range include_nes include_ncs include_kts self
       = (Return ((λ val, Float (quotient val n_tokens)) <$> counts), self1))
    ∧ (n_tokens ≠ 0 →
       ¬ map_Forall (λ _ val, is_infinity (quotient val n_tokens) = false)
           counts →
       TextDoc.as_bag_of_terms weighting true false None lemmatize
         ngram_range include_nes include_ncs include_kts self
       = (Raise OverflowError, self1))
    ∧ (n_tokens = 0 → counts ≠ ∅ →
       TextDoc.as_bag_of_terms weighting true false None lemmatize
         ngram_range include_nes include_ncs include_kts self
       = (Raise ZeroDivisionError, self1))
    ∧ (n_tokens = 0 → counts = ∅ →
       TextDoc.as_bag_of_terms weighting true false None lemmatize
         ngram_range include_nes include_ncs include_kts self
       = (Return ∅, self1)).
Proof.
  cbv zeta.
  pose proof (term_counts_run lemmatize ngram_range include_nes include_ncs
                include_kts self) as Hrun. cbn zeta in Hrun.
  set (merged := foldl counter_or _ _) in Hrun.
  exists merged, (TextDoc.set_term_counts merged self).
  split; [exact Hrun|].
  assert (∀ o : outcome (gmap Z number),
    o = dict_comp (λ _ val, true_div val (TextDoc.n_tokens self)) merged →
    TextDoc.as_bag_of_terms weighting true false None lemmatize
      ngram_range include_nes include_ncs include_kts self
    = (o, TextDoc.set_term_counts merged self)) as Hnorm.
  { intros o ->. unfold TextDoc.as_bag_of_terms.
    erewrite run_bind_return by exact Hrun.
    rewrite run_bind. cbn [negb].
    erewrite run_bind_return by reflexivity.
    unfold lift. cbn [TextDoc.n_tokens TextDoc.set_term_counts
                        TextDoc.spacy_doc].
    destruct (dict_comp _ merged) as [w|e]; [|reflexivity].
    by destruct (decide (weighting = "tfidf")). }
  split; [|split; [|split; [|split]]].
  - unfold TextDoc.as_bag_of_terms.
    erewrite run_bind_return by exact Hrun.
    erewrite run_bind_return by reflexivity.
    by destruct (decide (weighting = "tfidf")).
  - intros Hn Hfits. apply Hnorm.
    destruct (dict_comp_return
                (λ _ val, true_div val (TextDoc.n_tokens self))
                (λ _ val, Float (quotient val (TextDoc.n_tokens self)))
                merged) as (w & -> & Hw).
    { intros k v Hk. rewrite true_div_cases, decide_False by done.
      by rewrite (Hfits k v Hk). }
    f_equal. apply map_eq. intros k. by rewrite lookup_fmap, Hw.
  - intros Hn Hover. apply Hnorm.
    apply map_not_Forall in Hover; [|apply _].
    destruct Hover as (k & v & Hk & Hinf).
    apply not_false_is_true in Hinf. symmetry.
    apply (dict_comp_raise _ _ _ k v); [|exact Hk|].
    + intros k' v' _. rewrite true_div_cases, decide_False by done.
      destruct (is_infinity (quotient v' _)); [by left|right; by eexists].
    + rewrite true_div_cases, decide_False by done. by rewrite Hinf.
  - intros Hn Hsome. apply Hnorm.
    apply map_choose in Hsome as (k & v & Hk). symmetry.
    apply (dict_comp_raise _ _ _ k v); [|exact Hk|].
    + intros k' v' _. left. unfold true_div. by rewrite decide_True.
    + unfold true_div. by rewrite decide_True.
  - intros Hn Hnone. apply Hnorm. rewrite Hnone.
    unfold dict_comp. by rewrite map_to_list_empty.
Qed.

(** X17. With [weighting='tfidf'] and a non-empty [idf], every count is
    multiplied by the [idf] weight of its term id, an int by an int exactly
    and an int by a float to the nearest float: the call returns when [idf]
    has a weight for every id counted and no count is too large to be made
    a float. It raises [KeyError] when [idf] lacks an id and no product
    fails, and [OverflowError] when no id is lacking and a count is too
    large. An empty [idf] is ignored: the call gives the counts as if
    [weighting] were ['tf']. *)
Theorem as_bag_of_terms_tfidf (idf : gmap Z number) lemmatize ngram_range
    include_nes include_ncs include_kts (self : TextDoc.t) :
  ∃ counts self1,
    TextDoc.term_counts lemmatize ngram_range include_nes include_ncs
      include_kts self = (Return counts, self1)
    ∧ (idf ≠ ∅ →
       (∀ k val, counts !! k = Some val →
          ∃ w x, idf !! k = Some w ∧ number_mul (Int val) w = Return x) →
       ∃ weights,
         TextDoc.as_bag_of_terms "tfidf" false false (Some idf) lemmatize
           ngram_range include_nes include_ncs include_kts self
         = (Return weights, self1)
         ∧ ∀ k,
             Return <$> weights !! k
             = val ← counts !! k; w ← idf !! k;
               Some (number_mul (Int val) w))
    ∧ (idf ≠ ∅ → ¬ dom counts ⊆ dom idf →
       (∀ k val w, counts !! k = Some val → idf !! k = Some w →
          ∃ x, number_mul (Int val) w = Return x) →
       TextDoc.as_bag_of_terms "tfidf" false false (Some idf) lemmatize
         ngram_range include_nes include_ncs include_kts self
       = (Raise KeyError, self1))
    ∧ (idf ≠ ∅ → dom counts ⊆ dom idf →
       (∃ k val w, counts !! k = Some val ∧ idf !! k = Some w
                   ∧ number_mul (Int val) w = Raise OverflowError) →
       TextDoc.as_bag_of_terms "tfidf" false false (Some idf) lemmatize
         ngram_range include_nes include_ncs include_kts self
       = (Raise OverflowError, self1))
    ∧ (idf = ∅ →
       TextDoc.as_bag_of_terms "tfidf" false false (Some idf) lemmatize
         ngram_range include_nes include_ncs include_kts self
       = (Return (Int <$> counts), self1)).
Proof.
  pose proof (term_counts_run lemmatize ngram_range include_nes include_ncs
                include_kts self) as Hrun. cbn zeta in Hrun.
  set (merged := foldl counter_or _ _) in Hrun.
  exists merged, (TextDoc.set_term_counts merged self).
  split; [exact Hrun|].
  set (scale := λ (key : Z) (val : number),
         match idf !! key with
         | Some w => number_mul val w
         | None => Raise KeyError
         end).
  assert (idf ≠ ∅ →
    TextDoc.as_bag_of_terms "tfidf" false false (Some idf) lemmatize
      ngram_range include_nes include_ncs include_kts self
    = (dict_comp scale (Int <$> merged),
       TextDoc.set_term_counts merged self)) as Hscaled.
  { intros Hidf. unfold TextDoc.as_bag_of_terms.
    erewrite run_bind_return by exact Hrun.
    erewrite run_bind_return by reflexivity.
    rewrite decide_True by done. unfold TextDoc.idf_given.
    by rewrite decide_False. }
  split; [|split; [|split]].
  - intros Hidf Hall. rewrite Hscaled by done.
    destruct (dict_comp_return scale
                (λ key val,
                   match scale key val with
                   | Return x => x
                   | Raise _ => val
                   end)
                (Int <$> merged)) as (w & -> & Hw).
    { intros k v Hk. rewrite lookup_fmap in Hk.
      destruct (merged !! k) as [val|] eqn:Hval; [|done].
      injection Hk as <-.
      destruct (Hall k val Hval) as (wk & x & Hwk & Hx).
      unfold scale. by rewrite Hwk, Hx. }
    exists w. split; [reflexivity|]. intros k.
    rewrite Hw, lookup_fmap.
    destruct (merged !! k) as [val|] eqn:Hval; [|reflexivity].
    destruct (Hall k val Hval) as (wk & x & Hwk & Hx).
    cbn [fmap option_fmap option_map mbind option_bind].
    unfold scale. rewrite Hwk. cbn [mbind option_bind]. by rewrite Hx.
  - intros Hidf Hdom Hmul. rewrite Hscaled by done. f_equal.
    assert (∃ k v, merged !! k = Some v ∧ idf !! k = None)
      as (k & v & Hk & Hnk).
    { destruct (decide (map_Forall (λ k _, is_Some (idf !! k)) merged))
        as [Hall|Hnot].
      - destruct Hdom. intros k Hin. apply elem_of_dom in Hin as [v Hk].
        apply elem_of_dom. exact (Hall k v Hk).
      - apply map_not_Forall in Hnot; [|apply _].
        destruct Hnot as (k & v & Hk & Hnone). exists k, v.
        split; [exact Hk|]. by apply eq_None_not_Some. }
    apply (dict_comp_raise _ _ _ k (Int v)).
    + intros k' v' Hk'. rewrite lookup_fmap in Hk'.
      destruct (merged !! k') as [val|] eqn:Hval; [|done].
      injection Hk' as <-. unfold scale.
      destruct (idf !! k') as [w|] eqn:Hw; [|by left].
      right. exact (Hmul k' val w Hval Hw).
    + by rewrite lookup_fmap, Hk.
    + unfold scale. by rewrite Hnk.
  - intros Hidf Hdom (k & val & w & Hk & Hw & Hover).
    rewrite Hscaled by done. f_equal.
    apply (dict_comp_raise _ _ _ k (Int val)).
    + intros k' v' Hk'. rewrite lookup_fmap in Hk'.
      destruct (merged !! k') as [val'|] eqn:Hval; [|done].
      injection Hk' as <-. unfold scale.
      assert (k' ∈ dom idf) as Hin
        by (apply Hdom; apply elem_of_dom; by eexists).
      apply elem_of_dom in Hin as [w' ->].
      destruct (number_mul (Int val') w') as [x|e] eqn:Hmul;
        [right; by eexists|left].
      by rewrite (number_mul_raises _ _ _ Hmul).
    + by rewrite lookup_fmap, Hk.
    + unfold scale. by rewrite Hw.
  - intros ->. unfold TextDoc.as_bag_of_terms.
    erewrite run_bind_return by exact Hrun.
    erewrite run_bind_return by reflexivity.
    rewrite decide_True by done. reflexivity.
Qed.

End weights.

(** ** [TextDoc.as_terms_list]: what [dedupe] and [words] change *)
Section terms_list_more.
Context `{Helpers}.

Lemma sublist_bind_pointwise {A B} (f g : A → list B) (l : list A) :
  (∀ x, f x `sublist_of` g x) → (l ≫= f) `sublist_of` (l ≫= g).
Proof.
  intros Hfg. induction l as [|x l IH]; [constructor|].
  cbn. by apply sublist_app.
Qed.

(** X18. [dedupe] only leaves terms out: the terms that [as_terms_list]
    yields with [dedupe=True] are, in the same order, some of the terms it
    yields with [dedupe=False] for the same other arguments. *)
Theorem as_terms_list_dedupe_sublist (self : TextDoc.t) words ngrams
    named_entities lemmatize kw :
  TextDoc.as_terms_list self words ngrams named_entities true lemmatize kw
  `sublist_of`
  TextDoc.as_terms_list self words ngrams named_entities false lemmatize kw.
Proof.
  assert (TextDoc.all_terms self words ngrams named_entities true kw
          `sublist_of`
          TextDoc.all_terms self words ngrams named_entities false kw)
    as Hterms.
  { unfold TextDoc.all_terms. cbn [andb].
    destruct named_entities; cbn [andb]; [|reflexivity].
    destruct (words || bool_decide (is_Some ngrams)) eqn:Hany;
      [|reflexivity].
    apply sublist_app; [reflexivity|]. apply sublist_app.
    - destruct words; [|reflexivity].
      apply fmap_sublist, sublist_filter.
    - destruct ngrams as [ngrams|]; [|reflexivity].
      apply sublist_bind_pointwise. intros n.
      apply fmap_sublist, sublist_filter. }
  unfold TextDoc.as_terms_list.
  destruct lemmatize; by apply fmap_sublist.
Qed.

Lemma ngram_orders_from_one hi :
  TextDoc.ngram_orders true (1, hi) = TextDoc.ngram_orders true (2, hi).
Proof.
  unfold TextDoc.ngram_orders, range. cbn [fst snd].
  destruct (decide (1 ≤ hi)) as [Hhi|Hhi].
  - replace (hi + 1 - 1) with (Z.succ (hi - 1)) by lia.
    rewrite seqZ_cons by lia.
    rewrite filter_cons_False by (intros Hn; by apply Hn).
    by replace (Z.succ 1) with 2 by lia;
       replace (Z.pred (Z.succ (hi - 1))) with (hi + 1 - 2) by lia.
  - by rewrite !seqZ_nil by lia.
Qed.

Lemma ngram_orders_up_to_one hi :
  hi ≤ 1 → TextDoc.ngram_orders true (1, hi) = [].
Proof.
  intros Hhi. rewrite ngram_orders_from_one.
  unfold TextDoc.ngram_orders, range. cbn [fst snd].
  by rewrite seqZ_nil by lia.
Qed.

(** X19. With [words=True] the n-gram loop leaves [n = 1] out: a range of
    n-grams that starts at 1 gives the terms of the range that starts at 2,
    so that the words are not yielded twice, and [ngrams=(1, 1)] gives what
    no n-grams at all give. *)
Theorem as_terms_list_skips_unigrams (self : TextDoc.t) hi named_entities
    dedupe lemmatize kw :
  TextDoc.as_terms_list self true (Some (1, hi)) named_entities dedupe
    lemmatize kw
  = TextDoc.as_terms_list self true (Some (2, hi)) named_entities dedupe
      lemmatize kw
  ∧ (hi ≤ 1 →
     TextDoc.as_terms_list self true (Some (1, hi)) named_entities dedupe
       lemmatize kw
     = TextDoc.as_terms_list self true None named_entities dedupe
         lemmatize kw).
Proof.
  unfold TextDoc.as_terms_list, TextDoc.all_terms. split.
  - by rewrite ngram_orders_from_one.
  - intros Hhi. rewrite ngram_orders_up_to_one by done.
    cbn [orb mbind]. reflexivity.
Qed.

End terms_list_more.

(** ** The doc as text: [__repr__], [n_paragraphs], [tokenized_text] *)

Lemma length_str_take n s :
  String.length (str_take n s) = Nat.min n (String.length s).
Proof.
  revert s. induction n as [|n IH]; intros [|c s]; cbn; try reflexivity.
  by rewrite IH.
Qed.

Lemma length_replace_newlines s :
  String.length (replace_newlines s) = String.length s.
Proof. induction s as [|c s IH]; cbn; [reflexivity|by rewrite IH]. Qed.

Lemma str_take_replace_newlines n s :
  str_take n (replace_newlines s) = replace_newlines (str_take n s).
Proof.
  revert s. induction n as [|n IH]; intros [|c s]; cbn; try reflexivity.
  by rewrite IH.
Qed.

Lemma str_take_str_take n m s :
  str_take n (str_take m s) = str_take (Nat.min n m) s.
Proof.
  revert m s. induction n as [|n IH]; intros [|m] [|c s]; cbn;
    try reflexivity.
  by rewrite IH.
Qed.

Lemma str_take_all n s : (String.length s ≤ n)%nat → str_take n s = s.
Proof.
  revert s. induction n as [|n IH]; intros [|c s] Hlen; cbn in *;
    try reflexivity; try lia.
  rewrite IH; [reflexivity|lia].
Qed.

Lemma length_string_app s t :
  String.length (s +:+ t) = (String.length s + String.length t)%nat.
Proof.
  induction s as [|c s IH]; [reflexivity|].
  change (S (String.length (s +:+ t))
          = S (String.length s + String.length t)).
  by f_equal.
Qed.

Lemma string_app_nil_r s : s +:+ EmptyString = s.
Proof.
  induction s as [|c s IH]; [reflexivity|].
  change (String c (s +:+ EmptyString) = String c s). by f_equal.
Qed.

Lemma newline_free_replace_newlines s :
  newline_free (replace_newlines s) = true.
Proof.
  induction s as [|c s IH]; cbn; [reflexivity|]. rewrite IH.
  destruct (decide (c = "010"%char)) as [->|Hne]; [reflexivity|].
  by rewrite bool_decide_true.
Qed.

Lemma newline_free_app s t :
  newline_free (s +:+ t) = newline_free s && newline_free t.
Proof.
  induction s as [|c s IH]; [reflexivity|].
  change (bool_decide (c ≠ "010"%char) && newline_free (s +:+ t)
          = bool_decide (c ≠ "010"%char) && newline_free s && newline_free t).
  rewrite IH. by rewrite andb_assoc.
Qed.

(** A paragraph does not count, and leaves no run of newlines open. *)
Lemma newline_runs_paragraph p :
  newline_free p = true →
  ∀ run t,
    newline_runs_from run (p +:+ t)
    = newline_runs_from (if decide (p = EmptyString) then run else 0) t.
Proof.
  induction p as [|c p IH]; intros Hfree run t; [reflexivity|].
  cbn in Hfree. apply andb_prop in Hfree as [Hc Hfree].
  apply bool_decide_eq_true in Hc.
  change (String c p +:+ t) with (String c (p +:+ t)).
  cbn [newline_runs_from]. rewrite decide_False by done.
  rewrite (IH Hfree). rewrite (decide_False (P := String c p = EmptyString))
    by done.
  by destruct (decide (p = EmptyString)).
Qed.

(** A run of newlines counts once, at its second newline. *)
Lemma newline_runs_newlines k :
  ∀ run t,
    newline_runs_from run (newlines k +:+ t)
    = (if decide (run ≤ 1 < run + k)%nat then 1 else 0)
      + newline_runs_from (run + k) t.
Proof.
  induction k as [|k IH]; intros run t.
  - change (newlines 0 +:+ t) with t. rewrite Nat.add_0_r.
    by rewrite decide_False by lia.
  - change (newlines (S k) +:+ t) with (String "010" (newlines k +:+ t)).
    cbn [newline_runs_from].
    rewrite decide_True by done. rewrite IH.
    replace (S run + k)%nat with (run + S k)%nat by lia.
    repeat case_decide; lia.
Qed.

Lemma newline_runs_paragraphs rest :
  ∀ first run,
    newline_free first = true →
    Forall (λ kp : nat * string,
      newline_free kp.2 = true ∧ kp.2 ≠ EmptyString) rest →
    first ≠ EmptyString ∨ run = 0%nat →
    newline_runs_from run (join_paragraphs first rest)
    = Z.of_nat (length rest).
Proof.
  induction rest as [|[k p] rest IH]; intros first run Hfirst Hrest Hrun.
  - cbn [join_paragraphs length].
    rewrite <- (string_app_nil_r first).
    rewrite newline_runs_paragraph by done.
    by destruct (decide (first = EmptyString)).
  - apply Forall_cons in Hrest as [[Hp Hne] Hrest]. cbn in Hp, Hne.
    cbn [join_paragraphs length].
    rewrite newline_runs_paragraph by done.
    assert ((if decide (first = EmptyString) then run else 0%nat) = 0%nat)
      as -> by (destruct (decide (first = EmptyString)), Hrun; done).
    rewrite newline_runs_newlines, decide_True by lia.
    rewrite IH by (try done; by left). lia.
Qed.

Lemma length_tokens_from ws :
  ∀ i idx, length (Doc.tokens_from i idx ws) = length ws.
Proof.
  induction ws as [|w ws IH]; intros i idx; [reflexivity|].
  cbn. by rewrite IH.
Qed.

(** The pieces of a list between bounds that tile it. *)
Lemma concat_tiles {A B} (f : A → B) (l : list A) bounds :
  ∀ start stop,
    0 ≤ start → tiles bounds start stop →
    concat ((λ b : Z * Z,
               f <$> take (Z.to_nat (b.2 - b.1)) (drop (Z.to_nat b.1) l))
              <$> bounds)
    = f <$> take (Z.to_nat (stop - start)) (drop (Z.to_nat start) l)
    ∧ start ≤ stop.
Proof.
  induction bounds as [|[a b] bounds IH]; intros start stop Hstart Htiles.
  - cbn in Htiles. subst stop. cbn. rewrite Z.sub_diag. split; [done|lia].
  - cbn in Htiles. destruct Htiles as (-> & Hle & Htiles).
    destruct (IH b stop) as [Hrest Hstop]; [lia|done|].
    split; [|lia]. cbn [fmap list_fmap concat fst snd]. rewrite Hrest.
    rewrite <- fmap_app. f_equal.
    replace (drop (Z.to_nat b) l)
      with (drop (Z.to_nat (b - start)) (drop (Z.to_nat start) l))
      by (rewrite drop_drop; f_equal; lia).
    rewrite take_take_drop. f_equal. lia.
Qed.

Section as_text.
Context `{Helpers}.

(** X20. The snippet that [__repr__] shows: a text shorter than 50
    characters is shown whole, and a text of 50 characters or more, one of
    exactly 50 included, is cut to its first 47 characters followed by
    three dots; newlines are shown as spaces. The snippet is never longer
    than 50 characters. *)
Theorem repr_snippet_cases (self : TextDoc.t) :
  TextDoc.repr_snippet self
  = (if decide (String.length (TextDoc.text self) < 50)%nat
     then replace_newlines (TextDoc.text self)
     else replace_newlines (str_take 47 (TextDoc.text self)) +:+ "...")
  ∧ String.length (TextDoc.repr_snippet self)
    = Nat.min 50 (String.length (TextDoc.text self))
  ∧ newline_free (TextDoc.repr_snippet self) = true.
Proof.
  assert (TextDoc.repr_snippet self
          = if decide (String.length (TextDoc.text self) < 50)%nat
            then replace_newlines (TextDoc.text self)
            else replace_newlines (str_take 47 (TextDoc.text self)) +:+ "...")
    as Hcases.
  { unfold TextDoc.repr_snippet. cbv zeta.
    rewrite length_replace_newlines, length_str_take.
    destruct (decide (String.length (TextDoc.text self) < 50)%nat)
      as [Hshort|Hlong].
    - rewrite decide_False by lia. by rewrite str_take_all by lia.
    - rewrite decide_True by lia.
      by rewrite str_take_replace_newlines, str_take_str_take. }
  split; [exact Hcases|]. rewrite Hcases.
  destruct (decide (String.length (TextDoc.text self) < 50)%nat)
    as [Hshort|Hlong].
  - rewrite length_replace_newlines, newline_free_replace_newlines.
    split; [lia|reflexivity].
  - rewrite length_string_app, length_replace_newlines, length_str_take.
    rewrite newline_free_app, newline_free_replace_newlines.
    split; [change (String.length "...") with 3%nat; lia|reflexivity].
Qed.

(** X21. [n_paragraphs] counts the paragraphs of a text whose paragraphs,
    none empty after the first and none with a newline in it, are set apart
    by runs of two or more newlines: whatever the lengths of the runs, the
    result is the number of paragraphs. *)
Theorem n_paragraphs_of_joined (self : TextDoc.t) first rest :
  TextDoc.text self = join_paragraphs first rest →
  newline_free first = true →
  Forall (λ kp : nat * string,
    newline_free kp.2 = true ∧ kp.2 ≠ EmptyString) rest →
  TextDoc.n_paragraphs self = Z.of_nat (length rest) + 1.
Proof.
  intros Htext Hfirst Hrest. unfold TextDoc.n_paragraphs, newline_runs.
  rewrite Htext, newline_runs_paragraphs by (try done; by right).
  reflexivity.
Qed.

(** X22. [tokenized_text] has one list per sentence, and when the
    sentences tile the doc (the first one starts at token 0, each one starts
    where the one before ended, the last one ends at the last token), the
    lists put end to end are the texts of all tokens of the doc, in
    order. *)
Theorem tokenized_text_flattens (self : TextDoc.t) :
  tiles (Doc.sent_bounds (TextDoc.spacy_doc self)) 0
    (Doc.len (TextDoc.spacy_doc self)) →
  Z.of_nat (length (TextDoc.tokenized_text self)) = TextDoc.n_sents self
  ∧ concat (TextDoc.tokenized_text self)
    = Token.text <$> Doc.tokens (TextDoc.spacy_doc self).
Proof.
  intros Htiles. unfold TextDoc.tokenized_text, TextDoc.n_sents,
    TextDoc.sents.
  split; [by rewrite length_fmap|].
  unfold Doc.sents. rewrite <- list_fmap_compose.
  set (d := TextDoc.spacy_doc self) in *.
  erewrite (list_fmap_ext _
    (λ b : Z * Z, Token.text <$> take (Z.to_nat (b.2 - b.1))
                                   (drop (Z.to_nat b.1) (Doc.tokens d))));
    [|by intros _ [a b] _].
  destruct (concat_tiles Token.text (Doc.tokens d) (Doc.sent_bounds d) 0
              (Doc.len d)) as [-> _]; [lia|done|].
  rewrite Z.sub_0_r. cbn [Z.to_nat drop]. f_equal.
  apply take_ge. unfold Doc.tokens, Doc.len.
  rewrite length_tokens_from. lia.
Qed.

End as_text.

(** ** [TextCorpus.add_text], then [TextCorpus.get_doc] *)
Section add_then_get.
Context `{Helpers}.

Lemma list_getitem_last {A} (l : list A) x :
  list_getitem (l ++ [x]) (-1) = Return x.
Proof.
  unfold list_getitem. cbv zeta. rewrite length_app. cbn [length].
  rewrite (decide_True (P := -1 < 0)) by lia.
  rewrite decide_True by lia.
  replace (Z.to_nat (-1 + Z.of_nat (length l + 1))) with (length l) by lia.
  by rewrite lookup_snoc.
Qed.

(** X23. What [add_text] puts in is what [get_doc(-1)] gets out: after an
    [add_text] that returns, the last doc of the corpus is a new doc object
    that holds the pipeline's parse of the text and the metadata given (an
    empty dict for none), has counted no terms, and has the corpus's old
    [n_docs] as its [corpus_index] and the corpus as its [corpus]. *)
Theorem add_text_then_get_doc self text lang metadata c
    (s : TextCorpus.store) :
  TextCorpus.corpus_objs s !! self = Some c →
  Language.lang (TextCorpus.spacy_pipeline c)
  = default (detect_language text) (TextDoc.lang_given lang) →
  ∃ s' doc d,
    TextCorpus.add_text self text lang metadata s = (Return tt, s')
    ∧ TextCorpus.get_doc self (-1) s' = (Return doc, s')
    ∧ TextCorpus.doc_objs s !! doc = None
    ∧ TextCorpus.doc_objs s' !! doc = Some d
    ∧ TextDoc.spacy_doc d
      = Language.call (TextCorpus.spacy_pipeline c) text
    ∧ TextDoc.metadata d = default ∅ metadata
    ∧ TextDoc._term_counts d = ∅
    ∧ TextDoc.corpus_index d = Some (TextCorpus.n_docs c)
    ∧ TextDoc.corpus d = Some self.
Proof.
  intros Hc Hlang.
  pose proof (lookup_lt_Some _ _ _ Hc) as Hlc.
  pose proof (add_text_run self text lang metadata c s Hc) as Hrun.
  cbv zeta in Hrun. rewrite decide_True in Hrun by done.
  eexists _, (length (TextCorpus.doc_objs s)), _.
  split; [exact Hrun|]. split; [|split; [|split]].
  - unfold TextCorpus.get_doc.
    erewrite run_bind_return; last first.
    { apply read_corpus_run. cbn. by apply list_lookup_insert_eq. }
    unfold lift. cbn [TextCorpus.docs grown_by].
    by rewrite list_getitem_last.
  - by apply lookup_ge_None_2.
  - cbn. apply lookup_snoc.
  - by repeat split.
Qed.

End add_then_get.

(** ** Runs of the corpus properties *)
Section corpus_examples.
Local Existing Instance Fixtures.helpers.

(** The store of two docs: its corpus is in order. *)
Lemma two_doc_store_in_order :
  ∃ c d,
    TextCorpus.corpus_objs Fixtures.two_doc_store !! 0%nat = Some c
    ∧ TextCorpus.docs c = [0; 1]%nat
    ∧ TextCorpus.lang c = "en"
    ∧ TextCorpus.spacy_pipeline c = Fixtures.pipeline "en"
    ∧ TextCorpus.doc_objs Fixtures.two_doc_store !! 0%nat = Some d
    ∧ TextDoc.lang d = "en"
    ∧ all_stored Fixtures.two_doc_store (TextCorpus.docs c)
    ∧ consistent Fixtures.two_doc_store 0.
Proof.
  pose proof (from_texts_run "en" ["a"; "b"] None 2 1000
                Fixtures.empty_store) as Hrun.
  change (load_spacy "en") with (Return (Fixtures.pipeline "en")) in Hrun.
  cbv beta iota in Hrun. rewrite decide_True in Hrun by by left.
  destruct Hrun as (s' & c' & Hrun & _ & _ & _ & _ & Hcons).
  assert (Fixtures.two_doc_store = s') as <-
    by (unfold Fixtures.two_doc_store; by rewrite Hrun).
  change (length (TextCorpus.corpus_objs Fixtures.empty_store)) with 0%nat
    in Hcons.
  assert (∃ c, TextCorpus.corpus_objs Fixtures.two_doc_store !! 0%nat = Some c
               ∧ TextCorpus.docs c = [0; 1]%nat
               ∧ TextCorpus.lang c = "en"
               ∧ TextCorpus.spacy_pipeline c = Fixtures.pipeline "en")
    as (c & Hc & Hdocs & Hlang & Hpipe).
  { eexists. split; [vm_compute; reflexivity|].
    split; [vm_compute; reflexivity|].
    split; vm_compute; reflexivity. }
  assert (∃ d, TextCorpus.doc_objs Fixtures.two_doc_store !! 0%nat = Some d
               ∧ TextDoc.lang d = "en") as (d & Hd & Hld)
    by (eexists; split; vm_compute; reflexivity).
  exists c, d. repeat split; try assumption.
  - destruct Hcons as [_ (c1 & Hc1 & Hall & _)].
    rewrite Hc in Hc1. by injection Hc1 as <-.
  - apply Hcons.
  - apply Hcons.
Qed.

(** A run of X1: the first doc of the two meets the condition. *)
Lemma get_docs_yields_matches_witness :
  ∃ c,
    TextCorpus.corpus_objs Fixtures.two_doc_store !! 0%nat = Some c
    ∧ all_stored Fixtures.two_doc_store (TextCorpus.docs c)
    ∧ list_get_docs 0 Fixtures.first_one (Some 1) Fixtures.two_doc_store
      = (Return [0%nat], Fixtures.two_doc_store).
Proof.
  destruct two_doc_store_in_order
    as (c & d & Hc & Hdocs & _ & _ & _ & _ & Hall & _).
  exists c. split; [exact Hc|]. split; [exact Hall|].
  rewrite (get_docs_yields_matches 0 c Fixtures.first_one (Some 1)
             Fixtures.two_doc_store Hc Hall).
  rewrite Hdocs.
  assert (selected Fixtures.first_one (Some 1) Fixtures.two_doc_store
            [0; 1]%nat = [0%nat]) as -> by (vm_compute; reflexivity).
  reflexivity.
Defined.

(** The store with a doc that no corpus holds. *)
Lemma loose_doc_store_facts :
  ∃ c d,
    TextCorpus.corpus_objs Fixtures.loose_doc_store !! 0%nat = Some c
    ∧ TextCorpus.doc_objs Fixtures.loose_doc_store !! 2%nat = Some d
    ∧ TextDoc.corpus_index d = None
    ∧ TextDoc.lang d = TextCorpus.lang c.
Proof.
  assert (∃ c, TextCorpus.corpus_objs Fixtures.loose_doc_store !! 0%nat
               = Some c ∧ TextCorpus.lang c = "en") as (c & Hc & Hlc)
    by (eexists; split; vm_compute; reflexivity).
  assert (∃ d, TextCorpus.doc_objs Fixtures.loose_doc_store !! 2%nat = Some d
               ∧ TextDoc.corpus_index d = None
               ∧ TextDoc.lang d = "en") as (d & Hd & Hci & Hld).
  { eexists. split; [vm_compute; reflexivity|].
    split; vm_compute; reflexivity. }
  exists c, d. repeat split; try assumption. congruence.
Qed.

(** The store of an English and a German corpus. *)
Lemma two_corpus_store_facts :
  ∃ c d,
    TextCorpus.corpus_objs Fixtures.two_corpus_store !! 1%nat = Some c
    ∧ TextCorpus.doc_objs Fixtures.two_corpus_store !! 0%nat = Some d
    ∧ TextDoc.lang d ≠ TextCorpus.lang c.
Proof.
  assert (∃ c, TextCorpus.corpus_objs Fixtures.two_corpus_store !! 1%nat
               = Some c ∧ TextCorpus.lang c = "de") as (c & Hc & Hlc)
    by (eexists; split; vm_compute; reflexivity).
  assert (∃ d, TextCorpus.doc_objs Fixtures.two_corpus_store !! 0%nat
               = Some d ∧ TextDoc.lang d = "en") as (d & Hd & Hld)
    by (eexists; split; vm_compute; reflexivity).
  exists c, d. repeat split; try assumption. by rewrite Hlc, Hld.
Qed.

(** A run of X2: the doc at address 2, held by no corpus, is added to the
    corpus of two docs; the store has as many doc objects as before. *)
Lemma add_doc_stores_unowned_doc_witness :
  ∃ c d s' c',
    TextCorpus.corpus_objs Fixtures.loose_doc_store !! 0%nat = Some c
    ∧ TextCorpus.doc_objs Fixtures.loose_doc_store !! 2%nat = Some d
    ∧ TextDoc.corpus_index d = None
    ∧ TextDoc.lang d = TextCorpus.lang c
    ∧ TextCorpus.add_doc 0 2 true Fixtures.loose_doc_store = (Return tt, s')
    ∧ TextCorpus.corpus_objs s' !! 0%nat = Some c'
    ∧ TextCorpus.docs c' = TextCorpus.docs c ++ [2%nat]
    ∧ length (TextCorpus.doc_objs s')
      = length (TextCorpus.doc_objs Fixtures.loose_doc_store).
Proof.
  destruct loose_doc_store_facts as (c & d & Hc & Hd & Hci & Hlang).
  destruct (add_doc_stores_unowned_doc 0 2 true c d Fixtures.loose_doc_store
              Hc Hd Hci Hlang)
    as (s' & c' & d' & Hrun & Hc' & Hdocs & Hlen & _).
  exists c, d, s', c'. repeat split; assumption.
Defined.

(** A run of X3: the German corpus refuses the English doc. *)
Lemma add_doc_refuses_other_language_witness :
  ∃ c d,
    TextCorpus.corpus_objs Fixtures.two_corpus_store !! 1%nat = Some c
    ∧ TextCorpus.doc_objs Fixtures.two_corpus_store !! 0%nat = Some d
    ∧ TextDoc.lang d ≠ TextCorpus.lang c
    ∧ TextCorpus.add_doc 1 0 true Fixtures.two_corpus_store
      = (Raise ValueError, Fixtures.two_corpus_store).
Proof.
  destruct two_corpus_store_facts as (c & d & Hc & Hd & Hlang).
  exists c, d. split; [exact Hc|]. split; [exact Hd|]. split; [exact Hlang|].
  exact (add_doc_refuses_other_language 1 0 true c d
           Fixtures.two_corpus_store Hc Hd Hlang).
Defined.

(** A run of X4: the corpus of two docs is given its first doc again. *)
Lemma add_doc_keeps_consistent_witness :
  ∃ s',
    consistent Fixtures.two_doc_store 0
    ∧ TextCorpus.add_doc 0 0 true Fixtures.two_doc_store = (Return tt, s')
    ∧ consistent s' 0.
Proof.
  destruct two_doc_store_in_order
    as (c & d & Hc & _ & Hlc & _ & Hd & Hld & _ & Hcons).
  assert (TextCorpus.lang <$> TextCorpus.corpus_objs Fixtures.two_doc_store
                              !! 0%nat
          = Some (TextDoc.lang d)) as Hlang
    by (rewrite Hc; cbn; by rewrite Hlc, Hld).
  destruct (add_doc_keeps_consistent 0 0 true d Fixtures.two_doc_store
              Hd Hlang Hcons) as (s' & Hrun & Hcons').
  exists s'. split; [exact Hcons|]. split; [exact Hrun|exact Hcons'].
Defined.

(** A run of X5: a third text is added to the corpus of two docs. *)
Lemma add_text_keeps_consistent_witness :
  ∃ s',
    consistent Fixtures.two_doc_store 0
    ∧ TextCorpus.add_text 0 "c" None None Fixtures.two_doc_store
      = (Return tt, s')
    ∧ consistent s' 0.
Proof.
  destruct two_doc_store_in_order
    as (c & d & Hc & _ & _ & Hpipe & _ & _ & _ & Hcons).
  destruct (add_text_keeps_consistent 0 "c" None None c
              Fixtures.two_doc_store Hc Hcons) as [Hreturns _].
  destruct Hreturns as (s' & c' & Hrun & _ & _ & Hcons');
    [by rewrite Hpipe|].
  exists s'. split; [exact Hcons|]. split; [exact Hrun|exact Hcons'].
Defined.

(** A run of X6: a corpus of two texts. *)
Lemma from_texts_gives_consistent_witness :
  ∃ textcorpus s',
    TextCorpus.from_texts "en" ["a"; "b"] None 2 1000 Fixtures.empty_store
    = (Return textcorpus, s')
    ∧ consistent s' textcorpus.
Proof.
  pose proof (from_texts_run "en" ["a"; "b"] None 2 1000
                Fixtures.empty_store) as Hrun.
  change (load_spacy "en") with (Return (Fixtures.pipeline "en")) in Hrun.
  cbv beta iota in Hrun. rewrite decide_True in Hrun by by left.
  destruct Hrun as (s' & c' & Hrun & _).
  eexists _, s'. split; [exact Hrun|].
  exact (from_texts_gives_consistent _ _ _ _ _ _ _ _ Hrun).
Defined.

(** A run of X8: two texts, no metadata. *)
Lemma from_texts_without_metadata_witness :
  ∃ textcorpus s' c,
    TextCorpus.from_texts "en" ["a"; "b"] None 2 1000 Fixtures.empty_store
    = (Return textcorpus, s')
    ∧ TextCorpus.corpus_objs s' !! textcorpus = Some c
    ∧ TextCorpus.n_docs c = 2.
Proof.
  assert (load_spacy "en" = Return (Fixtures.pipeline "en")) as Hload
    by reflexivity.
  destruct (from_texts_without_metadata "en" ["a"; "b"] 2 1000
              (Fixtures.pipeline "en") Fixtures.empty_store Hload eq_refl)
    as (textcorpus & s' & c & Hrun & Hc & Hn & _).
  exists textcorpus, s', c. repeat split; assumption.
Defined.

(** A run of X9: the first doc of the two is to be removed; its
    [corpus_index] 0 fits an index-sized integer. *)
Lemma remove_docs_raises_on_a_match_witness :
  TextCorpus.remove_docs 0 (λ d, Return (Fixtures.first_one d)) None
    Fixtures.two_doc_store
  = (Raise TypeError, Fixtures.two_doc_store).
Proof.
  destruct two_doc_store_in_order
    as (c & d & Hc & Hdocs & _ & _ & _ & _ & Hall & _).
  assert (selected Fixtures.first_one None Fixtures.two_doc_store
            (TextCorpus.docs c) = [0%nat]) as Hsel
    by (rewrite Hdocs; vm_compute; reflexivity).
  assert (TextCorpus.doc_objs Fixtures.two_doc_store !! 0%nat
          ≫= TextDoc.corpus_index = Some 0) as Hindex
    by (vm_compute; reflexivity).
  exact (remove_docs_raises_on_a_match 0 c Fixtures.first_one None 0%nat []
           0 Fixtures.two_doc_store Hc Hall Hsel Hindex (Forall_nil_2 _)).
Defined.

(** A run of X10: no doc of the two is to be removed. *)
Lemma remove_docs_renumbers_witness :
  ∃ s',
    TextCorpus.remove_docs 0 (λ d, Return (Fixtures.never d)) None
      Fixtures.two_doc_store = (Return tt, s')
    ∧ positional s' 0.
Proof.
  destruct two_doc_store_in_order
    as (c & d & Hc & Hdocs & _ & _ & _ & _ & Hall & _).
  destruct (remove_docs_renumbers 0 c Fixtures.never None
              Fixtures.two_doc_store Hc Hall)
    as (s' & Hrun & Hpos & _).
  - rewrite Hdocs. apply NoDup_cons. split; [|apply NoDup_singleton].
    intros Hin. apply list_elem_of_singleton in Hin. discriminate Hin.
  - rewrite Hdocs. vm_compute. reflexivity.
  - exists s'. split; assumption.
Defined.

(** A run of X11: the last doc of the two, by the index [-1]. *)
Lemma get_doc_by_index_witness :
  ∃ doc d,
    positional Fixtures.two_doc_store 0
    ∧ TextCorpus.__len__ 0 Fixtures.two_doc_store
      = (Return 2, Fixtures.two_doc_store)
    ∧ TextCorpus.get_doc 0 (-1) Fixtures.two_doc_store
      = (Return doc, Fixtures.two_doc_store)
    ∧ TextCorpus.doc_objs Fixtures.two_doc_store !! doc = Some d
    ∧ TextDoc.corpus_index d = Some 1.
Proof.
  destruct two_doc_store_in_order
    as (c & d0 & Hc & Hdocs & _ & _ & _ & _ & _ & Hpos & Hagg).
  assert (TextCorpus.n_docs c = Z.of_nat (length (TextCorpus.docs c)))
    as Hn.
  { destruct Hagg as (c' & Hc' & _ & Hn & _).
    rewrite Hc in Hc'. by injection Hc' as <-. }
  destruct (get_doc_by_index 0 c (-1) Fixtures.two_doc_store Hc Hpos Hn)
    as (Hlen & _ & Hin & _).
  rewrite Hdocs in Hlen, Hin. cbn [length] in Hlen, Hin.
  destruct Hin as (doc & d & Hget & Hd & Hci); [lia|].
  exists doc, d. split; [exact Hpos|]. split; [exact Hlen|].
  split; [exact Hget|]. split; [exact Hd|exact Hci].
Defined.

End corpus_examples.

(** ** Runs of the doc properties *)
Section doc_examples.
Local Existing Instance Fixtures.helpers.

(** A run of X12: "Hello Obama" counted for the first time; "Hello" occurs
    once. *)
Lemma term_counts_of_fresh_doc_witness :
  ∃ counts,
    TextDoc.term_counts TextDoc.LemAuto (1, 1) false false false
      (Fixtures.doc_of Fixtures.hello_obama)
    = (Return counts,
       TextDoc.set_term_counts counts (Fixtures.doc_of Fixtures.hello_obama))
    ∧ counter_get counts (str_to_id Fixtures.string_store "Hello") = 1.
Proof.
  destruct (term_counts_of_fresh_doc TextDoc.LemAuto
              (Fixtures.doc_of Fixtures.hello_obama) eq_refl)
    as (counts & Hrun & Hcounts).
  exists counts. split; [exact Hrun|].
  rewrite Hcounts. vm_compute. reflexivity.
Defined.

(** A run of X13: words, bigrams and entities of "Hello Obama". *)
Lemma term_counts_takes_maximum_witness :
  ∃ counts,
    TextDoc.term_counts TextDoc.LemAuto (1, 2) true false false
      (Fixtures.doc_of Fixtures.hello_obama)
    = (Return counts,
       TextDoc.set_term_counts counts (Fixtures.doc_of Fixtures.hello_obama))
    ∧ counter_get counts (str_to_id Fixtures.string_store "Obama") = 1.
Proof.
  destruct (term_counts_takes_maximum TextDoc.LemAuto (1, 2) true false false
              (Fixtures.doc_of Fixtures.hello_obama))
    as (counts & Hrun & Hcounts); [apply map_Forall_empty|].
  exists counts. split; [exact Hrun|].
  rewrite Hcounts. vm_compute. reflexivity.
Defined.

(** A run of X14: the count of the token "Hello" in "Hello Obama". *)
Lemma term_count_of_word_witness :
  ∃ self',
    TextDoc.term_count
      (TextDoc.TermToken
         {| Token.i := 0; Token.idx := 0; Token.text := "Hello";
            Token.lemma_ := "hello" |})
      (Fixtures.doc_of Fixtures.hello_obama)
    = (Return 1, self').
Proof.
  pose proof (term_count_of_word (Fixtures.doc_of Fixtures.hello_obama)
                {| Token.i := 0; Token.idx := 0; Token.text := "Hello";
                   Token.lemma_ := "hello" |} eq_refl
                (list_elem_of_here _ _)) as Hrun.
  cbv zeta in Hrun. set (n := occurrences _ _) in Hrun.
  assert (n = 1) as Hn by (subst n; vm_compute; reflexivity).
  rewrite Hn in Hrun. eexists. exact Hrun.
Defined.

(** A run of X16: the normalized weights of "a b a" are the floats nearest
    to 2/3 and 1/3. *)
Lemma as_bag_of_terms_tf_witness :
  ∃ weights self1,
    TextDoc.as_bag_of_terms "tf" true false None TextDoc.LemAuto (1, 1)
      false false false (Fixtures.doc_of Fixtures.a_b_a)
    = (Return weights, self1)
    ∧ weights !! str_to_id Fixtures.string_store "a"
      = Some (Float Fixtures.two_thirds)
    ∧ weights !! str_to_id Fixtures.string_store "b"
      = Some (Float Fixtures.one_third).
Proof.
  destruct (as_bag_of_terms_tf "tf" TextDoc.LemAuto (1, 1) false false false
              (Fixtures.doc_of Fixtures.a_b_a))
    as (counts & self1 & Hrun & _ & Hnorm & _).
  assert (counts = <[str_to_id Fixtures.string_store "a" := 2]>
                     {[ str_to_id Fixtures.string_store "b" := 1 ]})
    as ->.
  { apply (f_equal fst) in Hrun. cbn [fst] in Hrun.
    assert (Return counts
            = Return (<[str_to_id Fixtures.string_store "a" := 2]>
                        {[ str_to_id Fixtures.string_store "b" := 1 ]}))
      as Heq by (rewrite <- Hrun; vm_compute; reflexivity).
    by injection Heq. }
  eexists _, self1. split.
  - apply Hnorm; [vm_compute; discriminate|].
    apply map_Forall_insert_2; [vm_compute; reflexivity|].
    apply map_Forall_singleton. vm_compute. reflexivity.
  - split; vm_compute; reflexivity.
Defined.

(** A run of X17: the count 3 of "a" in "a a a" times the weight 0.1 is the
    float 0.30000000000000004. *)
Lemma as_bag_of_terms_tfidf_witness :
  ∃ weights self1,
    TextDoc.as_bag_of_terms "tfidf" false false
      (Some {[ str_to_id Fixtures.string_store "a"
               := Float Fixtures.one_tenth ]})
      TextDoc.LemAuto (1, 1) false false false
      (Fixtures.doc_of Fixtures.a_a_a)
    = (Return weights, self1)
    ∧ Return <$> weights !! str_to_id Fixtures.string_store "a"
      = Some (Return (Float Fixtures.three_tenths_up)).
Proof.
  destruct (as_bag_of_terms_tfidf
              {[ str_to_id Fixtures.string_store "a"
                 := Float Fixtures.one_tenth ]}
              TextDoc.LemAuto (1, 1) false false false
              (Fixtures.doc_of Fixtures.a_a_a))
    as (counts & self1 & Hrun & Hscaled & _).
  assert (counts = {[ str_to_id Fixtures.string_store "a" := 3 ]}) as ->.
  { apply (f_equal fst) in Hrun. cbn [fst] in Hrun.
    assert (Return counts
            = Return ({[ str_to_id Fixtures.string_store "a" := 3 ]}
                      : Counter))
      as Heq by (rewrite <- Hrun; vm_compute; reflexivity).
    by injection Heq. }
  destruct Hscaled as (weights & Hbag & Hweights).
  - apply (map_non_empty_singleton (M := gmap Z)).
  - intros k val Hk. apply lookup_singleton_Some in Hk as [<- <-].
    eexists _, _. split; [apply lookup_singleton_eq|].
    vm_compute. reflexivity.
  - exists weights, self1. split; [exact Hbag|].
    rewrite Hweights. vm_compute. reflexivity.
Defined.

(** A run of X21: two paragraphs with a blank line between them. *)
Lemma n_paragraphs_of_joined_witness :
  TextDoc.n_paragraphs
    (Fixtures.doc_of
       (Fixtures.one_token_doc
          (String "a" (String "010" (String "010" "b")))))
  = 2.
Proof.
  apply (n_paragraphs_of_joined _ "a" [(0%nat, "b")]).
  - vm_compute. reflexivity.
  - reflexivity.
  - apply Forall_singleton. split; [reflexivity|discriminate].
Defined.

(** A run of X22: the one sentence of "Hello Obama". *)
Lemma tokenized_text_flattens_witness :
  concat (TextDoc.tokenized_text (Fixtures.doc_of Fixtures.hello_obama))
  = ["Hello"; "Obama"].
Proof.
  destruct (tokenized_text_flattens (Fixtures.doc_of Fixtures.hello_obama))
    as [_ ->].
  - vm_compute. repeat split; discriminate.
  - vm_compute. reflexivity.
Defined.

(** A run of X23: a third text is added to the corpus of two docs and got
    back. *)
Lemma add_text_then_get_doc_witness :
  ∃ s' doc d,
    TextCorpus.add_text 0 "c" None None Fixtures.two_doc_store
    = (Return tt, s')
    ∧ TextCorpus.get_doc 0 (-1) s' = (Return doc, s')
    ∧ TextCorpus.doc_objs s' !! doc = Some d
    ∧ TextDoc.spacy_doc d = Fixtures.one_token_doc "c".
Proof.
  destruct two_doc_store_in_order
    as (c & d0 & Hc & _ & _ & Hpipe & _).
  destruct (add_text_then_get_doc 0 "c" None None c Fixtures.two_doc_store
              Hc)
    as (s' & doc & d & Hrun & Hget & _ & Hd & Hsdoc & _);
    [by rewrite Hpipe|].
  exists s', doc, d. split; [exact Hrun|]. split; [exact Hget|].
  split; [exact Hd|]. by rewrite Hsdoc, Hpipe.
Defined.

End doc_examples.
